(** * Tool-cabinet server: inventory hub of [app/websocket_server.py]

    A shallow embedding of the WebSocket handlers ([borrow_tool],
    [return_tool], [sensor_update], [get_tool_status]), of the
    [ConnectionManager] and of the history collaborator
    ([app/record_handler.py]), followed by the properties of the
    inventory state machine.

    Conventions of the embedding.
    - Python [int] is [Z]; Python [float] is the binary64 type [float] of
      the Standard Library, so [current_weight / tool.unit_weight] is the
      IEEE division the interpreter performs and [int(...)] is computed
      from the exact binary expansion.
    - A handler is an [async def]: it runs without interruption up to its
      next [await].  A handler is therefore a first block of code followed
      by the awaited manager call and the block that resumes after it
      ([Coro]).
    - Everything a handler can observe or change is a field of [World]:
      the database, the wall clock read by [datetime.now()], the global
      [manager], and the trace of calls made on sockets and loggers. *)

From Stdlib Require Import ZArith List String Bool Lia Floats Permutation.
Import ListNotations.
Local Open Scope string_scope.
Local Open Scope list_scope.
Local Open Scope Z_scope.
#[local] Set Warnings "-register-all".

(* ------------------------------------------------------------------ *)
(** * Python numbers and exceptions *)
(* ------------------------------------------------------------------ *)

Module Py.

(** The exceptions the modelled operations can raise. *)
Inductive exn : Type :=
| OverflowError (what : string)
| ValueError (what : string)
| ZeroDivisionError (what : string)
| ConnectionClosed                    (* [send_text] on a dead socket *)
| OperationalError (what : string)    (* the database refuses a write *)
| PendingRollbackError (what : string)
                    (* a session used after a flush of it has failed *)
| AttributeError (type_name attribute : string).
                    (* [x.attribute] on a value that has none *)

Inductive result (A : Type) : Type :=
| Ok (a : A)
| Raise (e : exn).
Arguments Ok {A} a.
Arguments Raise {A} e.

(** A JSON number as [json.loads] delivers it. *)
Inductive num : Type :=
| Int (z : Z)
| Float (f : float).

(** [float(z)]: correctly rounded, [OverflowError] beyond the range. *)
Definition float_of_int (z : Z) : result float :=
  match binary_normalize prec emax z 0 false with
  | S754_infinity _ => Raise (OverflowError "int too large to convert to float")
  | sf => Ok (SF2Prim sf)
  end.

(** The left operand of a division by a float. *)
Definition as_float (x : num) : result float :=
  match x with
  | Int z => float_of_int z
  | Float f => Ok f
  end.

(** Neither infinite nor NaN. *)
Definition finite (f : float) : bool :=
  match Prim2SF f with
  | S754_zero _ | S754_finite _ _ _ => true
  | S754_infinity _ | S754_nan => false
  end.

(** [x / y] with [y] a float: the left operand is converted first, a
    zero divisor raises, otherwise the IEEE quotient (possibly [inf]
    or [nan]) is returned. *)
Definition truediv (x : num) (y : float) : result float :=
  match as_float x with
  | Raise e => Raise e
  | Ok fx =>
      if PrimFloat.eqb y 0%float
      then Raise (ZeroDivisionError "float division by zero")
      else Ok (PrimFloat.div fx y)
  end.

(** Magnitude of a finite non-zero float, rounded down: [m * 2^e]. *)
Definition magnitude_down (m : positive) (e : Z) : Z :=
  match e with
  | Z0 => Zpos m
  | Zpos p => Z.shiftl (Zpos m) (Zpos p)
  | Zneg p => Z.shiftr (Zpos m) (Zpos p)
  end.

(** Whether [m * 2^e] is an integer. *)
Definition is_integral (m : positive) (e : Z) : bool :=
  match e with
  | Zneg p => Z.shiftl (Z.shiftr (Zpos m) (Zpos p)) (Zpos p) =? Zpos m
  | _ => true
  end.

(** [int(f)]: truncation toward zero. *)
Definition int_of_float (f : float) : result Z :=
  match Prim2SF f with
  | S754_zero _ => Ok 0
  | S754_finite s m e =>
      Ok (if s then - magnitude_down m e else magnitude_down m e)
  | S754_infinity _ =>
      Raise (OverflowError "cannot convert float infinity to integer")
  | S754_nan =>
      Raise (ValueError "cannot convert float NaN to integer")
  end.

(** [math.floor(f)]: rounding toward minus infinity.  The handlers do
    not call it; it is what the specification names. *)
Definition floor_of_float (f : float) : result Z :=
  match Prim2SF f with
  | S754_zero _ => Ok 0
  | S754_finite s m e =>
      Ok (if s
          then if is_integral m e
               then - magnitude_down m e
               else - magnitude_down m e - 1
          else magnitude_down m e)
  | S754_infinity _ =>
      Raise (OverflowError "cannot convert float infinity to integer")
  | S754_nan =>
      Raise (ValueError "cannot convert float NaN to integer")
  end.

End Py.
Export Py (Ok, Raise, result).

(* ------------------------------------------------------------------ *)
(** * Messages *)
(* ------------------------------------------------------------------ *)

(** A piece of an f-string: literal text or an interpolated value. *)
Inductive frag : Type :=
| Lit (s : string)
| IntHole (z : Z)
| NumHole (n : Py.num)
| ExnHole (e : Py.exn)
| StrHole (s : string)
| TimeHole (t : Z)
| DictHole (keys : list string).

Definition text := list frag.

(** Values of an outbound JSON object.  [VTime t] is
    [t.isoformat()] for the instant [t]. *)
Inductive value : Type :=
| VNull
| VBool (b : bool)
| VInt (z : Z)
| VNum (n : Py.num)
| VStr (s : string)
| VText (t : text)
| VTime (t : Z)
| VObj (fields : list (string * value)).

(** An outbound message: a Python dict literal, keys in source order. *)
Definition Msg := list (string * value).

Fixpoint field (k : string) (m : Msg) : option value :=
  match m with
  | [] => None
  | (k', v) :: m' => if String.eqb k k' then Some v else field k m'
  end.

(** The inbound message after [json.loads], with the fields the handlers
    read and the types of the interface: [quantity] an integer,
    [current_weight] a number, each possibly absent. *)
Record Message : Type := {
  action : option string;
  quantity : option Z;
  current_weight : option Py.num
}.

(** [d.get(key, default)] on an optional field. *)
Definition dict_get {A : Type} (v : option A) (default : A) : A :=
  match v with
  | Some a => a
  | None => default
  end.

(* ------------------------------------------------------------------ *)
(** * Tables ([app/models.py]) *)
(* ------------------------------------------------------------------ *)

(** The row of [tools] whose primary key is 1. *)
Record Tool : Type := {
  name : string;
  total_quantity : Z;
  current_quantity : Z;
  threshold : Z;
  unit_weight : float;
  status : string;
  last_updated : option Z
}.

Definition set_current_quantity (t : Tool) (q : Z) : Tool :=
  {| name := name t; total_quantity := total_quantity t;
     current_quantity := q; threshold := threshold t;
     unit_weight := unit_weight t; status := status t;
     last_updated := last_updated t |}.

Definition set_unit_weight (t : Tool) (u : float) : Tool :=
  {| name := name t; total_quantity := total_quantity t;
     current_quantity := current_quantity t; threshold := threshold t;
     unit_weight := u; status := status t;
     last_updated := last_updated t |}.

Definition set_status (t : Tool) (s : string) : Tool :=
  {| name := name t; total_quantity := total_quantity t;
     current_quantity := current_quantity t; threshold := threshold t;
     unit_weight := unit_weight t; status := s;
     last_updated := last_updated t |}.

Definition set_last_updated (t : Tool) (u : Z) : Tool :=
  {| name := name t; total_quantity := total_quantity t;
     current_quantity := current_quantity t; threshold := threshold t;
     unit_weight := unit_weight t; status := status t;
     last_updated := Some u |}.

(** The three values ever written to [Tool.status]. *)
Definition NORMAL : string := "正常".
Definition LOW : string := "低库存".
Definition EMPTY : string := "无库存".

(** The column defaults of [Tool]. *)
Definition default_tool (created : Z) : Tool :=
  {| name := "车间通用工具"; total_quantity := 10; current_quantity := 10;
     threshold := 2; unit_weight := 100%float; status := NORMAL;
     last_updated := Some created |}.

Record BorrowRecord : Type := {
  record_id : Z;
  employee_id : Z;
  tool_id : Z;
  record_action : string;
  record_quantity : Z;
  borrow_time : Z;
  return_time : option Z;
  created_at : Z
}.

Record Database : Type := {
  tools : option Tool;
  borrow_records : list BorrowRecord
}.

(* ------------------------------------------------------------------ *)
(** * The world and the monad of handler code *)
(* ------------------------------------------------------------------ *)

(** A connection handle; the [WebSocket] object of one client. *)
Definition WebSocket := nat.

Inductive Level : Type := INFO | WARNING | ERROR.

(** What a run leaves behind, in order: records handed to a logger, and
    calls of [send_text] on a socket (whether or not the transport then
    fails). *)
Inductive Event : Type :=
| Log (logger : string) (level : Level) (t : text)
| SendText (websocket : WebSocket) (message : Msg).

Record World : Type := {
  db : Database;
  clock : Z;                             (* next value of [datetime.now()] *)
  active_connections : list WebSocket;   (* [manager.active_connections] *)
  broken_sockets : list WebSocket;       (* [send_text] raises on these *)
  history_fault : bool;                  (* writes to [borrow_records] fail *)
  trace : list Event                     (* oldest first *)
}.

Definition set_db (w : World) (d : Database) : World :=
  {| db := d; clock := clock w; active_connections := active_connections w;
     broken_sockets := broken_sockets w; history_fault := history_fault w;
     trace := trace w |}.

Definition set_clock (w : World) (c : Z) : World :=
  {| db := db w; clock := c; active_connections := active_connections w;
     broken_sockets := broken_sockets w; history_fault := history_fault w;
     trace := trace w |}.

Definition set_active_connections (w : World) (l : list WebSocket) : World :=
  {| db := db w; clock := clock w; active_connections := l;
     broken_sockets := broken_sockets w; history_fault := history_fault w;
     trace := trace w |}.

Definition set_trace (w : World) (t : list Event) : World :=
  {| db := db w; clock := clock w; active_connections := active_connections w;
     broken_sockets := broken_sockets w; history_fault := history_fault w;
     trace := t |}.

(** Code that reads and writes the world and may raise. *)
Definition M (A : Type) : Type := World -> result A * World.

Definition ret {A : Type} (a : A) : M A := fun w => (Ok a, w).

Definition bind {A B : Type} (m : M A) (f : A -> M B) : M B :=
  fun w =>
    match m w with
    | (Ok a, w') => f a w'
    | (Raise e, w') => (Raise e, w')
    end.

Definition raise {A : Type} (e : Py.exn) : M A := fun w => (Raise e, w).

(** [try: m except Exception as e: h e]. *)
Definition try_ {A : Type} (m : M A) (h : Py.exn -> M A) : M A :=
  fun w =>
    match m w with
    | (Ok a, w') => (Ok a, w')
    | (Raise e, w') => h e w'
    end.

Declare Scope py_scope.
Delimit Scope py_scope with py.
Notation "x <- m ;; k" := (bind m (fun x => k))
  (at level 61, m at next level, right associativity) : py_scope.
Notation "m ;; k" := (bind m (fun _ => k))
  (at level 61, right associativity) : py_scope.
Local Open Scope py_scope.

(** [datetime.now()]: the clock never gives the same instant twice. *)
Definition now : M Z :=
  fun w => (Ok (clock w), set_clock w (clock w + 1)).

Definition emit (e : Event) : M unit :=
  fun w => (Ok tt, set_trace w (trace w ++ [e])).

(** The two module loggers, [logging.getLogger(__name__)]. *)
Definition WS_LOGGER : string := "app.websocket_server".
Definition RH_LOGGER : string := "app.record_handler".

Definition log (logger : string) (l : Level) (t : text) : M unit :=
  emit (Log logger l t).

(** [db.query(Tool).filter(Tool.id == 1).first()]. *)
Definition query_tool : M (option Tool) :=
  fun w => (Ok (tools (db w)), w).

(** [db.commit()] with the loaded [tool] modified. *)
Definition commit_tool (t : Tool) : M unit :=
  fun w =>
    (Ok tt,
     set_db w {| tools := Some t; borrow_records := borrow_records (db w) |}).

(** [websocket.send_text(json.dumps(message))]. *)
Definition send_text (websocket : WebSocket) (message : Msg) : M unit :=
  emit (SendText websocket message) ;;
  fun w =>
    if existsb (Nat.eqb websocket) (broken_sockets w)
    then (Raise Py.ConnectionClosed, w)
    else (Ok tt, w).

(* ------------------------------------------------------------------ *)
(** * [ConnectionManager] *)
(* ------------------------------------------------------------------ *)

(** [list.remove(x)]: the first occurrence goes. *)
Fixpoint list_remove (x : WebSocket) (l : list WebSocket) : list WebSocket :=
  match l with
  | [] => []
  | y :: l' => if Nat.eqb x y then l' else y :: list_remove x l'
  end.

Definition connect (websocket : WebSocket) : M unit :=
  (fun w =>
     (Ok tt, set_active_connections w (active_connections w ++ [websocket]))) ;;
  n <- (fun w => (Ok (Z.of_nat (List.length (active_connections w))), w)) ;;
  log WS_LOGGER INFO [Lit "新的WebSocket连接，当前连接数: "; IntHole n].

Definition disconnect (websocket : WebSocket) : M unit :=
  fun w =>
    if existsb (Nat.eqb websocket) (active_connections w)
    then
      ((fun w =>
          (Ok tt,
           set_active_connections w
             (list_remove websocket (active_connections w)))) ;;
       n <- (fun w => (Ok (Z.of_nat (List.length (active_connections w))), w)) ;;
       log WS_LOGGER INFO [Lit "WebSocket连接断开，剩余连接数: "; IntHole n]) w
    else (Ok tt, w).

Definition send_personal_message (message : Msg) (websocket : WebSocket)
  : M unit :=
  try_ (send_text websocket message)
       (fun e => log WS_LOGGER ERROR [Lit "发送消息失败: "; ExnHole e]).

(** The loop of [broadcast] over the connections. *)
Fixpoint broadcast_loop (connections : list WebSocket) (message : Msg)
  : M unit :=
  match connections with
  | [] => ret tt
  | connection :: rest =>
      try_ (send_text connection message)
           (fun e => log WS_LOGGER ERROR [Lit "广播消息失败: "; ExnHole e]) ;;
      broadcast_loop rest message
  end.

Definition broadcast (message : Msg) : M unit :=
  fun w => broadcast_loop (active_connections w) message w.

(* ------------------------------------------------------------------ *)
(** * The history collaborator ([app/record_handler.py]) *)
(* ------------------------------------------------------------------ *)

Definition BORROWED : string := "借出".
Definition RETURNED : string := "归还".

Definition next_record_id (rs : list BorrowRecord) : Z :=
  1 + fold_right (fun r acc => Z.max (record_id r) acc) 0 rs.

(** [db.add(record); db.commit(); db.refresh(record)]: the row gets its
    key and its [created_at] default. *)
Definition add_record (employee tool_ : Z) (act : string) (qty : Z)
    (borrowed : Z) (returned : option Z) : M BorrowRecord :=
  fun w =>
    if history_fault w
    then (Raise (Py.OperationalError "borrow_records"), w)
    else
      (created <- now ;;
       fun w =>
         let record :=
           {| record_id := next_record_id (borrow_records (db w));
              employee_id := employee; tool_id := tool_;
              record_action := act; record_quantity := qty;
              borrow_time := borrowed; return_time := returned;
              created_at := created |} in
         (Ok record,
          set_db w {| tools := tools (db w);
                      borrow_records := borrow_records (db w) ++ [record] |})) w.

Definition create_borrow_record (quantity : Z) : M BorrowRecord :=
  try_
    (t <- now ;;
     record <- add_record 1 1 BORROWED quantity t None ;;
     log RH_LOGGER INFO
       [Lit "记录借出: 数量"; IntHole quantity; Lit "个, 时间";
        TimeHole (borrow_time record)] ;;
     ret record)
    (fun e =>
       log RH_LOGGER ERROR [Lit "创建借出记录失败: "; ExnHole e] ;;
       raise e).

(** The open borrow with the latest [borrow_time]. *)
Fixpoint latest_open_borrow (rs : list BorrowRecord) : option BorrowRecord :=
  match rs with
  | [] => None
  | r :: rs' =>
      let here :=
        String.eqb (record_action r) BORROWED &&
        match return_time r with None => true | Some _ => false end in
      match latest_open_borrow rs' with
      | Some r' =>
          if here && (borrow_time r' <=? borrow_time r) then Some r
          else Some r'
      | None => if here then Some r else None
      end
  end.

(** The borrow record [r] becomes a return record closed at [t]. *)
Definition close_record (r : BorrowRecord) (t : Z) : BorrowRecord :=
  {| record_id := record_id r; employee_id := employee_id r;
     tool_id := tool_id r; record_action := RETURNED;
     record_quantity := record_quantity r; borrow_time := borrow_time r;
     return_time := Some t; created_at := created_at r |}.

Definition update_record (r : BorrowRecord) : M unit :=
  fun w =>
    if history_fault w
    then (Raise (Py.OperationalError "borrow_records"), w)
    else
      (Ok tt,
       set_db w
         {| tools := tools (db w);
            borrow_records :=
              map (fun x => if record_id x =? record_id r then r else x)
                  (borrow_records (db w)) |}).

Definition create_return_record (quantity : Z) : M (option BorrowRecord) :=
  try_
    (borrow_record <-
       (fun w => (Ok (latest_open_borrow (borrow_records (db w))), w)) ;;
     match borrow_record with
     | Some r =>
         t <- now ;;
         let r := close_record r t in
         update_record r ;;
         log RH_LOGGER INFO
           [Lit "记录归还: 数量"; IntHole quantity; Lit "个, 时间";
            TimeHole t] ;;
         ret (Some r)
     | None =>
         t1 <- now ;;
         t2 <- now ;;
         record <- add_record 1 1 RETURNED quantity t1 (Some t2) ;;
         log RH_LOGGER WARNING
           [Lit "创建新归还记录: 数量"; IntHole quantity; Lit "个"] ;;
         ret (Some record)
     end)
    (fun e =>
       log RH_LOGGER ERROR [Lit "创建归还记录失败: "; ExnHole e] ;;
       raise e).

(* ------------------------------------------------------------------ *)
(** * Coroutines *)
(* ------------------------------------------------------------------ *)

(** The manager calls a handler awaits. *)
Inductive Call : Type :=
| SendPersonal (message : Msg) (websocket : WebSocket)
| Broadcast (message : Msg).

(** A handler between two blocks: finished, or waiting on a manager call
    with the code that runs when it resumes. *)
Inductive Coro : Type :=
| Finished
| Await (c : Call) (k : World -> World * Coro).

Definition Block : Type := World -> World * Coro.

(** A block written in [M]; an exception nobody catches ends the
    coroutine. *)
Definition block (m : M Coro) : Block :=
  fun w =>
    match m w with
    | (Ok c, w') => (w', c)
    | (Raise _, w') => (w', Finished)
    end.

Definition done : Block := block (ret Finished).

(** [await manager.send_personal_message(response, websocket); return]. *)
Definition reply (response : Msg) (websocket : WebSocket) : M Coro :=
  ret (Await (SendPersonal response websocket) done).

(** What the manager does when a call is awaited. *)
Definition perform (c : Call) (w : World) : World :=
  snd (match c with
       | SendPersonal message websocket =>
           send_personal_message message websocket w
       | Broadcast message => broadcast message w
       end).

(** A coroutine run to its end with nothing else scheduled in between. *)
Fixpoint resume (c : Coro) (w : World) : World :=
  match c with
  | Finished => w
  | Await call k =>
      match k (perform call w) with
      | (w', c') => resume c' w'
      end
  end.

Definition run (b : Block) (w : World) : World :=
  match b w with
  | (w', c) => resume c w'
  end.

(** The manager calls a coroutine awaits, in order. *)
Fixpoint calls (c : Coro) (w : World) : list Call :=
  match c with
  | Finished => []
  | Await call k =>
      call :: match k (perform call w) with
              | (w', c') => calls c' w'
              end
  end.

Definition awaited (b : Block) (w : World) : list Call :=
  match b w with
  | (w', c) => calls c w'
  end.

(* ------------------------------------------------------------------ *)
(** * The handlers ([app/websocket_server.py]) *)
(* ------------------------------------------------------------------ *)

(** The [if]/[elif]/[else] that follows every change of
    [tool.current_quantity] in the three mutating handlers. *)
Definition update_status (tool : Tool) : Tool :=
  if current_quantity tool <=? 0 then set_status tool EMPTY
  else if current_quantity tool <=? threshold tool then set_status tool LOW
  else set_status tool NORMAL.

(** A value computed by pure Python code that may raise. *)
Definition lift {A : Type} (r : result A) : M A := fun w => (r, w).

(** The [inventory_changed] notification. *)
Definition inventory_changed (old_quantity : Z) (tool : Tool) (t : Z) : Msg :=
  [("type", VStr "notification");
   ("action", VStr "inventory_changed");
   ("data", VObj [("old_quantity", VInt old_quantity);
                  ("new_quantity", VInt (current_quantity tool));
                  ("status", VStr (status tool));
                  ("timestamp", VTime t)])].

(** The code under the comment "broadcast the change of stock": the
    notification is built, with its own timestamp, and broadcast. *)
Definition announce (old_quantity : Z) (tool : Tool) : Block :=
  block (t <- now ;;
         let broadcast_msg := inventory_changed old_quantity tool t in
         ret (Await (Broadcast broadcast_msg) done)).

(** A reply with [success: False]. *)
Definition failure (act : string) (message : value) (t : Z) : Msg :=
  [("type", VStr "tool");
   ("action", VStr act);
   ("success", VBool false);
   ("message", message);
   ("timestamp", VTime t)].

(** The [response] dict of a successful [borrow_tool]. *)
Definition borrow_success (quantity : Z) (tool : Tool) (borrow_time t : Z)
  : Msg :=
  [("type", VStr "tool");
   ("action", VStr "borrow_tool");
   ("success", VBool true);
   ("data", VObj [("borrowed_quantity", VInt quantity);
                  ("remaining_quantity", VInt (current_quantity tool));
                  ("status", VStr (status tool));
                  ("borrow_time", VTime borrow_time)]);
   ("message", VStr "借出成功");
   ("timestamp", VTime t)].

(** The [response] dict of a successful [return_tool]. *)
Definition return_success (quantity : Z) (tool : Tool) (return_time t : Z)
  : Msg :=
  [("type", VStr "tool");
   ("action", VStr "return_tool");
   ("success", VBool true);
   ("data", VObj [("returned_quantity", VInt quantity);
                  ("current_quantity", VInt (current_quantity tool));
                  ("status", VStr (status tool));
                  ("return_time", VTime return_time)]);
   ("message", VStr "归还成功");
   ("timestamp", VTime t)].

(** The [response] dict of a successful [sensor_update]. *)
Definition sensor_success (current_weight : Py.num) (estimated_quantity : Z)
    (tool : Tool) (t : Z) : Msg :=
  [("type", VStr "tool");
   ("action", VStr "sensor_update");
   ("success", VBool true);
   ("data", VObj [("current_weight", VNum current_weight);
                  ("estimated_quantity", VInt estimated_quantity);
                  ("current_quantity", VInt (current_quantity tool));
                  ("status", VStr (status tool))]);
   ("message", VStr "传感器数据已更新");
   ("timestamp", VTime t)].

(** The reply of the [except Exception as e] clause of a handler. *)
Definition error_response (act : string) (prefix : string) (e : Py.exn)
    (t : Z) : Msg :=
  [("type", VStr "error");
   ("action", VStr act);
   ("message", VText [Lit prefix; ExnHole e]);
   ("timestamp", VTime t)].

Definition get_tool_status (websocket : WebSocket) : Block :=
  block
    (try_
       (tool <- query_tool ;;
        response <-
          match tool with
          | None =>
              t <- now ;;
              ret (failure "get_status" (VStr "工具不存在") t)
          | Some tool =>
              t <- now ;;
              ret [("type", VStr "tool");
                   ("action", VStr "get_status");
                   ("success", VBool true);
                   ("data",
                    VObj [("id", VInt 1);
                          ("name", VStr (name tool));
                          ("total_quantity", VInt (total_quantity tool));
                          ("current_quantity", VInt (current_quantity tool));
                          ("threshold", VInt (threshold tool));
                          ("status", VStr (status tool));
                          ("last_updated",
                           match last_updated tool with
                           | Some u => VTime u
                           | None => VNull
                           end)]);
                   ("timestamp", VTime t)]
          end ;;
        reply response websocket)
       (fun e =>
          log WS_LOGGER ERROR [Lit "获取工具状态时出错: "; ExnHole e] ;;
          t <- now ;;
          reply (error_response "get_status" "服务器错误: " e t) websocket)).

(** The [try]/[except] around the call of the collaborator in
    [borrow_tool].  The collaborator works on the session of the handler:
    the result says whether that session can still be used, which it
    cannot once a commit of it has failed, since nobody rolls it back. *)
Definition record_borrow_time (quantity : Z) : M bool :=
  try_ (create_borrow_record quantity ;; ret true)
       (fun e =>
          log WS_LOGGER ERROR [Lit "记录借出时间失败: "; ExnHole e] ;;
          ret false).

(** The [try]/[except] around the call of the collaborator in
    [return_tool]. *)
Definition record_return_time (quantity : Z) : M bool :=
  try_ (create_return_record quantity ;; ret true)
       (fun e =>
          log WS_LOGGER ERROR [Lit "记录归还时间失败: "; ExnHole e] ;;
          ret false).

(** [tool.current_quantity] after the commits: the row has expired and
    is read again through the session, which raises when the session
    waits for a rollback. *)
Definition refreshed (usable : bool) (tool : Tool) : M Tool :=
  if usable then ret tool
  else raise (Py.PendingRollbackError "borrow_records").

Definition borrow_tool (websocket : WebSocket) (message : Message) : Block :=
  block
    (try_
       (let quantity := dict_get (quantity message) 1 in
        if quantity <=? 0 then
          t <- now ;;
          reply (failure "borrow_tool" (VStr "借出数量必须大于0") t) websocket
        else
          tool <- query_tool ;;
          match tool with
          | None =>
              t <- now ;;
              reply (failure "borrow_tool" (VStr "工具不存在") t) websocket
          | Some tool =>
              if current_quantity tool <? quantity then
                t <- now ;;
                reply
                  (failure "borrow_tool"
                     (VText [Lit "库存不足，当前剩余: ";
                             IntHole (current_quantity tool); Lit "个"]) t)
                  websocket
              else
                let old_quantity := current_quantity tool in
                let tool :=
                  set_current_quantity tool (current_quantity tool - quantity) in
                let tool := update_status tool in
                t <- now ;;
                let tool := set_last_updated tool t in
                commit_tool tool ;;
                log WS_LOGGER INFO
                  [Lit "工具借出: 数量"; IntHole quantity; Lit "个, 库存: ";
                   IntHole old_quantity; Lit "->";
                   IntHole (current_quantity tool)] ;;
                usable <- record_borrow_time quantity ;;
                tool <- refreshed usable tool ;;
                borrow_time <- now ;;
                t <- now ;;
                let response := borrow_success quantity tool borrow_time t in
                ret (Await (SendPersonal response websocket)
                       (announce old_quantity tool))
          end)
       (fun e =>
          log WS_LOGGER ERROR [Lit "借出工具时出错: "; ExnHole e] ;;
          t <- now ;;
          reply (error_response "borrow_tool" "借出失败: " e t) websocket)).

Definition return_tool (websocket : WebSocket) (message : Message) : Block :=
  block
    (try_
       (let quantity := dict_get (quantity message) 1 in
        if quantity <=? 0 then
          t <- now ;;
          reply (failure "return_tool" (VStr "归还数量必须大于0") t) websocket
        else
          tool <- query_tool ;;
          match tool with
          | None =>
              t <- now ;;
              reply (failure "return_tool" (VStr "工具不存在") t) websocket
          | Some tool =>
              if current_quantity tool + quantity >? total_quantity tool then
                t <- now ;;
                reply
                  (failure "return_tool"
                     (VText [Lit "归还后超过总量，当前: ";
                             IntHole (current_quantity tool); Lit ", 总量: ";
                             IntHole (total_quantity tool)]) t)
                  websocket
              else
                let old_quantity := current_quantity tool in
                let tool :=
                  set_current_quantity tool (current_quantity tool + quantity) in
                let tool := update_status tool in
                t <- now ;;
                let tool := set_last_updated tool t in
                commit_tool tool ;;
                log WS_LOGGER INFO
                  [Lit "工具归还: 数量"; IntHole quantity; Lit "个, 库存: ";
                   IntHole old_quantity; Lit "->";
                   IntHole (current_quantity tool)] ;;
                usable <- record_return_time quantity ;;
                tool <- refreshed usable tool ;;
                return_time <- now ;;
                t <- now ;;
                let response := return_success quantity tool return_time t in
                ret (Await (SendPersonal response websocket)
                       (announce old_quantity tool))
          end)
       (fun e =>
          log WS_LOGGER ERROR [Lit "归还工具时出错: "; ExnHole e] ;;
          t <- now ;;
          reply (error_response "return_tool" "归还失败: " e t) websocket)).

(** The guard against a division by zero: a unit weight that is not
    positive is replaced by the default. *)
Definition heal_unit_weight (tool : Tool) : Tool :=
  if PrimFloat.leb (unit_weight tool) 0%float
  then set_unit_weight tool 100%float
  else tool.

(** The two range checks that follow the assignment of the estimate. *)
Definition limit_quantity (tool : Tool) : Tool :=
  if current_quantity tool <? 0 then set_current_quantity tool 0
  else if current_quantity tool >? total_quantity tool
       then set_current_quantity tool (total_quantity tool)
       else tool.

Definition sensor_update (websocket : WebSocket) (message : Message) : Block :=
  block
    (try_
       (match current_weight message with
        | None =>
            t <- now ;;
            reply (failure "sensor_update" (VStr "缺少current_weight参数") t)
                  websocket
        | Some current_weight =>
            tool <- query_tool ;;
            match tool with
            | None =>
                t <- now ;;
                reply (failure "sensor_update" (VStr "工具不存在") t) websocket
            | Some tool =>
                let tool := heal_unit_weight tool in
                quotient <- lift (Py.truediv current_weight (unit_weight tool)) ;;
                estimated_quantity <- lift (Py.int_of_float quotient) ;;
                let old_quantity := current_quantity tool in
                let tool := set_current_quantity tool estimated_quantity in
                let tool := limit_quantity tool in
                let tool := update_status tool in
                t <- now ;;
                let tool := set_last_updated tool t in
                commit_tool tool ;;
                log WS_LOGGER INFO
                  [Lit "传感器更新: 重量"; NumHole current_weight;
                   Lit "g -> 数量"; IntHole estimated_quantity;
                   Lit ", 库存: "; IntHole old_quantity; Lit "->";
                   IntHole (current_quantity tool)] ;;
                t <- now ;;
                let response :=
                  sensor_success current_weight estimated_quantity tool t in
                ret (Await (SendPersonal response websocket)
                       (fun w =>
                          if negb (old_quantity =? current_quantity tool)
                          then announce old_quantity tool w
                          else done w))
            end
        end)
       (fun e =>
          log WS_LOGGER ERROR [Lit "传感器更新时出错: "; ExnHole e] ;;
          t <- now ;;
          reply (error_response "sensor_update" "传感器更新失败: " e t)
                websocket)).

Definition process_websocket_message (websocket : WebSocket)
    (message : Message) : Block :=
  let action := dict_get (action message) "unknown" in
  if String.eqb action "get_tool_status" then get_tool_status websocket
  else if String.eqb action "borrow_tool" then borrow_tool websocket message
  else if String.eqb action "return_tool" then return_tool websocket message
  else if String.eqb action "sensor_update"
       then sensor_update websocket message
  else if String.eqb action "ping" then
    block (t <- now ;;
           reply [("type", VStr "system");
                  ("action", VStr "pong");
                  ("timestamp", VTime t)] websocket)
  else
    block (t <- now ;;
           reply [("type", VStr "error");
                  ("action", VStr action);
                  ("message", VText [Lit "未知的操作: "; StrHole action]);
                  ("timestamp", VTime t)] websocket).

(** The text frames the loop of [handle_websocket_connection] answers
    and reads on after: text that [json.loads] rejects, or a decoded
    object.  Text that decodes to something else ends the loop
    ([Received], below). *)
Inductive Frame : Type :=
| Malformed (error : string)
| Json (message : Message).

Definition keys_of (message : Message) : list string :=
  (match action message with Some _ => ["action"] | None => [] end) ++
  (match quantity message with Some _ => ["quantity"] | None => [] end) ++
  (match current_weight message with
   | Some _ => ["current_weight"]
   | None => []
   end).

(** One turn of the [while True] loop of [handle_websocket_connection]. *)
Definition handle_frame (websocket : WebSocket) (frame : Frame) : Block :=
  match frame with
  | Json message =>
      fun w =>
        process_websocket_message websocket message
          (snd (log WS_LOGGER INFO
                  [Lit "收到WebSocket消息: "; DictHole (keys_of message)] w))
  | Malformed error =>
      block (t <- now ;;
             reply [("type", VStr "error");
                    ("message", VText [Lit "消息格式错误: "; StrHole error]);
                    ("timestamp", VTime t)] websocket)
  end.

(* ------------------------------------------------------------------ *)
(** * The event loop: handlers of several connections interleaved *)
(* ------------------------------------------------------------------ *)

(** The server between two blocks: the world and, for each connection
    whose handler waits on a call, the block that resumes it. *)
Record System : Type := {
  world : World;
  suspended : list (WebSocket * Block)
}.

(** A block has ended: the awaited call is started at once and the
    coroutine is parked, or the handler is over. *)
Definition park (websocket : WebSocket) (r : World * Coro)
    (others : list (WebSocket * Block)) : System :=
  match r with
  | (w, Finished) => {| world := w; suspended := others |}
  | (w, Await call k) =>
      {| world := perform call w; suspended := (websocket, k) :: others |}
  end.

Definition idle (websocket : WebSocket) (s : System) : Prop :=
  forall k, ~ In (websocket, k) (suspended s).

(** The loop runs one block at a time; between two blocks anything else
    may happen. *)
Inductive step : System -> System -> Prop :=
| step_receive (s : System) (websocket : WebSocket) (frame : Frame) :
    In websocket (active_connections (world s)) ->
    idle websocket s ->
    step s (park websocket (handle_frame websocket frame (world s))
              (suspended s))
| step_resume (s : System) (websocket : WebSocket) (k : Block)
    (before after : list (WebSocket * Block)) :
    suspended s = before ++ (websocket, k) :: after ->
    step s (park websocket (k (world s)) (before ++ after))
| step_connect (s : System) (websocket : WebSocket) :
    step s {| world := snd (connect websocket (world s));
              suspended := suspended s |}
| step_disconnect (s : System) (websocket : WebSocket) :
    idle websocket s ->
    step s {| world := snd (disconnect websocket (world s));
              suspended := suspended s |}
| step_environment (s : System) (w : World) :
    db w = db (world s) ->
    active_connections w = active_connections (world s) ->
    trace w = trace (world s) ->
    step s {| world := w; suspended := suspended s |}.

Inductive steps : System -> System -> Prop :=
| steps_refl (s : System) : steps s s
| steps_step (s s' s'' : System) : steps s s' -> step s' s'' -> steps s s''.

(** Code that leaves the database alone, now and whenever it resumes. *)
Inductive inert_coro : Coro -> Prop :=
| inert_finished : inert_coro Finished
| inert_await (c : Call) (k : Block) :
    (forall w, db (fst (k w)) = db w) ->
    (forall w, inert_coro (snd (k w))) ->
    inert_coro (Await c k).

Definition inert (k : Block) : Prop :=
  forall w, db (fst (k w)) = db w /\ inert_coro (snd (k w)).

(* ------------------------------------------------------------------ *)
(** * Vocabulary of the properties *)
(* ------------------------------------------------------------------ *)

Definition in_range (tool : Tool) : Prop :=
  0 <= current_quantity tool <= total_quantity tool.

(** The status the data model prescribes for a quantity and a threshold. *)
Definition expected_status (current limit : Z) : string :=
  if current =? 0 then EMPTY
  else if (0 <? current) && (current <=? limit) then LOW
  else NORMAL.

Definition consistent (tool : Tool) : Prop :=
  status tool = expected_status (current_quantity tool) (threshold tool).

(** [x] brought into [[0, hi]]. *)
Definition clamp (hi x : Z) : Z := Z.max 0 (Z.min hi x).

(** The row a mutating handler commits at instant [t] when it sets the
    quantity of [tool] to [q]. *)
Definition committed (tool : Tool) (q t : Z) : Tool :=
  set_last_updated (update_status (set_current_quantity tool q)) t.

(** The worlds a server passes through: whole handler runs, one after
    the other, and in between whatever does not write the database. *)
Inductive reachable_from (w0 : World) : World -> Prop :=
| reach_start : reachable_from w0 w0
| reach_frame (w : World) (websocket : WebSocket) (frame : Frame) :
    reachable_from w0 w ->
    reachable_from w0 (run (handle_frame websocket frame) w)
| reach_environment (w w' : World) :
    reachable_from w0 w -> db w' = db w -> reachable_from w0 w'.

(** Borrow and return requests. *)
Inductive Operation : Type :=
| Borrow (quantity : Z)
| GiveBack (quantity : Z).

Definition amount (op : Operation) : Z :=
  match op with
  | Borrow q => q
  | GiveBack q => q
  end.

Definition request (op : Operation) : Message :=
  match op with
  | Borrow q =>
      {| action := Some "borrow_tool"; quantity := Some q;
         current_weight := None |}
  | GiveBack q =>
      {| action := Some "return_tool"; quantity := Some q;
         current_weight := None |}
  end.

(** The worlds after each operation of a sequence. *)
Fixpoint states (ops : list (WebSocket * Operation)) (w : World)
  : list World :=
  match ops with
  | [] => []
  | (websocket, op) :: rest =>
      let w' := run (handle_frame websocket (Json (request op))) w in
      w' :: states rest w'
  end.

(** The messages put on sockets by a stretch of trace. *)
Fixpoint sent (events : list Event) : list (WebSocket * Msg) :=
  match events with
  | [] => []
  | SendText websocket message :: rest => (websocket, message) :: sent rest
  | Log _ _ _ :: rest => sent rest
  end.

(** The records written by the logger of [app/record_handler.py]: every
    call of [create_borrow_record] or [create_return_record] leaves
    exactly one. *)
Fixpoint history_calls (events : list Event) : list Event :=
  match events with
  | [] => []
  | Log logger l t :: rest =>
      if String.eqb logger RH_LOGGER
      then Log logger l t :: history_calls rest
      else history_calls rest
  | SendText _ _ :: rest => history_calls rest
  end.

Definition is_broadcast (c : Call) : bool :=
  match c with
  | Broadcast _ => true
  | SendPersonal _ _ => false
  end.

Definition broadcasts (cs : list Call) : list Call := filter is_broadcast cs.

(** What one call of [send_text] inside the manager leaves in the trace. *)
Definition send_events (logged : string) (broken : list WebSocket)
    (websocket : WebSocket) (message : Msg) : list Event :=
  SendText websocket message ::
  (if existsb (Nat.eqb websocket) broken
   then [Log WS_LOGGER ERROR [Lit logged; ExnHole Py.ConnectionClosed]]
   else []).

Definition personal_events (broken : list WebSocket) (websocket : WebSocket)
    (message : Msg) : list Event :=
  send_events "发送消息失败: " broken websocket message.

Definition broadcast_events (broken connections : list WebSocket)
    (message : Msg) : list Event :=
  flat_map (fun c => send_events "广播消息失败: " broken c message)
           connections.

(** Whether every record of the history logger comes after every
    [send_text] of the stretch. *)
Fixpoint history_last (events : list Event) : bool :=
  match events with
  | [] => true
  | e :: rest =>
      match history_calls [e] with
      | [] => history_last rest
      | _ => match sent rest with [] => history_last rest | _ => false end
      end
  end.

(** The trace a handler adds when it runs alone from [w]. *)
Definition events_of (b : Block) (w : World) : list Event :=
  skipn (List.length (trace w)) (trace (run b w)).

(** Whether the first message of a handler is a reply with
    [success: True]. *)
Definition succeeded (b : Block) (w : World) : bool :=
  match awaited b w with
  | SendPersonal response _ :: _ =>
      match field "success" response with
      | Some (VBool true) => true
      | _ => false
      end
  | _ => false
  end.

(** Whether the stored quantity differs between two worlds. *)
Definition quantity_changed (w w' : World) : bool :=
  match tools (db w), tools (db w') with
  | Some tool, Some tool' =>
      negb (current_quantity tool =? current_quantity tool')
  | _, _ => false
  end.

(** The three mutating operations. *)
Inductive Mutation : Type := ByBorrow | ByReturn | BySensor.

Definition handler (kind : Mutation) : WebSocket -> Message -> Block :=
  match kind with
  | ByBorrow => borrow_tool
  | ByReturn => return_tool
  | BySensor => sensor_update
  end.

(** The estimate of [sensor_update]:
    [int(current_weight / tool.unit_weight)] behind the guard on the unit
    weight. *)
Definition estimate (weight : Py.num) (tool : Tool) : result Z :=
  match Py.truediv weight (unit_weight (heal_unit_weight tool)) with
  | Ok quotient => Py.int_of_float quotient
  | Raise e => Raise e
  end.

(** Running the collaborator moves the clock, extends the trace with
    records of loggers, one of them its own, and may add a history
    record; it touches nothing else. *)
Record history_only (w w' : World) : Prop := {
  ho_tools : tools (db w') = tools (db w);
  ho_connections : active_connections w' = active_connections w;
  ho_broken : broken_sockets w' = broken_sockets w;
  ho_fault : history_fault w' = history_fault w;
  ho_trace : exists events,
      trace w' = trace w ++ events /\ sent events = [] /\
      exists d, history_calls events = [d]
}.

(** The rows a handler can commit over [tool]. *)
Inductive commits (tool : Tool) : Tool -> Prop :=
| commits_borrow (q t : Z) :
    0 < q <= current_quantity tool ->
    commits tool (committed tool (current_quantity tool - q) t)
| commits_return (q t : Z) :
    0 < q -> current_quantity tool + q <= total_quantity tool ->
    commits tool (committed tool (current_quantity tool + q) t)
| commits_sensor (n t : Z) :
    commits tool
      (set_last_updated
         (update_status
            (limit_quantity
               (set_current_quantity (heal_unit_weight tool) n))) t).

(** What the collaborator of a borrow leaves in the trace: its own
    record and, when it fails, the record of the handler that catches. *)
Definition borrow_history_events (fault : bool) (quantity t : Z)
  : list Event :=
  if fault
  then [Log RH_LOGGER ERROR
          [Lit "创建借出记录失败: ";
           ExnHole (Py.OperationalError "borrow_records")];
        Log WS_LOGGER ERROR
          [Lit "记录借出时间失败: ";
           ExnHole (Py.OperationalError "borrow_records")]]
  else [Log RH_LOGGER INFO
          [Lit "记录借出: 数量"; IntHole quantity; Lit "个, 时间"; TimeHole t]].

(** Calls of [datetime.now()] made by the collaborator of a borrow. *)
Definition borrow_history_ticks (fault : bool) : Z :=
  if fault then 1 else 2.

(** A world to run examples in: the default row, three connections of
    which one is dead. *)
Definition busy_world : World :=
  {| db := {| tools := Some (default_tool 0); borrow_records := [] |};
     clock := 1;
     active_connections := [0; 1; 2]%nat;
     broken_sockets := [2%nat];
     history_fault := false;
     trace := [] |}.

(** [message] with its [quantity] field set. *)
Definition with_quantity (message : Message) (q : Z) : Message :=
  {| action := action message; quantity := Some q;
     current_weight := current_weight message |}.

(** The row exists, has the given total and its quantity is in range. *)
Definition well_stocked (total : Z) (w : World) : Prop :=
  exists tool,
    tools (db w) = Some tool /\ total_quantity tool = total /\ in_range tool.

(** The row exists, is in range and carries the status of its quantity. *)
Definition sound (w : World) : Prop :=
  exists tool, tools (db w) = Some tool /\ in_range tool /\ consistent tool.

(** A field of the [data] object of a reply. *)
Definition data_field (k : string) (reply : Msg) : option value :=
  match field "data" reply with
  | Some (VObj fields) => field k fields
  | _ => None
  end.

(** The first message a handler sends. *)
Definition first_reply (b : Block) (w : World) : option Msg :=
  match awaited b w with
  | SendPersonal reply _ :: _ => Some reply
  | _ => None
  end.

(** The quantity stored, if the row exists. *)
Definition stock (w : World) : option Z :=
  option_map current_quantity (tools (db w)).

(** A [sensor_update] message carrying a weight. *)
Definition weighing (weight : Py.num) : Message :=
  {| action := Some "sensor_update"; quantity := None;
     current_weight := Some weight |}.

(** [busy_world] with another quantity in stock. *)
Definition stocked (q : Z) : World :=
  set_db busy_world
    {| tools := Some (update_status (set_current_quantity (default_tool 0) q));
       borrow_records := [] |}.

(** The law of the change notification, for the run of a handler [b]
    on behalf of [websocket]: the handler awaits one personal reply to
    [websocket] and then one broadcast if its run changed the stored
    quantity, none otherwise; a notification is an [inventory_changed]
    message with the quantity before and after; on the wire the reply
    goes to [websocket] and each notification to every connection
    registered when the handler runs. *)
Definition change_law (websocket : WebSocket) (b : Block) (w : World)
  : Prop :=
  exists reply notes,
    awaited b w = SendPersonal reply websocket :: map Broadcast notes /\
    List.length notes =
      (if quantity_changed w (run b w) then 1 else 0)%nat /\
    Forall (fun note =>
              field "type" note = Some (VStr "notification") /\
              field "action" note = Some (VStr "inventory_changed") /\
              option_map VInt (stock w) = data_field "old_quantity" note /\
              option_map VInt (stock (run b w)) =
                data_field "new_quantity" note) notes /\
    sent (events_of b w) =
      (websocket, reply) ::
      flat_map (fun note => map (fun c => (c, note)) (active_connections w))
               notes /\
    (In websocket (active_connections w) ->
     Forall (fun note => In (websocket, note) (sent (events_of b w))) notes).

(** What a borrow leaves in the history table: nothing when the table
    refuses the write, otherwise one more open borrow record of the
    quantity. *)
Definition borrow_recorded (fault : bool) (quantity : Z)
    (before after : list BorrowRecord) : Prop :=
  if fault then after = before
  else exists record,
      after = before ++ [record] /\
      record_quantity record = quantity /\
      record_action record = BORROWED /\
      return_time record = None.

(** Every parked coroutine is inert. *)
Definition parked_inert (s : System) : Prop :=
  forall websocket k, In (websocket, k) (suspended s) -> inert k.

(** The server at rest in a world. *)
Definition at_rest (w : World) : System :=
  {| world := w; suspended := [] |}.

(* ------------------------------------------------------------------ *)
(** * The connection loop and the queries of the history *)
(* ------------------------------------------------------------------ *)

(** The [except WebSocketDisconnect] clause of
    [handle_websocket_connection]. *)
Definition on_disconnect (websocket : WebSocket) : M unit :=
  log WS_LOGGER INFO [Lit "WebSocket连接断开"] ;;
  disconnect websocket.

(** The [except Exception as e] clause of
    [handle_websocket_connection]. *)
Definition on_error (websocket : WebSocket) (e : Py.exn) : M unit :=
  log WS_LOGGER ERROR [Lit "WebSocket处理错误: "; ExnHole e] ;;
  disconnect websocket.

(** The turns of the [while True] loop for the frames a client sends,
    each handled to its end before the next is read. *)
Fixpoint serve_frames (websocket : WebSocket) (frames : list Frame)
    (w : World) : World :=
  match frames with
  | [] => w
  | frame :: rest =>
      serve_frames websocket rest (run (handle_frame websocket frame) w)
  end.

(** [handle_websocket_connection] for a client that connects, sends
    [frames] and goes away. *)
Definition handle_websocket_connection (websocket : WebSocket)
    (frames : list Frame) (w : World) : World :=
  snd (on_disconnect websocket
         (serve_frames websocket frames (snd (connect websocket w)))).

(** How many times a connection is in the list of the manager. *)
Definition registrations (websocket : WebSocket) (l : list WebSocket) : nat :=
  count_occ Nat.eq_dec l websocket.

(** The records of level [ERROR] in a stretch of trace. *)
Fixpoint error_logs (events : list Event) : list Event :=
  match events with
  | [] => []
  | Log logger ERROR t :: rest => Log logger ERROR t :: error_logs rest
  | _ :: rest => error_logs rest
  end.

(** The trace added between two worlds. *)
Definition events_between (w w' : World) : list Event :=
  skipn (List.length (trace w)) (trace w').

(** From [w] to [w'] nothing happened but talk: the trace grew and the
    clock may have moved. *)
Definition only_talk (w w' : World) : Prop :=
  db w' = db w /\
  active_connections w' = active_connections w /\
  broken_sockets w' = broken_sockets w /\
  history_fault w' = history_fault w /\
  clock w <= clock w' /\
  exists events, trace w' = trace w ++ events.

(** Code that only talks, now and whenever it resumes. *)
Inductive talkative : Coro -> Prop :=
| talkative_finished : talkative Finished
| talkative_await (c : Call) (k : Block) :
    (forall w, only_talk w (fst (k w))) ->
    (forall w, talkative (snd (k w))) ->
    talkative (Await c k).

(** The first block of a frame leaves the registry and the sockets as
    they are and extends the trace with log records. *)
Definition keeps_registry (w w' : World) : Prop :=
  active_connections w' = active_connections w /\
  broken_sockets w' = broken_sockets w /\
  exists events, trace w' = trace w ++ events /\ sent events = [].

(** The actions [process_websocket_message] knows. *)
Definition known_actions : list string :=
  ["get_tool_status"; "borrow_tool"; "return_tool"; "sensor_update"; "ping"].

(** The replies with [success: True] among the frames of a sequence of
    operations, run one after the other. *)
Fixpoint outcomes (ops : list (WebSocket * Operation)) (w : World)
  : list bool :=
  match ops with
  | [] => []
  | (websocket, op) :: rest =>
      let b := handle_frame websocket (Json (request op)) in
      succeeded b w :: outcomes rest (run b w)
  end.

(** The world after a sequence of operations. *)
Fixpoint after_all (ops : list (WebSocket * Operation)) (w : World)
  : World :=
  match ops with
  | [] => w
  | (websocket, op) :: rest =>
      after_all rest (run (handle_frame websocket (Json (request op))) w)
  end.

(** One unit asked for by each of the connections, in turn. *)
Definition one_each (sockets : list WebSocket)
  : list (WebSocket * Operation) :=
  map (fun websocket => (websocket, Borrow 1)) sockets.

(** What the handlers never change in a row: its name, its total and its
    threshold; the unit weight is kept or, if it was not positive,
    replaced by the default. *)
Definition same_settings (tool tool' : Tool) : Prop :=
  name tool' = name tool /\
  total_quantity tool' = total_quantity tool /\
  threshold tool' = threshold tool /\
  (unit_weight tool' = unit_weight tool \/
   (PrimFloat.leb (unit_weight tool) 0%float = true /\
    unit_weight tool' = 100%float)).

(* ------------------------------------------------------------------ *)
(** * The history queries ([app/record_handler.py]) *)
(* ------------------------------------------------------------------ *)

(** [action == "借出"] and [return_time IS NULL]. *)
Definition is_open (r : BorrowRecord) : bool :=
  String.eqb (record_action r) BORROWED &&
  match return_time r with None => true | Some _ => false end.

(** [ORDER BY borrow_time DESC]; rows of equal time keep the order of
    the table. *)
Fixpoint insert_desc (r : BorrowRecord) (rs : list BorrowRecord)
  : list BorrowRecord :=
  match rs with
  | [] => [r]
  | x :: rest =>
      if borrow_time x <=? borrow_time r then r :: x :: rest
      else x :: insert_desc r rest
  end.

Definition newest_first (rs : list BorrowRecord) : list BorrowRecord :=
  fold_right insert_desc [] rs.

(** [OFFSET skip] and [LIMIT limit] as the SQLite engine of
    [database.py] reads them: a negative offset is no offset, a negative
    limit is no limit. *)
Definition offset (skip : Z) (rs : list BorrowRecord) : list BorrowRecord :=
  skipn (Z.to_nat skip) rs.

Definition at_most (limit : Z) (rs : list BorrowRecord)
  : list BorrowRecord :=
  if limit <? 0 then rs else firstn (Z.to_nat limit) rs.

Definition get_all_records (skip limit : Z) : M (list BorrowRecord) :=
  fun w =>
    (Ok (at_most limit (offset skip (newest_first (borrow_records (db w))))),
     w).

Definition get_current_borrow : M (option BorrowRecord) :=
  fun w => (Ok (latest_open_borrow (borrow_records (db w))), w).

(** [query.filter(...).count()]. *)
Definition count (p : BorrowRecord -> bool) (rs : list BorrowRecord) : Z :=
  Z.of_nat (List.length (filter p rs)).

Section Calendar.
(** [datetime.combine(t.date(), datetime.min.time())]: the midnight
    that starts the day of the instant [t]. *)
Variable day_start : Z -> Z.

Definition get_statistics : M Msg :=
  t <- now ;;
  let today_start := day_start t in
  fun w =>
    let rs := borrow_records (db w) in
    let today_borrows :=
      count (fun r => String.eqb (record_action r) BORROWED &&
                      (today_start <=? borrow_time r)) rs in
    let today_returns :=
      count (fun r => String.eqb (record_action r) RETURNED &&
                      (today_start <=? borrow_time r)) rs in
    let total_borrows :=
      count (fun r => String.eqb (record_action r) BORROWED) rs in
    let total_returns :=
      count (fun r => String.eqb (record_action r) RETURNED) rs in
    (Ok [("today_borrows", VInt today_borrows);
         ("today_returns", VInt today_returns);
         ("total_borrows", VInt total_borrows);
         ("total_returns", VInt total_returns)],
     w).
End Calendar.

(** The rows of the history table. *)
Definition history (w : World) : list BorrowRecord := borrow_records (db w).

(** The open borrows of a table. *)
Definition open_borrows (rs : list BorrowRecord) : list BorrowRecord :=
  filter is_open rs.

(** A row is either a borrow that has not come back or a return with
    its time. *)
Definition settled (r : BorrowRecord) : Prop :=
  (record_action r = BORROWED /\ return_time r = None) \/
  (record_action r = RETURNED /\ return_time r <> None).

(** A table whose keys are distinct and whose rows are all settled. *)
Definition tidy (rs : list BorrowRecord) : Prop :=
  NoDup (map record_id rs) /\ Forall settled rs.

(** [record] in place of the row with its key. *)
Definition replaced (record : BorrowRecord) (rs : list BorrowRecord)
  : list BorrowRecord :=
  map (fun x => if record_id x =? record_id record then record else x) rs.

(** What one call of the collaborator can do to the table. *)
Inductive history_moves (rs : list BorrowRecord)
  : list BorrowRecord -> Prop :=
| history_same : history_moves rs rs
| history_opened (record : BorrowRecord) :
    record_id record = next_record_id rs ->
    record_action record = BORROWED ->
    return_time record = None ->
    history_moves rs (rs ++ [record])
| history_closed (r : BorrowRecord) (t : Z) :
    latest_open_borrow rs = Some r ->
    history_moves rs (replaced (close_record r t) rs)
| history_unmatched (record : BorrowRecord) (t : Z) :
    latest_open_borrow rs = None ->
    record_id record = next_record_id rs ->
    record_action record = RETURNED ->
    return_time record = Some t ->
    history_moves rs (rs ++ [record]).

(** Descending by [borrow_time]. *)
Fixpoint descending (rs : list BorrowRecord) : Prop :=
  match rs with
  | [] => True
  | r :: rest =>
      (forall x, In x rest -> borrow_time x <= borrow_time r) /\
      descending rest
  end.

(** A table to run examples in: an open borrow of three pieces, a closed
    one, and a later open borrow of one piece. *)
Definition sample_history : list BorrowRecord :=
  [ {| record_id := 1; employee_id := 1; tool_id := 1;
       record_action := BORROWED; record_quantity := 3;
       borrow_time := 10; return_time := None; created_at := 11 |};
    {| record_id := 2; employee_id := 1; tool_id := 1;
       record_action := RETURNED; record_quantity := 2;
       borrow_time := 20; return_time := Some 25; created_at := 21 |};
    {| record_id := 3; employee_id := 1; tool_id := 1;
       record_action := BORROWED; record_quantity := 1;
       borrow_time := 30; return_time := None; created_at := 31 |} ].

(** [busy_world] with a history. *)
Definition recorded (rs : list BorrowRecord) : World :=
  set_db busy_world {| tools := tools (db busy_world); borrow_records := rs |}.

(** [w] with a history table that refuses writes. *)
Definition refusing (w : World) : World :=
  {| db := db w; clock := clock w; active_connections := active_connections w;
     broken_sockets := broken_sockets w; history_fault := true;
     trace := trace w |}.

(* ------------------------------------------------------------------ *)
(** * Text that decodes to no object *)
(* ------------------------------------------------------------------ *)

(** What [json.loads] returns besides objects. *)
Inductive NonObject : Type :=
| JNull
| JBool (b : bool)
| JInt (z : Z)
| JFloat (x : float)
| JStr (s : string)
| JList (shown : string).   (* the list as [str] prints it *)

(** [type(value).__name__]. *)
Definition type_name (value : NonObject) : string :=
  match value with
  | JNull => "NoneType"
  | JBool _ => "bool"
  | JInt _ => "int"
  | JFloat _ => "float"
  | JStr _ => "str"
  | JList _ => "list"
  end.

(** The value inside an f-string. *)
Definition shown (value : NonObject) : text :=
  match value with
  | JNull => [Lit "None"]
  | JBool b => [Lit (if b then "True" else "False")]
  | JInt z => [IntHole z]
  | JFloat x => [NumHole (Py.Float x)]
  | JStr s => [StrHole s]
  | JList s => [StrHole s]
  end.



(* ------------------------------------------------------------------ *)
(** * The manager *)
(* ------------------------------------------------------------------ *)

Lemma set_trace_same (w : World) : set_trace w (trace w) = w.
Proof. destruct w; reflexivity. Qed.

Lemma send_personal_message_run (message : Msg) (websocket : WebSocket)
    (w : World) :
  send_personal_message message websocket w =
  (Ok tt,
   set_trace w
     (trace w ++ personal_events (broken_sockets w) websocket message)).
Proof.
  unfold send_personal_message, try_, send_text, bind, log, emit,
    personal_events, send_events.
  cbn. destruct (existsb _ _); cbn; [|reflexivity].
  unfold set_trace; cbn. now rewrite <- app_assoc.
Qed.

Lemma broadcast_loop_run (connections : list WebSocket) (message : Msg) :
  forall w,
    broadcast_loop connections message w =
    (Ok tt,
     set_trace w
       (trace w ++ broadcast_events (broken_sockets w) connections message)).
Proof.
  induction connections as [|c rest IH]; intro w; cbn.
  - now rewrite app_nil_r, set_trace_same.
  - unfold bind, try_, send_text, bind, log, emit. cbn.
    destruct (existsb (Nat.eqb c) (broken_sockets w)); cbn; rewrite IH; cbn;
      unfold set_trace; cbn; now rewrite <- !app_assoc.
Qed.

Lemma perform_send (message : Msg) (websocket : WebSocket) (w : World) :
  perform (SendPersonal message websocket) w =
  set_trace w
    (trace w ++ personal_events (broken_sockets w) websocket message).
Proof. unfold perform. now rewrite send_personal_message_run. Qed.

Lemma perform_broadcast (message : Msg) (w : World) :
  perform (Broadcast message) w =
  set_trace w
    (trace w ++
     broadcast_events (broken_sockets w) (active_connections w) message).
Proof. unfold perform, broadcast. now rewrite broadcast_loop_run. Qed.

Lemma perform_db (c : Call) (w : World) : db (perform c w) = db w.
Proof.
  destruct c; [rewrite perform_send | rewrite perform_broadcast]; reflexivity.
Qed.

Lemma sent_app (a b : list Event) : sent (a ++ b) = sent a ++ sent b.
Proof.
  induction a as [|[]]; cbn; [reflexivity | assumption | now f_equal].
Qed.

Lemma history_calls_app (a b : list Event) :
  history_calls (a ++ b) = history_calls a ++ history_calls b.
Proof.
  induction a as [|[logger l t|]]; cbn; [reflexivity | | assumption].
  destruct (String.eqb logger RH_LOGGER); cbn; now rewrite IHa.
Qed.

Lemma sent_personal (broken : list WebSocket) (websocket : WebSocket)
    (message : Msg) :
  sent (personal_events broken websocket message) = [(websocket, message)].
Proof.
  unfold personal_events, send_events. now destruct (existsb _ _).
Qed.

Lemma history_personal (broken : list WebSocket) (websocket : WebSocket)
    (message : Msg) :
  history_calls (personal_events broken websocket message) = [].
Proof.
  unfold personal_events, send_events. now destruct (existsb _ _).
Qed.

Lemma broadcast_events_cons (broken : list WebSocket) (c : WebSocket)
    (rest : list WebSocket) (message : Msg) :
  broadcast_events broken (c :: rest) message =
  send_events "广播消息失败: " broken c message ++
  broadcast_events broken rest message.
Proof. reflexivity. Qed.

Lemma sent_broadcast (broken connections : list WebSocket) (message : Msg) :
  sent (broadcast_events broken connections message) =
  map (fun c => (c, message)) connections.
Proof.
  induction connections as [|c rest IH]; [reflexivity|].
  rewrite broadcast_events_cons, sent_app, IH.
  unfold send_events. now destruct (existsb _ _).
Qed.

Lemma history_broadcast (broken connections : list WebSocket)
    (message : Msg) :
  history_calls (broadcast_events broken connections message) = [].
Proof.
  induction connections as [|c rest IH]; [reflexivity|].
  rewrite broadcast_events_cons, history_calls_app, IH.
  unfold send_events. now destruct (existsb _ _).
Qed.

Lemma events_of_app (b : Block) (w : World) (events : list Event) :
  trace (run b w) = trace w ++ events -> events_of b w = events.
Proof.
  intro H. unfold events_of. rewrite H.
  rewrite skipn_app, skipn_all, Nat.sub_diag. reflexivity.
Qed.

(* ------------------------------------------------------------------ *)
(** * The collaborator *)
(* ------------------------------------------------------------------ *)

Lemma record_borrow_time_run (quantity : Z) (w : World) :
  exists w',
    record_borrow_time quantity w = (Ok (negb (history_fault w)), w') /\
    tools (db w') = tools (db w) /\
    active_connections w' = active_connections w /\
    broken_sockets w' = broken_sockets w /\
    clock w' = clock w + borrow_history_ticks (history_fault w) /\
    trace w' =
      trace w ++ borrow_history_events (history_fault w) quantity (clock w) /\
    borrow_recorded (history_fault w) quantity
      (borrow_records (db w)) (borrow_records (db w')).
Proof.
  unfold record_borrow_time, create_borrow_record, add_record, try_, bind,
    ret, raise, now, log, emit, borrow_recorded.
  cbn. destruct (history_fault w) eqn:F; cbn.
  - eexists; split; [reflexivity|]. cbn. rewrite <- app_assoc.
    repeat split; reflexivity.
  - eexists; split; [reflexivity|]. cbn.
    repeat split; try reflexivity; try lia.
    eexists. split; [reflexivity|]. now repeat split.
Qed.

Lemma record_return_time_run (quantity : Z) (w : World) :
  exists w',
    record_return_time quantity w = (Ok (negb (history_fault w)), w') /\
    history_only w w'.
Proof.
  unfold record_return_time, create_return_record, add_record, update_record,
    try_, bind, ret, raise, now, log, emit.
  cbn.
  destruct (latest_open_borrow (borrow_records (db w))) as [r|]; cbn;
    destruct (history_fault w) eqn:F; cbn;
    (eexists; split; [reflexivity|]);
    (constructor; cbn; try reflexivity; try assumption);
    eexists; (split; [try rewrite <- app_assoc; reflexivity|]);
    (split; [reflexivity|]); cbn; eexists; reflexivity.
Qed.

(* ------------------------------------------------------------------ *)
(** * The first block of each handler, branch by branch *)
(* ------------------------------------------------------------------ *)

Ltac code :=
  unfold block, try_, bind, ret, reply, now, log, emit, query_tool,
    commit_tool, lift; cbn.

Lemma current_quantity_update_status (tool : Tool) :
  current_quantity (update_status tool) = current_quantity tool.
Proof.
  unfold update_status.
  destruct (_ <=? 0); [reflexivity|]. now destruct (_ <=? _).
Qed.

Section Borrow.
Variables (websocket : WebSocket) (message : Message) (w : World).
Let q := dict_get (quantity message) 1.

Lemma borrow_tool_invalid :
  q <= 0 ->
  borrow_tool websocket message w =
  (set_clock w (clock w + 1),
   Await (SendPersonal
            (failure "borrow_tool" (VStr "借出数量必须大于0") (clock w))
            websocket) done).
Proof.
  intro H. unfold borrow_tool. fold q.
  destruct (Z.leb_spec q 0); [reflexivity | lia].
Qed.

Lemma borrow_tool_missing :
  0 < q -> tools (db w) = None ->
  borrow_tool websocket message w =
  (set_clock w (clock w + 1),
   Await (SendPersonal
            (failure "borrow_tool" (VStr "工具不存在") (clock w))
            websocket) done).
Proof.
  intros H T. unfold borrow_tool. fold q.
  destruct (Z.leb_spec q 0); [lia|]. code. now rewrite T.
Qed.

Lemma borrow_tool_insufficient (tool : Tool) :
  0 < q -> tools (db w) = Some tool -> current_quantity tool < q ->
  borrow_tool websocket message w =
  (set_clock w (clock w + 1),
   Await (SendPersonal
            (failure "borrow_tool"
               (VText [Lit "库存不足，当前剩余: ";
                       IntHole (current_quantity tool); Lit "个"])
               (clock w))
            websocket) done).
Proof.
  intros H T L. unfold borrow_tool. fold q.
  destruct (Z.leb_spec q 0); [lia|]. code. rewrite T.
  destruct (Z.ltb_spec (current_quantity tool) q); [reflexivity | lia].
Qed.

Lemma borrow_tool_success (tool : Tool) :
  tools (db w) = Some tool -> 0 < q <= current_quantity tool ->
  history_fault w = false ->
  let tool' := committed tool (current_quantity tool - q) (clock w) in
  let fault := history_fault w in
  let t := clock w + 1 + borrow_history_ticks fault in
  exists w',
    borrow_tool websocket message w =
    (w',
     Await (SendPersonal (borrow_success q tool' t (t + 1)) websocket)
       (announce (current_quantity tool) tool')) /\
    tools (db w') = Some tool' /\
    active_connections w' = active_connections w /\
    broken_sockets w' = broken_sockets w /\
    clock w' = t + 2 /\
    trace w' =
      trace w ++
      Log WS_LOGGER INFO
        [Lit "工具借出: 数量"; IntHole q; Lit "个, 库存: ";
         IntHole (current_quantity tool); Lit "->";
         IntHole (current_quantity tool - q)] ::
      borrow_history_events fault q (clock w + 1) /\
borrow_recorded fault q (borrow_records (db w)) (borrow_records (db w')).
Proof.
  intros T [H L] F tool' fault t. unfold borrow_tool. fold q.
  destruct (Z.leb_spec q 0); [lia|]. code. rewrite T.
  destruct (Z.ltb_spec (current_quantity tool) q); [lia|]. cbn.
  match goal with
  | |- context [record_borrow_time q ?w1] =>
      destruct (record_borrow_time_run q w1)
        as (w2 & E & Htools & Hconn & Hbroken & Hclock & Htrace & Hrec);
      rewrite E
  end.
  cbn in *. subst t fault. rewrite F in *. cbn in *. eexists. split.
  - rewrite Hclock. reflexivity.
  - cbn. rewrite Htools, Hconn, Hbroken, Htrace.
    rewrite current_quantity_update_status. cbn.
    rewrite <- app_assoc.
repeat (split; [first [reflexivity | lia]|]).
exact Hrec.
Qed.

(** The borrow whose history the table refuses: the row is committed,
    then the expired row cannot be read and the handler ends in its
    [except] clause. *)
Lemma borrow_tool_unrecorded (tool : Tool) :
  tools (db w) = Some tool -> 0 < q <= current_quantity tool ->
  history_fault w = true ->
  let tool' := committed tool (current_quantity tool - q) (clock w) in
  let e := Py.PendingRollbackError "borrow_records" in
  exists w',
    borrow_tool websocket message w =
    (w',
     Await (SendPersonal
              (error_response "borrow_tool" "借出失败: " e (clock w + 2))
              websocket) done) /\
    db w' = {| tools := Some tool'; borrow_records := borrow_records (db w) |} /\
    active_connections w' = active_connections w /\
    broken_sockets w' = broken_sockets w /\
    clock w' = clock w + 3 /\
    trace w' =
      trace w ++
      Log WS_LOGGER INFO
        [Lit "工具借出: 数量"; IntHole q; Lit "个, 库存: ";
         IntHole (current_quantity tool); Lit "->";
         IntHole (current_quantity tool - q)] ::
      borrow_history_events true q (clock w + 1) ++
      [Log WS_LOGGER ERROR [Lit "借出工具时出错: "; ExnHole e]].
Proof.
  intros T [H L] F tool' e. unfold borrow_tool. fold q.
  destruct (Z.leb_spec q 0); [lia|]. code. rewrite T.
  destruct (Z.ltb_spec (current_quantity tool) q); [lia|]. cbn.
  unfold record_borrow_time, create_borrow_record, add_record, try_, bind,
    ret, raise, now, log, emit, refreshed.
  cbn. rewrite F. cbn.
  replace (clock w + 2) with (clock w + 1 + 1) by lia.
  eexists. split; [reflexivity|]. cbn.
  rewrite current_quantity_update_status. cbn.
  rewrite <- !app_assoc. cbn.
  repeat (split; [first [reflexivity | lia]|]). reflexivity.
Qed.
(** Either way a borrow that the stock allows commits its row and
    answers the requester. *)
Lemma borrow_tool_commits (tool : Tool) :
  tools (db w) = Some tool -> 0 < q <= current_quantity tool ->
  let tool' := committed tool (current_quantity tool - q) (clock w) in
  exists w' reply k,
    borrow_tool websocket message w =
      (w', Await (SendPersonal reply websocket) k) /\
    (k = done \/ k = announce (current_quantity tool) tool') /\
    tools (db w') = Some tool' /\
    active_connections w' = active_connections w /\
    broken_sockets w' = broken_sockets w /\
    exists events, trace w' = trace w ++ events /\ sent events = [].
Proof.
  intros T H tool'. destruct (history_fault w) eqn:F.
  - destruct (borrow_tool_unrecorded tool T H F)
      as (w' & E & D & C & B & _ & Tr).
    do 3 eexists. split; [exact E|]. split; [now left|].
    rewrite D. do 3 (split; [first [reflexivity | assumption]|]).
    eexists. split; [exact Tr | reflexivity].
  - destruct (borrow_tool_success tool T H F)
      as (w' & E & Tt & C & B & _ & Tr & _).
    do 3 eexists. split; [exact E|]. split; [now right|].
    do 3 (split; [assumption|]).
    eexists. split; [exact Tr | now rewrite F].
Qed.
End Borrow.

Section Return.
Variables (websocket : WebSocket) (message : Message) (w : World).
Let q := dict_get (quantity message) 1.

Lemma return_tool_invalid :
  q <= 0 ->
  return_tool websocket message w =
  (set_clock w (clock w + 1),
   Await (SendPersonal
            (failure "return_tool" (VStr "归还数量必须大于0") (clock w))
            websocket) done).
Proof.
  intro H. unfold return_tool. fold q.
  destruct (Z.leb_spec q 0); [reflexivity | lia].
Qed.

Lemma return_tool_missing :
  0 < q -> tools (db w) = None ->
  return_tool websocket message w =
  (set_clock w (clock w + 1),
   Await (SendPersonal
            (failure "return_tool" (VStr "工具不存在") (clock w))
            websocket) done).
Proof.
  intros H T. unfold return_tool. fold q.
  destruct (Z.leb_spec q 0); [lia|]. code. now rewrite T.
Qed.

Lemma return_tool_overflow (tool : Tool) :
  0 < q -> tools (db w) = Some tool ->
  current_quantity tool + q > total_quantity tool ->
  return_tool websocket message w =
  (set_clock w (clock w + 1),
   Await (SendPersonal
            (failure "return_tool"
               (VText [Lit "归还后超过总量，当前: ";
                       IntHole (current_quantity tool); Lit ", 总量: ";
                       IntHole (total_quantity tool)])
               (clock w))
            websocket) done).
Proof.
  intros H T L. unfold return_tool. fold q.
  destruct (Z.leb_spec q 0); [lia|]. code. rewrite T, Z.gtb_ltb.
  destruct (Z.ltb_spec (total_quantity tool) (current_quantity tool + q));
    [reflexivity | lia].
Qed.

Lemma return_tool_success (tool : Tool) :
  tools (db w) = Some tool -> 0 < q ->
  current_quantity tool + q <= total_quantity tool ->
  history_fault w = false ->
  let tool' := committed tool (current_quantity tool + q) (clock w) in
  exists w' t,
    return_tool websocket message w =
    (w',
     Await (SendPersonal (return_success q tool' t (t + 1)) websocket)
       (announce (current_quantity tool) tool')) /\
    tools (db w') = Some tool' /\
    active_connections w' = active_connections w /\
    broken_sockets w' = broken_sockets w /\
    exists events,
      trace w' = trace w ++ events /\ sent events = [] /\
      exists d, history_calls events = [d].
Proof.
  intros T H L F tool'. unfold return_tool. fold q.
  destruct (Z.leb_spec q 0); [lia|]. code. rewrite T, Z.gtb_ltb.
  destruct (Z.ltb_spec (total_quantity tool) (current_quantity tool + q));
    [lia|].
  cbn.
  match goal with
  | |- context [record_return_time q ?w1] =>
      destruct (record_return_time_run q w1)
        as (w2 & E & [Htools Hconn Hbroken _ (events & Htrace & Hs & Hh)]);
      rewrite E
  end.
  cbn in *. rewrite F. cbn. do 2 eexists. split; [reflexivity|]. cbn.
  rewrite Htools, Hconn, Hbroken, Htrace.
  repeat split; try reflexivity.
  eexists. rewrite <- app_assoc. split; [reflexivity|].
  cbn. split; assumption.
Qed.

(** The return whose history the table refuses: the row is committed,
    then the expired row cannot be read and the handler ends in its
    [except] clause. *)
Lemma return_tool_unrecorded (tool : Tool) :
  tools (db w) = Some tool -> 0 < q ->
  current_quantity tool + q <= total_quantity tool ->
  history_fault w = true ->
  let tool' := committed tool (current_quantity tool + q) (clock w) in
  let e := Py.PendingRollbackError "borrow_records" in
  let t :=
    match latest_open_borrow (borrow_records (db w)) with
    | Some _ => clock w + 1 + 1
    | None => clock w + 1 + 1 + 1
    end in
  return_tool websocket message w =
  (set_clock
     (set_trace
        (set_db w
           {| tools := Some tool'; borrow_records := borrow_records (db w) |})
        (trace w ++
         [Log WS_LOGGER INFO
            [Lit "工具归还: 数量"; IntHole q; Lit "个, 库存: ";
             IntHole (current_quantity tool); Lit "->";
             IntHole (current_quantity tool + q)];
          Log RH_LOGGER ERROR
            [Lit "创建归还记录失败: ";
             ExnHole (Py.OperationalError "borrow_records")];
          Log WS_LOGGER ERROR
            [Lit "记录归还时间失败: ";
             ExnHole (Py.OperationalError "borrow_records")];
          Log WS_LOGGER ERROR [Lit "归还工具时出错: "; ExnHole e]]))
     (t + 1),
   Await (SendPersonal (error_response "return_tool" "归还失败: " e t)
            websocket) done).
Proof.
  intros T H L F tool' e t. unfold return_tool. fold q.
  destruct (Z.leb_spec q 0); [lia|]. code. rewrite T, Z.gtb_ltb.
  destruct (Z.ltb_spec (total_quantity tool) (current_quantity tool + q));
    [lia|].
  cbn.
  unfold record_return_time, create_return_record, add_record, update_record,
    try_, bind, ret, raise, now, log, emit, refreshed.
  cbn. subst t.
  destruct (latest_open_borrow (borrow_records (db w))); cbn; rewrite F; cbn;
    rewrite current_quantity_update_status; cbn;
    unfold set_clock, set_trace, set_db; cbn;
    rewrite <- !app_assoc; reflexivity.
Qed.
(** Either way a return that the capacity allows commits its row and
    answers the requester. *)
Lemma return_tool_commits (tool : Tool) :
  tools (db w) = Some tool -> 0 < q ->
  current_quantity tool + q <= total_quantity tool ->
  let tool' := committed tool (current_quantity tool + q) (clock w) in
  exists w' reply k,
    return_tool websocket message w =
      (w', Await (SendPersonal reply websocket) k) /\
    (k = done \/ k = announce (current_quantity tool) tool') /\
    tools (db w') = Some tool' /\
    active_connections w' = active_connections w /\
    broken_sockets w' = broken_sockets w /\
    exists events, trace w' = trace w ++ events /\ sent events = [].
Proof.
  intros T H L tool'. destruct (history_fault w) eqn:F.
  - rewrite (return_tool_unrecorded tool T H L F).
    do 3 eexists. split; [reflexivity|]. split; [now left|].
    do 3 (split; [reflexivity|]).
    eexists. split; reflexivity.
  - destruct (return_tool_success tool T H L F)
      as (w' & t & E & Tt & C & B & events & Tr & S & _).
    do 3 eexists. split; [exact E|]. split; [now right|].
    do 3 (split; [assumption|]).
    exists events. split; assumption.
Qed.
End Return.

Lemma heal_unit_weight_fields (tool : Tool) :
  total_quantity (heal_unit_weight tool) = total_quantity tool /\
  current_quantity (heal_unit_weight tool) = current_quantity tool /\
  threshold (heal_unit_weight tool) = threshold tool /\
  status (heal_unit_weight tool) = status tool.
Proof. unfold heal_unit_weight. now destruct (PrimFloat.leb _ _). Qed.

Section Sensor.
Variables (websocket : WebSocket) (message : Message) (w : World).

Lemma sensor_update_no_weight :
  current_weight message = None ->
  sensor_update websocket message w =
  (set_clock w (clock w + 1),
   Await (SendPersonal
            (failure "sensor_update" (VStr "缺少current_weight参数")
               (clock w))
            websocket) done).
Proof. intro H. unfold sensor_update. now rewrite H. Qed.

Lemma sensor_update_missing (weight : Py.num) :
  current_weight message = Some weight -> tools (db w) = None ->
  sensor_update websocket message w =
  (set_clock w (clock w + 1),
   Await (SendPersonal
            (failure "sensor_update" (VStr "工具不存在") (clock w))
            websocket) done).
Proof. intros H T. unfold sensor_update. rewrite H. code. now rewrite T. Qed.

Lemma sensor_update_raises (weight : Py.num) (tool : Tool) (e : Py.exn) :
  current_weight message = Some weight -> tools (db w) = Some tool ->
  estimate weight tool = Raise e ->
  sensor_update websocket message w =
  (set_clock
     (set_trace w
        (trace w ++
         [Log WS_LOGGER ERROR [Lit "传感器更新时出错: "; ExnHole e]]))
     (clock w + 1),
   Await (SendPersonal
            (error_response "sensor_update" "传感器更新失败: " e (clock w))
            websocket) done).
Proof.
  intros H T E. unfold sensor_update. rewrite H. code. rewrite T.
  unfold estimate in E.
  destruct (Py.truediv weight _) as [quotient|e']; cbn.
  - now rewrite E.
  - now inversion E.
Qed.

Lemma sensor_update_success (weight : Py.num) (tool : Tool) (n : Z) :
  current_weight message = Some weight -> tools (db w) = Some tool ->
  estimate weight tool = Ok n ->
  let tool' :=
    set_last_updated
      (update_status
         (limit_quantity (set_current_quantity (heal_unit_weight tool) n)))
      (clock w) in
  sensor_update websocket message w =
  (set_clock
     (set_trace
        (set_db (set_clock w (clock w + 1))
           {| tools := Some tool'; borrow_records := borrow_records (db w) |})
        (trace w ++
         [Log WS_LOGGER INFO
            [Lit "传感器更新: 重量"; NumHole weight; Lit "g -> 数量";
             IntHole n; Lit ", 库存: ";
             IntHole (current_quantity (heal_unit_weight tool)); Lit "->";
             IntHole (current_quantity tool')]]))
     (clock w + 1 + 1),
   Await (SendPersonal (sensor_success weight n tool' (clock w + 1))
            websocket)
     (fun w =>
        if negb (current_quantity (heal_unit_weight tool) =?
                 current_quantity tool')
        then announce (current_quantity (heal_unit_weight tool)) tool' w
        else done w)).
Proof.
  intros H T E tool'. unfold sensor_update. rewrite H. code. rewrite T.
  unfold estimate in E.
  destruct (Py.truediv weight _) as [quotient|e']; cbn; [|discriminate].
  rewrite E. reflexivity.
Qed.
End Sensor.

(* ------------------------------------------------------------------ *)
(** * Whole runs *)
(* ------------------------------------------------------------------ *)

Section Runs.
Variables (b : Block) (w w1 : World) (response : Msg)
  (websocket : WebSocket).

Lemma run_reply :
  b w = (w1, Await (SendPersonal response websocket) done) ->
  run b w =
  set_trace w1
    (trace w1 ++ personal_events (broken_sockets w1) websocket response).
Proof. intro E. unfold run. rewrite E. cbn. now rewrite perform_send. Qed.

Lemma awaited_reply :
  b w = (w1, Await (SendPersonal response websocket) done) ->
  awaited b w = [SendPersonal response websocket].
Proof. intro E. unfold awaited. now rewrite E. Qed.

Lemma run_announce (old_quantity : Z) (tool : Tool) :
  b w =
  (w1, Await (SendPersonal response websocket) (announce old_quantity tool)) ->
  run b w =
  set_trace (set_clock w1 (clock w1 + 1))
    (trace w1 ++
     personal_events (broken_sockets w1) websocket response ++
     broadcast_events (broken_sockets w1) (active_connections w1)
       (inventory_changed old_quantity tool (clock w1))).
Proof.
  intro E. unfold run. rewrite E. cbn.
  rewrite perform_send, perform_broadcast. cbn.
  unfold set_trace; cbn. now rewrite <- app_assoc.
Qed.

Lemma awaited_announce (old_quantity : Z) (tool : Tool) :
  b w =
  (w1, Await (SendPersonal response websocket) (announce old_quantity tool)) ->
  awaited b w =
  [SendPersonal response websocket;
   Broadcast (inventory_changed old_quantity tool (clock w1))].
Proof.
  intro E. unfold awaited. rewrite E. cbn. now rewrite perform_send.
Qed.

Lemma run_maybe_announce (changed : bool) (old_quantity : Z) (tool : Tool) :
  b w =
  (w1,
   Await (SendPersonal response websocket)
     (fun w => if changed then announce old_quantity tool w else done w)) ->
  run b w =
  (if changed
   then
     set_trace (set_clock w1 (clock w1 + 1))
       (trace w1 ++
        personal_events (broken_sockets w1) websocket response ++
        broadcast_events (broken_sockets w1) (active_connections w1)
          (inventory_changed old_quantity tool (clock w1)))
   else
     set_trace w1
       (trace w1 ++
        personal_events (broken_sockets w1) websocket response)) /\
  awaited b w =
  SendPersonal response websocket ::
  (if changed
   then [Broadcast (inventory_changed old_quantity tool (clock w1))]
   else []).
Proof.
  intro E. unfold run, awaited. rewrite E. destruct changed; cbn.
  - rewrite perform_send, perform_broadcast. cbn.
    unfold set_trace; cbn. now rewrite <- app_assoc.
  - now rewrite perform_send.
Qed.
End Runs.

(* ------------------------------------------------------------------ *)
(** * Rejected requests *)
(* ------------------------------------------------------------------ *)

(** C3.  A borrow of more than the stock is refused: the reply, sent to
    the requesting connection alone, says the stock is insufficient and
    gives the quantity left; the database is as before (quantity, status
    and time of last update included), nothing is broadcast and the
    history collaborator is not called.  The quantity stored is assumed
    not to be negative, as the data model has it. *)
Theorem borrow_beyond_stock_refused (websocket : WebSocket)
    (message : Message) (w : World) (tool : Tool) :
  tools (db w) = Some tool ->
  0 <= current_quantity tool ->
  dict_get (quantity message) 1 > current_quantity tool ->
  let b := borrow_tool websocket message in
  let reply :=
    failure "borrow_tool"
      (VText [Lit "库存不足，当前剩余: ";
              IntHole (current_quantity tool); Lit "个"])
      (clock w) in
  db (run b w) = db w /\
  awaited b w = [SendPersonal reply websocket] /\
  broadcasts (awaited b w) = [] /\
  sent (events_of b w) = [(websocket, reply)] /\
  history_calls (events_of b w) = [] /\
  succeeded b w = false.
Proof.
  intros T H0 H b reply.
  assert (E := borrow_tool_insufficient websocket message w tool
                 ltac:(lia) T ltac:(lia)).
  fold b reply in E.
  assert (R := run_reply _ _ _ _ _ E).
  assert (A := awaited_reply _ _ _ _ _ E).
  assert (Ev : events_of b w =
               personal_events (broken_sockets w) websocket reply)
    by (apply events_of_app; now rewrite R).
  rewrite Ev, sent_personal, history_personal.
  unfold succeeded. rewrite A, R. repeat split; reflexivity.
Qed.

Lemma borrow_beyond_stock_refused_witness :
  let message :=
    {| action := Some "borrow_tool"; quantity := Some 11;
       current_weight := None |} in
  let b := borrow_tool 1%nat message in
  let reply :=
    failure "borrow_tool" (VText [Lit "库存不足，当前剩余: "; IntHole 10; Lit "个"])
      1 in
  db (run b busy_world) = db busy_world /\
  awaited b busy_world = [SendPersonal reply 1%nat] /\
  broadcasts (awaited b busy_world) = [] /\
  sent (events_of b busy_world) = [(1%nat, reply)] /\
  history_calls (events_of b busy_world) = [] /\
  succeeded b busy_world = false.
Proof.
  intros message b reply.
  apply (borrow_beyond_stock_refused 1%nat message busy_world
           (default_tool 0)); [reflexivity | cbn; lia | cbn; lia].
Defined.

(** C4.  A return that would take the stock over the total is refused:
    the reply, sent to the requesting connection alone, says the total
    would be exceeded and gives the current and the total quantity; the
    database is as before, nothing is broadcast and the history
    collaborator is not called.  The quantity stored is assumed not to
    exceed the total, as the data model has it. *)
Theorem return_beyond_capacity_refused (websocket : WebSocket)
    (message : Message) (w : World) (tool : Tool) :
  tools (db w) = Some tool ->
  current_quantity tool <= total_quantity tool ->
  current_quantity tool + dict_get (quantity message) 1 >
    total_quantity tool ->
  let b := return_tool websocket message in
  let reply :=
    failure "return_tool"
      (VText [Lit "归还后超过总量，当前: "; IntHole (current_quantity tool);
              Lit ", 总量: "; IntHole (total_quantity tool)])
      (clock w) in
  db (run b w) = db w /\
  awaited b w = [SendPersonal reply websocket] /\
  broadcasts (awaited b w) = [] /\
  sent (events_of b w) = [(websocket, reply)] /\
  history_calls (events_of b w) = [] /\
  succeeded b w = false.
Proof.
  intros T H0 H b reply.
  assert (E := return_tool_overflow websocket message w tool
                 ltac:(lia) T ltac:(lia)).
  fold b reply in E.
  assert (R := run_reply _ _ _ _ _ E).
  assert (A := awaited_reply _ _ _ _ _ E).
  assert (Ev : events_of b w =
               personal_events (broken_sockets w) websocket reply)
    by (apply events_of_app; now rewrite R).
  rewrite Ev, sent_personal, history_personal.
  unfold succeeded. rewrite A, R. repeat split; reflexivity.
Qed.

Lemma return_beyond_capacity_refused_witness :
  let message :=
    {| action := Some "return_tool"; quantity := Some 1;
       current_weight := None |} in
  let b := return_tool 1%nat message in
  let reply :=
    failure "return_tool"
      (VText [Lit "归还后超过总量，当前: "; IntHole 10; Lit ", 总量: ";
              IntHole 10])
      1 in
  db (run b busy_world) = db busy_world /\
  awaited b busy_world = [SendPersonal reply 1%nat] /\
  broadcasts (awaited b busy_world) = [] /\
  sent (events_of b busy_world) = [(1%nat, reply)] /\
  history_calls (events_of b busy_world) = [] /\
  succeeded b busy_world = false.
Proof.
  intros message b reply.
  apply (return_beyond_capacity_refused 1%nat message busy_world
           (default_tool 0)); [reflexivity | cbn; lia | cbn; lia].
Defined.

(* ------------------------------------------------------------------ *)
(** * Transitions of the tool row *)
(* ------------------------------------------------------------------ *)

Lemma borrow_tool_transition (websocket : WebSocket) (message : Message)
    (w : World) :
  tools (db (run (borrow_tool websocket message) w)) = tools (db w) \/
  exists tool q,
    tools (db w) = Some tool /\
    0 < q <= current_quantity tool /\
    tools (db (run (borrow_tool websocket message) w)) =
      Some (committed tool (current_quantity tool - q) (clock w)).
Proof.
  set (q := dict_get (quantity message) 1).
  destruct (Z.leb_spec q 0) as [Hq|Hq].
  - left. now rewrite (run_reply _ _ _ _ _
                         (borrow_tool_invalid websocket message w Hq)).
  - destruct (tools (db w)) as [tool|] eqn:T.
    + destruct (Z.ltb_spec (current_quantity tool) q) as [L|L].
      * left.
        rewrite (run_reply _ _ _ _ _
                   (borrow_tool_insufficient websocket message w tool Hq T L)).
        now cbn.
      * right. exists tool, q.
        destruct (borrow_tool_commits websocket message w tool T
                    (conj Hq L)) as (w' & reply & k & E & K & Ht & _).
        destruct K as [-> | ->];
          [rewrite (run_reply _ _ _ _ _ E)
          | rewrite (run_announce _ _ _ _ _ _ _ E)];
          cbn; now rewrite Ht.
    + left.
      rewrite (run_reply _ _ _ _ _
                 (borrow_tool_missing websocket message w Hq T)).
      now cbn.
Qed.

Lemma return_tool_transition (websocket : WebSocket) (message : Message)
    (w : World) :
  tools (db (run (return_tool websocket message) w)) = tools (db w) \/
  exists tool q,
    tools (db w) = Some tool /\
    0 < q /\ current_quantity tool + q <= total_quantity tool /\
    tools (db (run (return_tool websocket message) w)) =
      Some (committed tool (current_quantity tool + q) (clock w)).
Proof.
  set (q := dict_get (quantity message) 1).
  destruct (Z.leb_spec q 0) as [Hq|Hq].
  - left. now rewrite (run_reply _ _ _ _ _
                         (return_tool_invalid websocket message w Hq)).
  - destruct (tools (db w)) as [tool|] eqn:T.
    + destruct (Z.ltb_spec (total_quantity tool) (current_quantity tool + q))
        as [L|L].
      * left.
        rewrite (run_reply _ _ _ _ _
                   (return_tool_overflow websocket message w tool Hq T
                      ltac:(lia))).
        now cbn.
      * right. exists tool, q.
        destruct (return_tool_commits websocket message w tool T Hq L)
          as (w' & reply & k & E & K & Ht & _).
        destruct K as [-> | ->];
          [rewrite (run_reply _ _ _ _ _ E)
          | rewrite (run_announce _ _ _ _ _ _ _ E)];
          cbn; now rewrite Ht.
    + left.
      rewrite (run_reply _ _ _ _ _
                 (return_tool_missing websocket message w Hq T)).
      now cbn.
Qed.

Lemma run_sensor_success (websocket : WebSocket) (message : Message)
    (w : World) (weight : Py.num) (tool : Tool) (n : Z) :
  current_weight message = Some weight -> tools (db w) = Some tool ->
  estimate weight tool = Ok n ->
  let tool' :=
    set_last_updated
      (update_status
         (limit_quantity (set_current_quantity (heal_unit_weight tool) n)))
      (clock w) in
  let b := sensor_update websocket message in
  tools (db (run b w)) = Some tool' /\
  borrow_records (db (run b w)) = borrow_records (db w) /\
  awaited b w =
    SendPersonal (sensor_success weight n tool' (clock w + 1)) websocket ::
    (if negb (current_quantity tool =? current_quantity tool')
     then [Broadcast
             (inventory_changed (current_quantity tool) tool'
                (clock w + 2))]
     else []) /\
  sent (events_of b w) =
    (websocket, sensor_success weight n tool' (clock w + 1)) ::
    (if negb (current_quantity tool =? current_quantity tool')
     then map (fun c =>
                 (c, inventory_changed (current_quantity tool) tool'
                       (clock w + 2)))
              (active_connections w)
     else []) /\
  history_calls (events_of b w) = [].
Proof.
  intros H T E tool' b.
  assert (F := sensor_update_success websocket message w weight tool n H T E).
  destruct (heal_unit_weight_fields tool) as (_ & Hc & _).
  rewrite Hc in F. cbv zeta in F. fold tool' b in F.
  set (changed := negb (current_quantity tool =? current_quantity tool')) in *.
  destruct (run_maybe_announce _ _ _ _ _ _ _ _ F) as [R A].
  assert (Ev : exists events,
             trace (run b w) = trace w ++ events /\
             sent events =
               (websocket, sensor_success weight n tool' (clock w + 1)) ::
               (if changed
                then map (fun c =>
                            (c, inventory_changed (current_quantity tool)
                                  tool' (clock w + 2)))
                         (active_connections w)
                else []) /\
             history_calls events = []).
  { rewrite R. destruct changed; cbn [trace set_trace set_clock set_db];
      rewrite <- app_assoc; eexists; (split; [reflexivity|]);
      rewrite !sent_app, !history_calls_app, sent_personal, history_personal,
        ?sent_broadcast, ?history_broadcast; cbn;
      replace (clock w + 1 + 1) with (clock w + 2) by lia; now split. }
  destruct Ev as (events & Ht & Hs & Hh).
  rewrite (events_of_app _ _ _ Ht), A, R.
  replace (clock w + 1 + 1) with (clock w + 2) by lia.
  destruct changed; repeat split; assumption || reflexivity.
Qed.

Lemma sensor_update_transition (websocket : WebSocket) (message : Message)
    (w : World) :
  tools (db (run (sensor_update websocket message) w)) = tools (db w) \/
  exists tool n,
    tools (db w) = Some tool /\
    tools (db (run (sensor_update websocket message) w)) =
      Some (set_last_updated
              (update_status
                 (limit_quantity
                    (set_current_quantity (heal_unit_weight tool) n)))
              (clock w)).
Proof.
  destruct (current_weight message) as [weight|] eqn:H.
  - destruct (tools (db w)) as [tool|] eqn:T.
    + destruct (estimate weight tool) as [n|e] eqn:E.
      * right. exists tool, n. split; [reflexivity|].
        now destruct (run_sensor_success websocket message w weight tool n
                        H T E) as (R & _).
      * left.
        rewrite (run_reply _ _ _ _ _
                   (sensor_update_raises websocket message w weight tool e
                      H T E)).
        now cbn.
    + left.
      rewrite (run_reply _ _ _ _ _
                 (sensor_update_missing websocket message w weight H T)).
      now cbn.
  - left.
    now rewrite (run_reply _ _ _ _ _
                   (sensor_update_no_weight websocket message w H)).
Qed.

Lemma run_borrow_success (websocket : WebSocket) (message : Message)
    (w : World) (tool : Tool) :
  let q := dict_get (quantity message) 1 in
  tools (db w) = Some tool -> 0 < q <= current_quantity tool ->
  history_fault w = false ->
  let tool' := committed tool (current_quantity tool - q) (clock w) in
  let fault := history_fault w in
  let t := clock w + 1 + borrow_history_ticks fault in
  let response := borrow_success q tool' t (t + 1) in
  let note := inventory_changed (current_quantity tool) tool' (t + 2) in
  let b := borrow_tool websocket message in
  tools (db (run b w)) = Some tool' /\
  awaited b w = [SendPersonal response websocket; Broadcast note] /\
  trace (run b w) =
    trace w ++
    Log WS_LOGGER INFO
      [Lit "工具借出: 数量"; IntHole q; Lit "个, 库存: ";
       IntHole (current_quantity tool); Lit "->";
       IntHole (current_quantity tool - q)] ::
    borrow_history_events fault q (clock w + 1) ++
    personal_events (broken_sockets w) websocket response ++
    broadcast_events (broken_sockets w) (active_connections w) note /\
  borrow_recorded fault q (borrow_records (db w))
    (borrow_records (db (run b w))).
Proof.
  intros q T H F tool' fault t response note b.
  destruct (borrow_tool_success websocket message w tool T H F)
    as (w' & E & Ht & Hc & Hb & Hk & Htr & Hrec).
  fold q tool' fault t response b in E, Hk, Htr, Ht, Hrec.
  rewrite (run_announce _ _ _ _ _ _ _ E), (awaited_announce _ _ _ _ _ _ _ E).
  cbn. rewrite Ht, Hc, Hb, Hk, Htr. fold note.
  rewrite <- app_assoc. repeat (split; [reflexivity|]). exact Hrec.
Qed.

Lemma run_return_success (websocket : WebSocket) (message : Message)
    (w : World) (tool : Tool) :
  let q := dict_get (quantity message) 1 in
  tools (db w) = Some tool -> 0 < q ->
  current_quantity tool + q <= total_quantity tool ->
  history_fault w = false ->
  let tool' := committed tool (current_quantity tool + q) (clock w) in
  let b := return_tool websocket message in
  exists t t' history,
    let response := return_success q tool' t (t + 1) in
    let note := inventory_changed (current_quantity tool) tool' t' in
    tools (db (run b w)) = Some tool' /\
    awaited b w = [SendPersonal response websocket; Broadcast note] /\
    trace (run b w) =
      trace w ++ history ++
      personal_events (broken_sockets w) websocket response ++
      broadcast_events (broken_sockets w) (active_connections w) note /\
    sent history = [] /\
    exists d, history_calls history = [d].
Proof.
  intros q T H L F tool' b.
  destruct (return_tool_success websocket message w tool T H L F)
    as (w' & t & E & Ht & Hc & Hb & history & Htr & Hs & Hh).
  fold q tool' b in E, Ht.
  exists t, (clock w'), history. cbv zeta.
  rewrite (run_announce _ _ _ _ _ _ _ E), (awaited_announce _ _ _ _ _ _ _ E).
  cbn. rewrite Ht, Hc, Hb, Htr.
  rewrite <- app_assoc. repeat split; assumption || reflexivity.
Qed.

(** The whole run of a borrow whose history the table refuses: the row
    is committed, the requester gets the error reply of the [except]
    clause, and that is all. *)
Lemma run_borrow_unrecorded (websocket : WebSocket) (message : Message)
    (w : World) (tool : Tool) :
  let q := dict_get (quantity message) 1 in
  tools (db w) = Some tool -> 0 < q <= current_quantity tool ->
  history_fault w = true ->
  let tool' := committed tool (current_quantity tool - q) (clock w) in
  let e := Py.PendingRollbackError "borrow_records" in
  let reply := error_response "borrow_tool" "借出失败: " e (clock w + 2) in
  let b := borrow_tool websocket message in
  db (run b w) =
    {| tools := Some tool'; borrow_records := borrow_records (db w) |} /\
  awaited b w = [SendPersonal reply websocket] /\
  trace (run b w) =
    trace w ++
    Log WS_LOGGER INFO
      [Lit "工具借出: 数量"; IntHole q; Lit "个, 库存: ";
       IntHole (current_quantity tool); Lit "->";
       IntHole (current_quantity tool - q)] ::
    borrow_history_events true q (clock w + 1) ++
    [Log WS_LOGGER ERROR [Lit "借出工具时出错: "; ExnHole e]] ++
    personal_events (broken_sockets w) websocket reply.
Proof.
  intros q T H F tool' e reply b.
  destruct (borrow_tool_unrecorded websocket message w tool T H F)
    as (w' & E & D & C & B & _ & Tr).
  fold q tool' e reply b in E, D, Tr.
  rewrite (run_reply _ _ _ _ _ E), (awaited_reply _ _ _ _ _ E).
  cbn [db set_trace trace]. rewrite D, B, Tr.
  split; [reflexivity|]. split; [reflexivity|].
  now rewrite <- !app_assoc.
Qed.

(** The same for a return. *)
Lemma run_return_unrecorded (websocket : WebSocket) (message : Message)
    (w : World) (tool : Tool) :
  let q := dict_get (quantity message) 1 in
  tools (db w) = Some tool -> 0 < q ->
  current_quantity tool + q <= total_quantity tool ->
  history_fault w = true ->
  let tool' := committed tool (current_quantity tool + q) (clock w) in
  let e := Py.PendingRollbackError "borrow_records" in
  let b := return_tool websocket message in
  exists t,
    let reply := error_response "return_tool" "归还失败: " e t in
    db (run b w) =
      {| tools := Some tool'; borrow_records := borrow_records (db w) |} /\
    awaited b w = [SendPersonal reply websocket] /\
    trace (run b w) =
      trace w ++
      [Log WS_LOGGER INFO
         [Lit "工具归还: 数量"; IntHole q; Lit "个, 库存: ";
          IntHole (current_quantity tool); Lit "->";
          IntHole (current_quantity tool + q)];
       Log RH_LOGGER ERROR
         [Lit "创建归还记录失败: ";
          ExnHole (Py.OperationalError "borrow_records")];
       Log WS_LOGGER ERROR
         [Lit "记录归还时间失败: ";
          ExnHole (Py.OperationalError "borrow_records")];
       Log WS_LOGGER ERROR [Lit "归还工具时出错: "; ExnHole e]] ++
      personal_events (broken_sockets w) websocket reply.
Proof.
  intros q T H L F tool' e b.
  assert (E := return_tool_unrecorded websocket message w tool T H L F).
  cbv zeta in E. fold q tool' e b in E.
  eexists. cbv zeta.
  rewrite (run_reply _ _ _ _ _ E), (awaited_reply _ _ _ _ _ E).
  cbn [db set_trace set_clock set_db trace broken_sockets].
  split; [reflexivity|]. split; [reflexivity|].
  now rewrite <- app_assoc.
Qed.

Lemma get_tool_status_run (websocket : WebSocket) (w : World) :
  exists response,
    get_tool_status websocket w =
    (set_clock w (clock w + 1),
     Await (SendPersonal response websocket) done).
Proof.
  unfold get_tool_status. code.
  destruct (tools (db w)); cbn; eexists; reflexivity.
Qed.

Lemma process_websocket_message_transition (websocket : WebSocket)
    (message : Message) (w : World) :
  let w' := run (process_websocket_message websocket message) w in
  tools (db w') = tools (db w) \/
  exists tool tool',
    tools (db w) = Some tool /\ tools (db w') = Some tool' /\
    commits tool tool'.
Proof.
  unfold process_websocket_message.
  destruct (String.eqb _ "get_tool_status").
  { left. destruct (get_tool_status_run websocket w) as (r & E).
    now rewrite (run_reply _ _ _ _ _ E). }
  destruct (String.eqb _ "borrow_tool").
  { destruct (borrow_tool_transition websocket message w)
      as [E | (tool & q & T & H & E)]; [now left | right].
    exists tool, (committed tool (current_quantity tool - q) (clock w)).
    repeat split; [assumption.. | now constructor]. }
  destruct (String.eqb _ "return_tool").
  { destruct (return_tool_transition websocket message w)
      as [E | (tool & q & T & H & L & E)]; [now left | right].
    exists tool, (committed tool (current_quantity tool + q) (clock w)).
    repeat split; [assumption.. | now constructor]. }
  destruct (String.eqb _ "sensor_update").
  { destruct (sensor_update_transition websocket message w)
      as [E | (tool & n & T & E)]; [now left | right].
    do 2 eexists. repeat split; [eassumption.. | constructor]. }
  destruct (String.eqb _ "ping"); left;
    now erewrite run_reply by reflexivity.
Qed.

Lemma handle_frame_transition (websocket : WebSocket) (frame : Frame)
    (w : World) :
  let w' := run (handle_frame websocket frame) w in
  tools (db w') = tools (db w) \/
  exists tool tool',
    tools (db w) = Some tool /\ tools (db w') = Some tool' /\
    commits tool tool'.
Proof.
  destruct frame as [error | message];
    [left; now erewrite run_reply by reflexivity|].
  exact (process_websocket_message_transition websocket message
           (snd (log WS_LOGGER INFO
                   [Lit "收到WebSocket消息: "; DictHole (keys_of message)] w))).
Qed.

(* ------------------------------------------------------------------ *)
(** * Invariants of the tool row *)
(* ------------------------------------------------------------------ *)

Lemma status_update_status (tool : Tool) :
  0 <= current_quantity tool ->
  status (update_status tool) =
  expected_status (current_quantity tool) (threshold tool).
Proof.
  intro H. unfold update_status, expected_status.
  destruct (Z.leb_spec (current_quantity tool) 0);
    destruct (Z.eqb_spec (current_quantity tool) 0); try lia;
    [reflexivity|].
  destruct (Z.ltb_spec 0 (current_quantity tool)); [|lia].
  now destruct (Z.leb_spec (current_quantity tool) (threshold tool)).
Qed.

Lemma update_status_fields (tool : Tool) :
  total_quantity (update_status tool) = total_quantity tool /\
  current_quantity (update_status tool) = current_quantity tool /\
  threshold (update_status tool) = threshold tool.
Proof.
  unfold update_status.
  destruct (_ <=? 0); [now repeat split|]. now destruct (_ <=? _).
Qed.

Lemma limit_quantity_fields (tool : Tool) :
  total_quantity (limit_quantity tool) = total_quantity tool /\
  threshold (limit_quantity tool) = threshold tool /\
  current_quantity (limit_quantity tool) =
    (if current_quantity tool <? 0 then 0
     else if current_quantity tool >? total_quantity tool
          then total_quantity tool
          else current_quantity tool).
Proof.
  unfold limit_quantity.
  destruct (_ <? 0); [now repeat split|]. now destruct (_ >? _).
Qed.

Lemma limit_quantity_clamp (tool : Tool) :
  0 <= total_quantity tool ->
  current_quantity (limit_quantity tool) =
  clamp (total_quantity tool) (current_quantity tool).
Proof.
  intro H. destruct (limit_quantity_fields tool) as (_ & _ & ->).
  unfold clamp. rewrite Z.gtb_ltb.
  destruct (Z.ltb_spec (current_quantity tool) 0);
    [|destruct (Z.ltb_spec (total_quantity tool) (current_quantity tool))];
    lia.
Qed.

Lemma stamped_fields (x : Tool) (t : Z) :
  let tool' := set_last_updated (update_status x) t in
  total_quantity tool' = total_quantity x /\
  current_quantity tool' = current_quantity x /\
  threshold tool' = threshold x /\
  (0 <= current_quantity x -> consistent tool').
Proof.
  destruct (update_status_fields x) as (A & B & C).
  cbn. repeat split; try assumption.
  intro H. unfold consistent. cbn. rewrite B, C.
  now apply status_update_status.
Qed.

(** Every commit stamps a row whose status has just been recomputed, of
    the same total and threshold, and in range if the row before was. *)
Lemma commits_shape (tool tool' : Tool) :
  commits tool tool' ->
  exists x t,
    tool' = set_last_updated (update_status x) t /\
    total_quantity x = total_quantity tool /\
    threshold x = threshold tool /\
    (in_range tool -> in_range x).
Proof.
  unfold in_range.
  intros [q t H | q t H L | n t]; unfold committed.
  - do 2 eexists. split; [reflexivity|]. cbn. repeat split; lia.
  - do 2 eexists. split; [reflexivity|]. cbn. repeat split; lia.
  - set (y := set_current_quantity (heal_unit_weight tool) n).
    destruct (limit_quantity_fields y) as (A & C & _).
    destruct (heal_unit_weight_fields tool) as (A' & _ & C' & _).
    assert (T : total_quantity y = total_quantity tool) by (cbn; assumption).
    exists (limit_quantity y), t. split; [reflexivity|].
    rewrite A, C, T. cbn. split; [reflexivity|]. split; [assumption|].
    intro R. rewrite limit_quantity_clamp by (rewrite T; lia).
    rewrite T. unfold clamp. lia.
Qed.

Lemma commits_preserves (tool tool' : Tool) :
  commits tool tool' -> in_range tool ->
  total_quantity tool' = total_quantity tool /\
  threshold tool' = threshold tool /\
  in_range tool' /\ consistent tool'.
Proof.
  intros C R.
  destruct (commits_shape _ _ C) as (x & t & -> & A & B & I).
  destruct (stamped_fields x t) as (A' & B' & C' & K).
  specialize (I R). unfold in_range in *.
  rewrite A', B', C'. repeat split; try lia; try assumption.
  apply K. lia.
Qed.

Lemma frame_keeps_stock (total : Z) (websocket : WebSocket) (frame : Frame)
    (w : World) :
  well_stocked total w ->
  well_stocked total (run (handle_frame websocket frame) w).
Proof.
  intros (tool & T & A & R).
  destruct (handle_frame_transition websocket frame w)
    as [E | (tool1 & tool' & T1 & T' & C)].
  - exists tool. now rewrite E.
  - rewrite T in T1. injection T1 as <-.
    destruct (commits_preserves _ _ C R) as (A' & _ & R' & _).
    exists tool'. split; [assumption|]. split; [congruence | assumption].
Qed.

Lemma frame_keeps_sound (websocket : WebSocket) (frame : Frame) (w : World) :
  sound w -> sound (run (handle_frame websocket frame) w).
Proof.
  intros (tool & T & R & K).
  destruct (handle_frame_transition websocket frame w)
    as [E | (tool1 & tool' & T1 & T' & C)].
  - exists tool. now rewrite E.
  - rewrite T in T1. injection T1 as <-.
    destruct (commits_preserves _ _ C R) as (_ & _ & R' & K').
    now exists tool'.
Qed.

Lemma reachable_sound (w0 w : World) :
  sound w0 -> reachable_from w0 w -> sound w.
Proof.
  intros S0 H. induction H as [| w websocket frame _ IH | w w' _ IH E].
  - assumption.
  - now apply frame_keeps_sound.
  - destruct IH as (tool & T & R & K). exists tool. now rewrite E.
Qed.

Lemma expected_status_cases (current limit : Z) :
  (expected_status current limit = EMPTY <-> current = 0) /\
  (expected_status current limit = LOW <-> 0 < current <= limit) /\
  (expected_status current limit = NORMAL <->
   current <> 0 /\ ~ 0 < current <= limit).
Proof.
  unfold expected_status, EMPTY, LOW, NORMAL.
  destruct (Z.eqb_spec current 0); [|destruct (Z.ltb_spec 0 current);
    [destruct (Z.leb_spec current limit)|]]; cbn;
    repeat split; intros; try lia; try discriminate; try reflexivity.
Qed.

(* ------------------------------------------------------------------ *)
(** * The invariants of the inventory *)
(* ------------------------------------------------------------------ *)

(** C1.  From a row whose quantity lies between 0 and the total, after
    every operation of a sequence of borrow and return requests with
    positive quantities, accepted or refused, the quantity of the row
    still lies between 0 and the same total. *)
Theorem quantity_stays_in_range (ops : list (WebSocket * Operation))
    (w : World) (tool : Tool) :
  tools (db w) = Some tool ->
  in_range tool ->
  Forall (fun p => 0 < amount (snd p)) ops ->
  Forall (well_stocked (total_quantity tool)) (states ops w).
Proof.
  intros T R _.
  assert (S : well_stocked (total_quantity tool) w) by now exists tool.
  clear T R. revert w S.
  induction ops as [|[websocket op] rest IH]; intros w S; cbn.
  - constructor.
  - assert (S' := frame_keeps_stock _ websocket (Json (request op)) w S).
    constructor; [assumption | now apply IH].
Qed.

Lemma quantity_stays_in_range_witness :
  let ops := [(0%nat, Borrow 4); (1%nat, Borrow 7); (1%nat, GiveBack 3);
              (2%nat, GiveBack 8)] in
  tools (db busy_world) = Some (default_tool 0) /\
  in_range (default_tool 0) /\
  Forall (fun p => 0 < amount (snd p)) ops /\
  Forall (well_stocked 10) (states ops busy_world).
Proof.
  intro ops.
  assert (R : in_range (default_tool 0)) by (unfold in_range; cbn; lia).
  assert (P : Forall (fun p => 0 < amount (snd p)) ops)
    by (repeat constructor).
  split; [reflexivity|]. split; [exact R|]. split; [exact P|].
  exact (quantity_stays_in_range ops busy_world (default_tool 0)
           eq_refl R P).
Defined.

(** C2.  In every state reached from a row that is in range and carries
    the status of its quantity, the status is the function of quantity
    and threshold of the data model: empty exactly at 0, low exactly from
    1 to the threshold, normal otherwise.  And whatever the status
    stored before, a frame that changes the row leaves it with the status
    of its new quantity and threshold. *)
Theorem status_follows_quantity (w0 w : World) (tool0 : Tool) :
  tools (db w0) = Some tool0 ->
  in_range tool0 ->
  consistent tool0 ->
  reachable_from w0 w ->
  (exists tool,
     tools (db w) = Some tool /\
     status tool =
       expected_status (current_quantity tool) (threshold tool) /\
     (status tool = EMPTY <-> current_quantity tool = 0) /\
     (status tool = LOW <->
      0 < current_quantity tool <= threshold tool) /\
     (status tool = NORMAL <->
      current_quantity tool <> 0 /\
      ~ 0 < current_quantity tool <= threshold tool)) /\
  (forall (v : World) (stale : Tool) (websocket : WebSocket) (frame : Frame),
     tools (db v) = Some stale -> in_range stale ->
     let v' := run (handle_frame websocket frame) v in
     tools (db v') = tools (db v) \/
     exists tool',
       tools (db v') = Some tool' /\
       status tool' =
         expected_status (current_quantity tool') (threshold tool')).
Proof.
  intros T R K H. split.
  - destruct (reachable_sound w0 w ltac:(now exists tool0) H)
      as (tool & Tw & Rw & Kw).
    exists tool. unfold consistent in Kw.
    split; [assumption|]. split; [assumption|].
    rewrite Kw. apply expected_status_cases.
  - intros v stale websocket frame Tv Rv v'.
    destruct (handle_frame_transition websocket frame v)
      as [E | (tool1 & tool' & T1 & T' & C)]; [now left | right].
    rewrite Tv in T1. injection T1 as <-.
    destruct (commits_preserves _ _ C Rv) as (_ & _ & _ & K').
    now exists tool'.
Qed.

Lemma status_follows_quantity_witness :
  let w := run (handle_frame 1%nat (Json (request (Borrow 9)))) busy_world in
  exists tool,
    tools (db w) = Some tool /\
    status tool = expected_status (current_quantity tool) (threshold tool) /\
    (status tool = LOW <-> 0 < current_quantity tool <= threshold tool).
Proof.
  intro w.
  assert (R : in_range (default_tool 0)) by (unfold in_range; cbn; lia).
  destruct (status_follows_quantity busy_world w (default_tool 0)
              eq_refl R eq_refl
              (reach_frame busy_world busy_world 1%nat
                 (Json (request (Borrow 9))) (reach_start busy_world)))
    as ((tool & T & S & _ & L & _) & _).
  exists tool. split; [exact T|]. split; [exact S | exact L].
Defined.

(* ------------------------------------------------------------------ *)
(** * Sensor updates *)
(* ------------------------------------------------------------------ *)

Lemma healed_unit_nonzero (tool : Tool) :
  PrimFloat.eqb (unit_weight (heal_unit_weight tool)) 0%float = false.
Proof.
  unfold heal_unit_weight.
  destruct (PrimFloat.leb (unit_weight tool) 0%float) eqn:L;
    [reflexivity|].
  rewrite FloatAxioms.leb_spec in L. rewrite FloatAxioms.eqb_spec.
  unfold SFleb in L. unfold SFeqb.
  destruct (SFcompare _ _) as [[]|]; congruence.
Qed.

Lemma truediv_healed (weight : Py.num) (tool : Tool) (x : float) :
  Py.as_float weight = Ok x ->
  Py.truediv weight (unit_weight (heal_unit_weight tool)) =
  Ok (PrimFloat.div x (unit_weight (heal_unit_weight tool))).
Proof.
  intro H. unfold Py.truediv. now rewrite H, healed_unit_nonzero.
Qed.

Lemma magnitude_down_nonneg (m : positive) (e : Z) :
  0 <= Py.magnitude_down m e.
Proof.
  unfold Py.magnitude_down. destruct e.
  - lia.
  - apply Z.shiftl_nonneg. lia.
  - apply Z.shiftr_nonneg. lia.
Qed.

(** On a finite float [int] and [floor] are defined; they agree from 0
    upwards, and below 0 neither is positive. *)
Lemma int_and_floor (f : float) :
  Py.finite f = true ->
  exists n m,
    Py.int_of_float f = Ok n /\ Py.floor_of_float f = Ok m /\
    (n = m \/ (n <= 0 /\ m < 0)).
Proof.
  unfold Py.finite, Py.int_of_float, Py.floor_of_float.
  destruct (Prim2SF f) as [s | s | | s m e]; try discriminate; intros _.
  - exists 0, 0. now repeat split; try left.
  - assert (P := magnitude_down_nonneg m e).
    destruct s; [destruct (Py.is_integral m e)|];
      do 2 eexists; (split; [reflexivity|]); (split; [reflexivity|]);
      try (now left); right; lia.
Qed.

Lemma clamp_below (hi n m : Z) :
  0 <= hi -> n <= 0 -> m < 0 -> clamp hi n = clamp hi m.
Proof. unfold clamp. lia. Qed.

(** When the weight does not convert, or the quotient is infinite or
    not a number, the estimate raises. *)
Lemma estimate_raises (weight : Py.num) (tool : Tool) :
  (forall x, Py.as_float weight = Ok x ->
             Py.finite
               (PrimFloat.div x (unit_weight (heal_unit_weight tool))) =
             false) ->
  exists e, estimate weight tool = Raise e.
Proof.
  intro N. unfold estimate.
  destruct (Py.as_float weight) as [x|e] eqn:X.
  - rewrite (truediv_healed _ _ _ X). specialize (N x eq_refl).
    unfold Py.finite in N. unfold Py.int_of_float.
    destruct (Prim2SF _); try discriminate; eexists; reflexivity.
  - exists e. unfold Py.truediv. now rewrite X.
Qed.

(** C5, as the code has it.  When the weight converts to a float and its
    quotient by the unit weight (replaced by 100 if it was not positive)
    is finite, and the total is not negative, the update commits: the
    stored quantity becomes the quotient truncated by [int] and clamped
    into [[0, total]], which is also its floor clamped; the reply reports
    success.  In every other case, a weight too large for a float or a
    quotient that is infinite or not a number, the conversion raises:
    the database is left as it was and the requester, and nobody else,
    gets the error reply with that exception.  With a unit weight of 100
    a weight of 350 gives the estimate 3, and with a total of 10 a weight
    of 1200 leaves 10 in stock. *)
Theorem sensor_update_commits :
  (forall (websocket : WebSocket) (message : Message) (w : World)
          (weight : Py.num) (tool : Tool) (x : float),
      current_weight message = Some weight ->
      tools (db w) = Some tool ->
      Py.as_float weight = Ok x ->
      let unit :=
        if PrimFloat.leb (unit_weight tool) 0%float then 100%float
        else unit_weight tool in
      Py.finite (PrimFloat.div x unit) = true ->
      0 <= total_quantity tool ->
      let b := sensor_update websocket message in
      exists n m tool',
        Py.int_of_float (PrimFloat.div x unit) = Ok n /\
        Py.floor_of_float (PrimFloat.div x unit) = Ok m /\
        tools (db (run b w)) = Some tool' /\
        current_quantity tool' = clamp (total_quantity tool) n /\
        current_quantity tool' = clamp (total_quantity tool) m /\
        unit_weight tool' = unit /\
        succeeded b w = true /\
        data_field "estimated_quantity"
          (sensor_success weight n tool' (clock w + 1)) = Some (VInt n) /\
        first_reply b w = Some (sensor_success weight n tool' (clock w + 1))) /\
  (forall (websocket : WebSocket) (message : Message) (w : World)
          (weight : Py.num) (tool : Tool),
      current_weight message = Some weight ->
      tools (db w) = Some tool ->
      let unit :=
        if PrimFloat.leb (unit_weight tool) 0%float then 100%float
        else unit_weight tool in
      (forall x, Py.as_float weight = Ok x ->
                 Py.finite (PrimFloat.div x unit) = false) ->
      let b := sensor_update websocket message in
      exists e,
        estimate weight tool = Raise e /\
        db (run b w) = db w /\
        awaited b w =
          [SendPersonal
             (error_response "sensor_update" "传感器更新失败: " e (clock w))
             websocket] /\
        sent (events_of b w) =
          [(websocket,
            error_response "sensor_update" "传感器更新失败: " e (clock w))] /\
        succeeded b w = false) /\
  (let b := sensor_update 0%nat (weighing (Py.Int 350)) in
   estimate (Py.Int 350) (default_tool 0) = Ok 3 /\
   stock (run b busy_world) = Some 3) /\
  (let b := sensor_update 0%nat (weighing (Py.Int 1200)) in
   estimate (Py.Int 1200) (default_tool 0) = Ok 12 /\
   stock (run b busy_world) = Some 10).
Proof.
  assert (U : forall tool,
             unit_weight (heal_unit_weight tool) =
             if PrimFloat.leb (unit_weight tool) 0%float then 100%float
             else unit_weight tool)
    by (intro tool; unfold heal_unit_weight;
        now destruct (PrimFloat.leb (unit_weight tool) 0%float)).
  split; [|split; [|split; split; reflexivity]].
  - intros websocket message w weight tool x H T X unit F P b.
    specialize (U tool). fold unit in U.
    destruct (int_and_floor _ F) as (n & m & In & Fl & Rel).
    assert (E : estimate weight tool = Ok n)
      by (unfold estimate; now rewrite (truediv_healed _ _ _ X), U).
    destruct (run_sensor_success websocket message w weight tool n H T E)
      as (R & _ & A & _).
    set (y := set_current_quantity (heal_unit_weight tool) n) in *.
    set (tool' := set_last_updated (update_status (limit_quantity y))
                    (clock w)) in *.
    destruct (heal_unit_weight_fields tool) as (Ht & _).
    assert (Ty : total_quantity y = total_quantity tool)
      by (cbn; assumption).
    assert (Q : current_quantity tool' = clamp (total_quantity tool) n).
    { unfold tool'.
      destruct (stamped_fields (limit_quantity y) (clock w)) as (_ & -> & _).
      rewrite limit_quantity_clamp by (rewrite Ty; assumption).
      now rewrite Ty. }
    exists n, m, tool'. fold b in R, A.
    repeat split; try assumption.
    + rewrite Q. destruct Rel as [-> | [Hn Hm]];
        [reflexivity | now apply clamp_below].
    + subst tool' y. unfold update_status, limit_quantity. cbn.
      repeat match goal with
             | |- context [if ?c then _ else _] => destruct c
             end;
        assumption.
    + unfold succeeded. now rewrite A.
    + unfold first_reply. now rewrite A.
  - intros websocket message w weight tool H T unit N b.
    specialize (U tool). fold unit in U. rewrite <- U in N.
    destruct (estimate_raises weight tool N) as (e & E).
    exists e. split; [exact E|].
    assert (S := sensor_update_raises websocket message w weight tool e
                   H T E).
    fold b in S.
    assert (R := run_reply _ _ _ _ _ S).
    assert (A := awaited_reply _ _ _ _ _ S).
    split; [now rewrite R|]. split; [exact A|].
    split.
    + erewrite events_of_app
        by (rewrite R; cbn [trace set_trace set_clock broken_sockets];
            rewrite <- app_assoc; reflexivity).
      rewrite sent_app, sent_personal. reflexivity.
    + unfold succeeded. now rewrite A.
Qed.

Lemma sensor_update_commits_witness :
  (let b := sensor_update 0%nat (weighing (Py.Int 350)) in
   exists n m tool',
     Py.int_of_float (PrimFloat.div 350%float 100%float) = Ok n /\
     Py.floor_of_float (PrimFloat.div 350%float 100%float) = Ok m /\
     tools (db (run b busy_world)) = Some tool' /\
     current_quantity tool' = clamp 10 n /\
     current_quantity tool' = clamp 10 m /\
     unit_weight tool' = 100%float /\
     succeeded b busy_world = true /\
     data_field "estimated_quantity" (sensor_success (Py.Int 350) n tool' 2) =
       Some (VInt n) /\
     first_reply b busy_world = Some (sensor_success (Py.Int 350) n tool' 2)) /\
  (let b := sensor_update 0%nat (weighing (Py.Float infinity)) in
   exists e,
     estimate (Py.Float infinity) (default_tool 0) = Raise e /\
     db (run b busy_world) = db busy_world /\
     succeeded b busy_world = false).
Proof.
  split.
  - intro b.
    apply (proj1 sensor_update_commits 0%nat (weighing (Py.Int 350))
             busy_world (Py.Int 350) (default_tool 0) 350%float);
      [reflexivity | reflexivity | reflexivity | reflexivity | cbn; lia].
  - intro b.
    destruct (proj1 (proj2 sensor_update_commits) 0%nat
                (weighing (Py.Float infinity)) busy_world
                (Py.Float infinity) (default_tool 0) eq_refl eq_refl)
      as (e & E & D & _ & _ & S).
    + intros x X. injection X as <-. reflexivity.
    + exists e. split; [exact E|]. split; [exact D | exact S].
Defined.

(** C5 as stated fails.  A weight of [10^400] is a JSON integer; its
    exact quotient by the unit weight 100, clamped, is the total 10.  The
    conversion of the weight to a float overflows instead, the handler
    answers with an error and the 4 pieces in stock stay 4. *)
Lemma sensor_update_overflow_rejected :
  let b := sensor_update 0%nat (weighing (Py.Int (10 ^ 400))) in
  let w := stocked 4 in
  stock w = Some 4 /\
  first_reply b w =
    Some (error_response "sensor_update" "传感器更新失败: "
            (Py.OverflowError "int too large to convert to float") 1) /\
  succeeded b w = false /\
  db (run b w) = db w /\
  stock (run b w) <> Some (clamp 10 (10 ^ 400 / 100)).
Proof.
  intros b w.
  assert (C : clamp 10 (10 ^ 400 / 100) = 10) by (vm_compute; reflexivity).
  rewrite C.
  assert (S : stock (run b w) = Some 4) by (vm_compute; reflexivity).
  rewrite S.
  repeat split; try (vm_compute; reflexivity). discriminate.
Qed.

(** C10 as stated fails.  For a weight of -50 and a unit weight of 100
    the floor of the quotient is -1, outside [[0, 10]], while [int]
    gives 0: the reply carries 0 in both fields. *)
Lemma negative_floor_same_fields :
  let b := sensor_update 0%nat (weighing (Py.Int (-50))) in
  let quotient := PrimFloat.div (-50)%float 100%float in
  exists reply,
    Py.truediv (Py.Int (-50)) (unit_weight (default_tool 0)) = Ok quotient /\
    Py.floor_of_float quotient = Ok (-1) /\
    ~ 0 <= -1 <= total_quantity (default_tool 0) /\
    first_reply b busy_world = Some reply /\
    field "success" reply = Some (VBool true) /\
    data_field "estimated_quantity" reply = Some (VInt 0) /\
    data_field "current_quantity" reply = Some (VInt 0).
Proof.
  intros b quotient. eexists.
  repeat split; try (vm_compute; reflexivity). cbn; lia.
Qed.

Lemma failure_not_success (act : string) (message : value) (t : Z) :
  field "success" (failure act message t) <> Some (VBool true).
Proof. discriminate. Qed.

Lemma error_not_success (act prefix : string) (e : Py.exn) (t : Z) :
  field "success" (error_response act prefix e t) <> Some (VBool true).
Proof.
  unfold error_response, field.
  destruct (String.eqb "success" "type") eqn:A; [discriminate A|].
  destruct (String.eqb "success" "action") eqn:B; [discriminate B|].
  destruct (String.eqb "success" "message") eqn:C; [discriminate C|].
  destruct (String.eqb "success" "timestamp") eqn:D; [discriminate D|].
  discriminate.
Qed.

(** C10, as the code has it.  In every success reply of a sensor update,
    [estimated_quantity] is [int(current_weight / unit_weight)], the
    quotient truncated toward zero, and [current_quantity] is the
    quantity committed; the two differ exactly when the truncated
    quotient is negative or above the total.  A weight of 1200 is
    reported as an estimate of 12 with a total of 10, a weight of -150 as
    an estimate of -1. *)
Theorem sensor_reply_estimate :
  (forall (websocket : WebSocket) (message : Message) (w : World)
          (reply : Msg),
      let b := sensor_update websocket message in
      first_reply b w = Some reply ->
      field "success" reply = Some (VBool true) ->
      exists weight tool n tool',
        current_weight message = Some weight /\
        tools (db w) = Some tool /\
        estimate weight tool = Ok n /\
        tools (db (run b w)) = Some tool' /\
        data_field "estimated_quantity" reply = Some (VInt n) /\
        data_field "current_quantity" reply =
          Some (VInt (current_quantity tool')) /\
        (n <> current_quantity tool' <->
         n < 0 \/ total_quantity tool < n)) /\
  (let b := sensor_update 0%nat (weighing (Py.Int 1200)) in
   option_map (data_field "estimated_quantity") (first_reply b busy_world) =
     Some (Some (VInt 12)) /\
   option_map (data_field "current_quantity") (first_reply b busy_world) =
     Some (Some (VInt 10))) /\
  (let b := sensor_update 0%nat (weighing (Py.Int (-150))) in
   option_map (data_field "estimated_quantity") (first_reply b busy_world) =
     Some (Some (VInt (-1))) /\
   option_map (data_field "current_quantity") (first_reply b busy_world) =
     Some (Some (VInt 0))).
Proof.
  split; [|split; split; vm_compute; reflexivity].
  intros websocket message w reply b F S. unfold first_reply in F.
  destruct (current_weight message) as [weight|] eqn:H.
  2:{ unfold b in F.
      rewrite (awaited_reply _ _ _ _ _
                 (sensor_update_no_weight websocket message w H)) in F.
      injection F as <-. now apply failure_not_success in S. }
  destruct (tools (db w)) as [tool|] eqn:T.
  2:{ unfold b in F.
      rewrite (awaited_reply _ _ _ _ _
                 (sensor_update_missing websocket message w weight H T)) in F.
      injection F as <-. now apply failure_not_success in S. }
  destruct (estimate weight tool) as [n|e] eqn:E.
  2:{ unfold b in F.
      rewrite (awaited_reply _ _ _ _ _
                 (sensor_update_raises websocket message w weight tool e
                    H T E)) in F.
      injection F as <-. now apply error_not_success in S. }
  destruct (run_sensor_success websocket message w weight tool n H T E)
    as (R & _ & A & _).
  fold b in R, A. rewrite A in F. injection F as <-.
  set (y := set_current_quantity (heal_unit_weight tool) n) in *.
  exists weight, tool, n. eexists.
  repeat (split; [first [reflexivity | eassumption]|]).
  destruct (stamped_fields (limit_quantity y) (clock w)) as (_ & -> & _).
  destruct (limit_quantity_fields y) as (_ & _ & ->).
  destruct (heal_unit_weight_fields tool) as (Ht & _).
  cbn. rewrite Ht, Z.gtb_ltb.
  destruct (Z.ltb_spec n 0); [lia|].
  destruct (Z.ltb_spec (total_quantity tool) n); lia.
Qed.

Lemma sensor_reply_estimate_witness :
  let b := sensor_update 0%nat (weighing (Py.Int 1200)) in
  exists weight tool n tool',
    current_weight (weighing (Py.Int 1200)) = Some weight /\
    tools (db busy_world) = Some tool /\
    estimate weight tool = Ok n /\
    tools (db (run b busy_world)) = Some tool' /\
    data_field "estimated_quantity"
      (sensor_success (Py.Int 1200) 12
         (committed (default_tool 0) 10 1) 2) = Some (VInt n) /\
    data_field "current_quantity"
      (sensor_success (Py.Int 1200) 12
         (committed (default_tool 0) 10 1) 2) =
      Some (VInt (current_quantity tool')) /\
    (n <> current_quantity tool' <-> n < 0 \/ total_quantity tool < n).
Proof.
  intro b.
  apply (proj1 sensor_reply_estimate 0%nat (weighing (Py.Int 1200))
           busy_world); reflexivity.
Defined.
(* ------------------------------------------------------------------ *)
(** * The change notification *)
(* ------------------------------------------------------------------ *)

(** A handler that only replies and leaves the row as it was announces
    nothing. *)
Lemma reply_only_law (websocket : WebSocket) (b : Block)
    (w w1 : World) (reply : Msg) (before : list Event) :
  b w = (w1, Await (SendPersonal reply websocket) done) ->
  trace w1 = trace w ++ before ->
  sent before = [] ->
  broken_sockets w1 = broken_sockets w ->
  tools (db w1) = tools (db w) ->
  change_law websocket b w.
Proof.
  intros E Ht Hs Hb Hd.
  assert (A := awaited_reply _ _ _ _ _ E).
  assert (R := run_reply _ _ _ _ _ E).
  assert (N : quantity_changed w (run b w) = false).
  { unfold quantity_changed. rewrite R. cbn [db set_trace]. rewrite Hd.
    destruct (tools (db w)); [now rewrite Z.eqb_refl | reflexivity]. }
  exists reply, []. rewrite N.
  assert (Ev : events_of b w =
               before ++ personal_events (broken_sockets w1) websocket reply).
  { apply events_of_app. rewrite R. cbn. now rewrite Ht, <- app_assoc. }
  rewrite Ev, sent_app, Hs, sent_personal.
  repeat split; try assumption; constructor.
Qed.

(** A handler that commits [tool'] over [tool] with another quantity,
    replies and announces the change. *)
Lemma announce_law (websocket : WebSocket) (b : Block)
    (w : World) (tool tool' : Tool) (reply : Msg) (t : Z)
    (before : list Event) :
  let note := inventory_changed (current_quantity tool) tool' t in
  tools (db w) = Some tool ->
  tools (db (run b w)) = Some tool' ->
  awaited b w = [SendPersonal reply websocket; Broadcast note] ->
  trace (run b w) =
    trace w ++ before ++
    personal_events (broken_sockets w) websocket reply ++
    broadcast_events (broken_sockets w) (active_connections w) note ->
  sent before = [] ->
  current_quantity tool <> current_quantity tool' ->
  change_law websocket b w.
Proof.
  intros note T T' A Ht Hs N.
  assert (C : quantity_changed w (run b w) = true).
  { unfold quantity_changed. rewrite T, T'.
    now destruct (Z.eqb_spec (current_quantity tool)
                    (current_quantity tool')). }
  exists reply, [note]. rewrite C, A.
  rewrite (events_of_app _ _ _ Ht).
  rewrite !sent_app, Hs, sent_personal, sent_broadcast. cbn.
  rewrite app_nil_r. unfold stock. rewrite T, T'. cbn.
  repeat split; try reflexivity.
  - repeat constructor.
  - intro H. constructor; [|constructor]. right.
    apply in_map_iff. now exists websocket.
Qed.

Lemma committed_quantity (tool : Tool) (q t : Z) :
  current_quantity (committed tool q t) = q.
Proof.
  unfold committed.
  now destruct (stamped_fields (set_current_quantity tool q) t)
    as (_ & -> & _).
Qed.

(** X24.  The change notification follows the commit.  As long as the
    history table takes the writes, and for a sensor update in any
    case, a handler awaits one personal reply and then exactly one
    [inventory_changed] broadcast when its run has changed the stored
    quantity, and no broadcast when the quantity is as it was (a refused
    request, an error, a sensor reading that gives the same quantity).
    The broadcast carries the quantity before and after and is sent to
    every connection registered at that moment, the requester among them
    when it is registered. *)
Theorem quantity_change_announced (kind : Mutation)
    (websocket : WebSocket) (message : Message) (w : World) :
  history_fault w = false \/ kind = BySensor ->
  change_law websocket (handler kind websocket message) w.
Proof.
  intro F. destruct kind; cbn [handler].
  - (* borrow *)
    destruct F as [F | F]; [|discriminate].
    set (q := dict_get (quantity message) 1).
    destruct (Z.leb_spec q 0) as [Hq|Hq].
    { eapply reply_only_law with (before := []);
        [exact (borrow_tool_invalid websocket message w Hq)
        | cbn; now rewrite app_nil_r | reflexivity | reflexivity
        | reflexivity]. }
    destruct (tools (db w)) as [tool|] eqn:T.
    2:{ eapply reply_only_law with (before := []);
          [exact (borrow_tool_missing websocket message w Hq T)
          | cbn; now rewrite app_nil_r | reflexivity | reflexivity
          | reflexivity]. }
    destruct (Z.ltb_spec (current_quantity tool) q) as [L|L].
    { eapply reply_only_law with (before := []);
        [exact (borrow_tool_insufficient websocket message w tool Hq T L)
        | cbn; now rewrite app_nil_r | reflexivity | reflexivity
        | reflexivity]. }
    destruct (run_borrow_success websocket message w tool T (conj Hq L) F)
      as (R & A & Ht & _).
    match type of Ht with
    | _ = _ ++ ?a :: ?l ++ _ =>
        eapply announce_law with (before := a :: l);
          [exact T | exact R | exact A | exact Ht | |]
    end.
    + now rewrite F.
    + rewrite committed_quantity. fold q. lia.
  - (* return *)
    destruct F as [F | F]; [|discriminate].
    set (q := dict_get (quantity message) 1).
    destruct (Z.leb_spec q 0) as [Hq|Hq].
    { eapply reply_only_law with (before := []);
        [exact (return_tool_invalid websocket message w Hq)
        | cbn; now rewrite app_nil_r | reflexivity | reflexivity
        | reflexivity]. }
    destruct (tools (db w)) as [tool|] eqn:T.
    2:{ eapply reply_only_law with (before := []);
          [exact (return_tool_missing websocket message w Hq T)
          | cbn; now rewrite app_nil_r | reflexivity | reflexivity
          | reflexivity]. }
    destruct (Z.ltb_spec (total_quantity tool) (current_quantity tool + q))
      as [L|L].
    { eapply reply_only_law with (before := []);
        [exact (return_tool_overflow websocket message w tool Hq T
                  ltac:(lia))
        | cbn; now rewrite app_nil_r | reflexivity | reflexivity
        | reflexivity]. }
    destruct (run_return_success websocket message w tool T Hq L F)
      as (t & t' & events & R & A & Ht & Hs & _).
    eapply announce_law; [exact T | exact R | exact A | exact Ht | exact Hs|].
    rewrite committed_quantity. fold q. lia.
  - (* sensor *)
    clear F.
    destruct (current_weight message) as [weight|] eqn:H.
    2:{ eapply reply_only_law with (before := []);
          [exact (sensor_update_no_weight websocket message w H)
          | cbn; now rewrite app_nil_r | reflexivity | reflexivity
          | reflexivity]. }
    destruct (tools (db w)) as [tool|] eqn:T.
    2:{ eapply reply_only_law with (before := []);
          [exact (sensor_update_missing websocket message w weight H T)
          | cbn; now rewrite app_nil_r | reflexivity | reflexivity
          | reflexivity]. }
    destruct (estimate weight tool) as [n|e] eqn:E.
    2:{ eapply reply_only_law;
          [exact (sensor_update_raises websocket message w weight tool e
                    H T E)
          | reflexivity | reflexivity | reflexivity | reflexivity]. }
    destruct (run_sensor_success websocket message w weight tool n H T E)
      as (R & _ & A & S & _).
    set (b := sensor_update websocket message) in *.
    set (tool' := set_last_updated
                    (update_status
                       (limit_quantity
                          (set_current_quantity (heal_unit_weight tool) n)))
                    (clock w)) in *.
    assert (N : quantity_changed w (run b w) =
                negb (current_quantity tool =? current_quantity tool')).
    { unfold quantity_changed. now rewrite T, R. }
    exists (sensor_success weight n tool' (clock w + 1)).
    exists (if negb (current_quantity tool =? current_quantity tool')
            then [inventory_changed (current_quantity tool) tool'
                    (clock w + 2)]
            else []).
    rewrite N, S, A. unfold stock. rewrite T, R.
    destruct (negb (current_quantity tool =? current_quantity tool')); cbn.
    + rewrite app_nil_r. repeat split; try reflexivity.
      * repeat constructor.
      * intro I. constructor; [|constructor]. right.
        apply in_map_iff. now exists websocket.
    + repeat split; try reflexivity; constructor.
Qed.

Lemma quantity_change_announced_witness :
  let w := stocked 4 in
  history_fault w = false /\
  change_law 1%nat (return_tool 1%nat (request (GiveBack 3))) w /\
  quantity_changed w (run (return_tool 1%nat (request (GiveBack 3))) w) = true.
Proof.
  intro w. split; [reflexivity|]. split; [|reflexivity].
  exact (quantity_change_announced ByReturn 1%nat (request (GiveBack 3)) w
           (or_introl eq_refl)).
Defined.

(** C6 fails on the code when the history table refuses the write.
    Connection 1 returns 3 pieces to a stock of 4: the row is committed
    with 7 pieces, then the reply cannot be built, the requester gets the
    error reply of the [except] clause and nothing is broadcast, although
    three connections are registered.  With a table that takes the write
    the same request is announced to all three. *)
Lemma commit_without_broadcast :
  let b := return_tool 1%nat (request (GiveBack 3)) in
  let w := refusing (stocked 4) in
  let e := Py.PendingRollbackError "borrow_records" in
  stock w = Some 4 /\
  stock (run b w) = Some 7 /\
  quantity_changed w (run b w) = true /\
  awaited b w =
    [SendPersonal (error_response "return_tool" "归还失败: " e 4) 1%nat] /\
  broadcasts (awaited b w) = [] /\
  sent (events_of b w) =
    [(1%nat, error_response "return_tool" "归还失败: " e 4)] /\
  active_connections w = [0; 1; 2]%nat /\
  List.length (broadcasts (awaited b (stocked 4))) = 1%nat /\
  List.length (sent (events_of b (stocked 4))) = 4%nat.
Proof. vm_compute. repeat split; reflexivity. Qed.

(* ------------------------------------------------------------------ *)
(** * The quantity left out *)
(* ------------------------------------------------------------------ *)

(** The row after a borrow or a return that the stock allows, whether
    or not the history table takes the write, and whether the reply
    reports success. *)
Lemma row_after_borrow (websocket : WebSocket) (message : Message)
    (w : World) (tool : Tool) :
  let q := dict_get (quantity message) 1 in
  let b := borrow_tool websocket message in
  tools (db w) = Some tool -> 0 < q <= current_quantity tool ->
  tools (db (run b w)) =
    Some (committed tool (current_quantity tool - q) (clock w)) /\
  succeeded b w = negb (history_fault w).
Proof.
  intros q b T H. destruct (history_fault w) eqn:F.
  - destruct (run_borrow_unrecorded websocket message w tool T H F)
      as (D & A & _).
    fold b in D, A. rewrite D. unfold succeeded. now rewrite A.
  - destruct (run_borrow_success websocket message w tool T H F)
      as (R & A & _).
    fold b in R, A. unfold succeeded. now rewrite A.
Qed.

Lemma row_after_return (websocket : WebSocket) (message : Message)
    (w : World) (tool : Tool) :
  let q := dict_get (quantity message) 1 in
  let b := return_tool websocket message in
  tools (db w) = Some tool -> 0 < q ->
  current_quantity tool + q <= total_quantity tool ->
  tools (db (run b w)) =
    Some (committed tool (current_quantity tool + q) (clock w)) /\
  succeeded b w = negb (history_fault w).
Proof.
  intros q b T H L. destruct (history_fault w) eqn:F.
  - destruct (run_return_unrecorded websocket message w tool T H L F)
      as (t & D & A & _).
    fold b in D, A. rewrite D. unfold succeeded. now rewrite A.
  - destruct (run_return_success websocket message w tool T H L F)
      as (t & t' & events & R & A & _).
    fold b in R, A. unfold succeeded. now rewrite A.
Qed.

Lemma stock_after_borrow (websocket : WebSocket) (message : Message)
    (w : World) (tool : Tool) :
  let q := dict_get (quantity message) 1 in
  tools (db w) = Some tool -> 0 < q <= current_quantity tool ->
  stock (run (borrow_tool websocket message) w) =
    Some (current_quantity tool - q).
Proof.
  intros q T H. unfold stock.
  destruct (row_after_borrow websocket message w tool T H) as (-> & _).
  cbn [option_map]. now rewrite committed_quantity.
Qed.

Lemma stock_after_return (websocket : WebSocket) (message : Message)
    (w : World) (tool : Tool) :
  let q := dict_get (quantity message) 1 in
  tools (db w) = Some tool -> 0 < q ->
  current_quantity tool + q <= total_quantity tool ->
  stock (run (return_tool websocket message) w) =
    Some (current_quantity tool + q).
Proof.
  intros q T H L. unfold stock.
  destruct (row_after_return websocket message w tool T H L) as (-> & _).
  cbn [option_map]. now rewrite committed_quantity.
Qed.

(** C9.  A borrow or return message without a [quantity] field is
    handled exactly as the same message with [quantity] 1: it is not
    refused for its quantity; when the stock allows, one piece is
    borrowed or returned, and as long as the history table takes the
    write the reply reports success for 1. *)
Theorem missing_quantity_is_one (websocket : WebSocket) (message : Message) :
  quantity message = None ->
  borrow_tool websocket message =
    borrow_tool websocket (with_quantity message 1) /\
  return_tool websocket message =
    return_tool websocket (with_quantity message 1) /\
  (forall (w : World) (tool : Tool),
      tools (db w) = Some tool -> 1 <= current_quantity tool ->
      let b := borrow_tool websocket message in
      stock (run b w) = Some (current_quantity tool - 1) /\
      (history_fault w = false ->
       succeeded b w = true /\
       option_map (data_field "borrowed_quantity") (first_reply b w) =
         Some (Some (VInt 1)))) /\
  (forall (w : World) (tool : Tool),
      tools (db w) = Some tool ->
      current_quantity tool + 1 <= total_quantity tool ->
      let b := return_tool websocket message in
      stock (run b w) = Some (current_quantity tool + 1) /\
      (history_fault w = false ->
       succeeded b w = true /\
       option_map (data_field "returned_quantity") (first_reply b w) =
         Some (Some (VInt 1)))).
Proof.
  intro H.
  assert (Q : dict_get (quantity message) 1 = 1) by now rewrite H.
  split; [unfold borrow_tool; cbn [quantity with_quantity]; now rewrite H|].
  split; [unfold return_tool; cbn [quantity with_quantity]; now rewrite H|].
  split.
  - intros w tool T L b. split.
    + pose proof (stock_after_borrow websocket message w tool T
                    ltac:(rewrite Q; lia)) as St.
      cbv zeta in St. rewrite Q in St. exact St.
    + intro F.
      destruct (run_borrow_success websocket message w tool T
                  ltac:(rewrite Q; lia) F) as (_ & A & _).
      fold b in A. rewrite Q in *.
      unfold succeeded, first_reply. rewrite A. now split.
  - intros w tool T L b. split.
    + pose proof (stock_after_return websocket message w tool T
                    ltac:(rewrite Q; lia) ltac:(rewrite Q; lia)) as St.
      cbv zeta in St. rewrite Q in St. exact St.
    + intro F.
      destruct (run_return_success websocket message w tool T
                  ltac:(rewrite Q; lia) ltac:(rewrite Q; lia) F)
        as (t & t' & events & _ & A & _).
      fold b in A. rewrite Q in *.
      unfold succeeded, first_reply. rewrite A. now split.
Qed.

Lemma missing_quantity_is_one_witness :
  let message :=
    {| action := Some "borrow_tool"; quantity := None;
       current_weight := None |} in
  quantity message = None /\
  borrow_tool 1%nat message = borrow_tool 1%nat (with_quantity message 1) /\
  (let b := borrow_tool 1%nat message in
   stock (run b busy_world) = Some (10 - 1) /\
   succeeded b busy_world = true /\
   option_map (data_field "borrowed_quantity") (first_reply b busy_world) =
     Some (Some (VInt 1))) /\
  stock (run (borrow_tool 1%nat message) (refusing busy_world)) =
    Some (10 - 1).
Proof.
  intro message. split; [reflexivity|].
  destruct (missing_quantity_is_one 1%nat message eq_refl)
    as (B & _ & S & _).
  split; [exact B|]. split.
  - destruct (S busy_world (default_tool 0) eq_refl ltac:(cbn; lia))
      as (St & Su).
    split; [exact St | exact (Su eq_refl)].
  - exact (proj1 (S (refusing busy_world) (default_tool 0) eq_refl
                    ltac:(cbn; lia))).
Defined.

(* ------------------------------------------------------------------ *)
(** * The history of a borrow *)
(* ------------------------------------------------------------------ *)

(** C7 as stated fails.  Connection 1 borrows 3 pieces: the record of
    the history logger is second in the trace, before anything has been
    sent, and the reply and the broadcast follow it. *)
Lemma history_recorded_before_reply :
  let b := borrow_tool 1%nat (request (Borrow 3)) in
  succeeded b busy_world = true /\
  history_calls (firstn 2 (events_of b busy_world)) =
    [Log RH_LOGGER INFO
       [Lit "记录借出: 数量"; IntHole 3; Lit "个, 时间"; TimeHole 2]] /\
  sent (firstn 2 (events_of b busy_world)) = [] /\
  List.length (sent (skipn 2 (events_of b busy_world))) = 4%nat /\
  history_calls (skipn 2 (events_of b busy_world)) = [] /\
  history_last (events_of b busy_world) = false.
Proof. vm_compute. repeat split; reflexivity. Qed.

(** C7, as the code has it.  A borrow that the stock allows commits
    the row and then, before anything is sent, calls the borrow-history
    collaborator.  Whether or not the collaborator fails, the committed
    row stays; a failure is logged by both loggers and leaves the
    history table as it was.  When the collaborator has recorded the
    borrow, the handler then sends the success reply to the requester
    and after it broadcasts the notification. *)
Theorem borrow_records_then_replies (websocket : WebSocket)
    (message : Message) (w : World) (tool : Tool) :
  let q := dict_get (quantity message) 1 in
  tools (db w) = Some tool ->
  0 < q <= current_quantity tool ->
  let b := borrow_tool websocket message in
  let tool' := committed tool (current_quantity tool - q) (clock w) in
  let fault := history_fault w in
  let t := clock w + 1 + borrow_history_ticks fault in
  let response := borrow_success q tool' t (t + 1) in
  let note := inventory_changed (current_quantity tool) tool' (t + 2) in
  let history := borrow_history_events fault q (clock w + 1) in
  (exists rest,
      events_of b w =
        Log WS_LOGGER INFO
          [Lit "工具借出: 数量"; IntHole q; Lit "个, 库存: ";
           IntHole (current_quantity tool); Lit "->";
           IntHole (current_quantity tool - q)] ::
        history ++ rest) /\
  (exists d, history_calls history = [d]) /\
  sent history = [] /\
  (fault = true ->
   In (Log WS_LOGGER ERROR
         [Lit "记录借出时间失败: ";
          ExnHole (Py.OperationalError "borrow_records")]) history) /\
  tools (db (run b w)) = Some tool' /\
  stock (run b w) = Some (current_quantity tool - q) /\
  borrow_recorded fault q (borrow_records (db w))
    (borrow_records (db (run b w))) /\
  (fault = false ->
   events_of b w =
     Log WS_LOGGER INFO
       [Lit "工具借出: 数量"; IntHole q; Lit "个, 库存: ";
        IntHole (current_quantity tool); Lit "->";
        IntHole (current_quantity tool - q)] ::
     history ++
     personal_events (broken_sockets w) websocket response ++
     broadcast_events (broken_sockets w) (active_connections w) note /\
   awaited b w = [SendPersonal response websocket; Broadcast note] /\
   field "success" response = Some (VBool true) /\
   field "message" response = Some (VStr "借出成功") /\
   data_field "borrowed_quantity" response = Some (VInt q) /\
   data_field "remaining_quantity" response =
     Some (VInt (current_quantity tool - q)) /\
   data_field "status" response =
     Some (VStr (status (update_status
                           (set_current_quantity tool
                              (current_quantity tool - q)))))).
Proof.
  intros q T H b tool'.
  assert (St := stock_after_borrow websocket message w tool T H).
  fold q b in St.
  destruct (history_fault w) eqn:F; intros fault t response note history.
  - destruct (run_borrow_unrecorded websocket message w tool T H F)
      as (D & _ & Ht).
    fold q b tool' in D, Ht.
    split; [eexists; apply events_of_app; exact Ht|].
    split; [eexists; reflexivity|]. split; [reflexivity|].
    split; [intros _; right; now left|].
    split; [now rewrite D|]. split; [exact St|].
    split; [now rewrite D | discriminate].
  - pose proof (run_borrow_success websocket message w tool T H F) as X.
    cbv zeta in X. rewrite F in X.
    fold q b tool' in X. fold t in X. fold response note history in X.
    destruct X as (R & A & Ht & Hrec).
    split; [eexists; apply events_of_app; exact Ht|].
    split; [eexists; reflexivity|]. split; [reflexivity|].
    split; [discriminate|].
    split; [exact R|]. split; [exact St|]. split; [exact Hrec|].
    intros _.
    split; [now apply events_of_app|]. split; [exact A|].
    repeat (split; [reflexivity|]).
    split; [subst response tool'; unfold data_field; cbn;
            now rewrite current_quantity_update_status | reflexivity].
Qed.

Lemma borrow_records_then_replies_witness :
  let b := borrow_tool 1%nat (request (Borrow 3)) in
  tools (db busy_world) = Some (default_tool 0) /\
  0 < 3 <= 10 /\
  awaited b busy_world =
    [SendPersonal (borrow_success 3 (committed (default_tool 0) 7 1) 4 5)
       1%nat;
     Broadcast (inventory_changed 10 (committed (default_tool 0) 7 1) 6)] /\
  stock (run b busy_world) = Some 7 /\
  stock (run b (refusing busy_world)) = Some 7.
Proof.
  intro b. split; [reflexivity|]. split; [lia|].
  destruct (borrow_records_then_replies 1%nat (request (Borrow 3)) busy_world
              (default_tool 0) eq_refl ltac:(cbn; lia))
    as (_ & _ & _ & _ & _ & S & _ & G).
  destruct (G eq_refl) as (_ & A & _).
  split; [exact A|]. split; [exact S|].
  destruct (borrow_records_then_replies 1%nat (request (Borrow 3))
              (refusing busy_world) (default_tool 0) eq_refl
              ltac:(cbn; lia))
    as (_ & _ & _ & _ & _ & S' & _).
  exact S'.
Defined.

(* ------------------------------------------------------------------ *)
(** * Interleaved handlers *)
(* ------------------------------------------------------------------ *)

Lemma done_inert : inert done.
Proof. intro w. split; [reflexivity | constructor]. Qed.

Lemma await_inert (c : Call) (k : Block) :
  inert k -> inert_coro (Await c k).
Proof. intro H. constructor; intro w; apply H. Qed.

Lemma announce_inert (old_quantity : Z) (tool : Tool) :
  inert (announce old_quantity tool).
Proof.
  intro w. split; [reflexivity|]. cbn. apply await_inert, done_inert.
Qed.

Lemma reply_inert (reply : Msg) (websocket : WebSocket) :
  inert_coro (Await (SendPersonal reply websocket) done).
Proof. apply await_inert, done_inert. Qed.

(** What a handler leaves to be done after its first block never writes
    the database. *)
Lemma borrow_tool_rest_inert (websocket : WebSocket) (message : Message)
    (w : World) :
  inert_coro (snd (borrow_tool websocket message w)).
Proof.
  set (q := dict_get (quantity message) 1).
  destruct (Z.leb_spec q 0) as [Hq|Hq].
  { rewrite (borrow_tool_invalid websocket message w Hq).
    apply reply_inert. }
  destruct (tools (db w)) as [tool|] eqn:T.
  2:{ rewrite (borrow_tool_missing websocket message w Hq T).
      apply reply_inert. }
  destruct (Z.ltb_spec (current_quantity tool) q) as [L|L].
  { rewrite (borrow_tool_insufficient websocket message w tool Hq T L).
    apply reply_inert. }
  destruct (borrow_tool_commits websocket message w tool T (conj Hq L))
    as (w' & reply & k & -> & [-> | ->] & _).
  - apply reply_inert.
  - apply await_inert, announce_inert.
Qed.

Lemma return_tool_rest_inert (websocket : WebSocket) (message : Message)
    (w : World) :
  inert_coro (snd (return_tool websocket message w)).
Proof.
  set (q := dict_get (quantity message) 1).
  destruct (Z.leb_spec q 0) as [Hq|Hq].
  { rewrite (return_tool_invalid websocket message w Hq).
    apply reply_inert. }
  destruct (tools (db w)) as [tool|] eqn:T.
  2:{ rewrite (return_tool_missing websocket message w Hq T).
      apply reply_inert. }
  destruct (Z.ltb_spec (total_quantity tool) (current_quantity tool + q))
    as [L|L].
  { rewrite (return_tool_overflow websocket message w tool Hq T ltac:(lia)).
    apply reply_inert. }
  destruct (return_tool_commits websocket message w tool T Hq L)
    as (w' & reply & k & -> & [-> | ->] & _).
  - apply reply_inert.
  - apply await_inert, announce_inert.
Qed.

Lemma sensor_update_rest_inert (websocket : WebSocket) (message : Message)
    (w : World) :
  inert_coro (snd (sensor_update websocket message w)).
Proof.
  destruct (current_weight message) as [weight|] eqn:H.
  2:{ rewrite (sensor_update_no_weight websocket message w H).
      apply reply_inert. }
  destruct (tools (db w)) as [tool|] eqn:T.
  2:{ rewrite (sensor_update_missing websocket message w weight H T).
      apply reply_inert. }
  destruct (estimate weight tool) as [n|e] eqn:E.
  2:{ rewrite (sensor_update_raises websocket message w weight tool e H T E).
      apply reply_inert. }
  rewrite (sensor_update_success websocket message w weight tool n H T E).
  apply await_inert. intro v.
  destruct (negb _); [apply announce_inert | apply done_inert].
Qed.

Lemma handle_frame_rest_inert (websocket : WebSocket) (frame : Frame)
    (w : World) :
  inert_coro (snd (handle_frame websocket frame w)).
Proof.
  destruct frame as [error | message]; [apply reply_inert|].
  cbn [handle_frame]. unfold process_websocket_message.
  destruct (String.eqb _ "get_tool_status").
  { match goal with
    | |- context [get_tool_status websocket ?v] =>
        destruct (get_tool_status_run websocket v) as (r & ->)
    end.
    apply reply_inert. }
  destruct (String.eqb _ "borrow_tool"); [apply borrow_tool_rest_inert|].
  destruct (String.eqb _ "return_tool"); [apply return_tool_rest_inert|].
  destruct (String.eqb _ "sensor_update"); [apply sensor_update_rest_inert|].
  destruct (String.eqb _ "ping"); apply reply_inert.
Qed.

(** Running inert code to its end leaves the database alone. *)
Lemma resume_inert (c : Coro) :
  inert_coro c -> forall w, db (resume c w) = db w.
Proof.
  induction 1 as [| call k D _ IH]; intro w; [reflexivity|].
  cbn. specialize (D (perform call w)). specialize (IH (perform call w)).
  destruct (k (perform call w)) as [w' c']. cbn in D, IH.
  now rewrite IH, D, perform_db.
Qed.

Lemma connect_db (websocket : WebSocket) (w : World) :
  db (snd (connect websocket w)) = db w.
Proof. reflexivity. Qed.

Lemma disconnect_db (websocket : WebSocket) (w : World) :
  db (snd (disconnect websocket w)) = db w.
Proof. unfold disconnect. now destruct (existsb _ _). Qed.

Lemma park_db (websocket : WebSocket) (w : World) (c : Coro)
    (others : list (WebSocket * Block)) :
  db (world (park websocket (w, c) others)) = db w.
Proof. destruct c; cbn; [reflexivity | apply perform_db]. Qed.

Lemma park_inert (websocket : WebSocket) (w : World) (c : Coro)
    (others : list (WebSocket * Block)) :
  inert_coro c ->
  (forall ws k, In (ws, k) others -> inert k) ->
  parked_inert (park websocket (w, c) others).
Proof.
  intros I O ws k H. destruct c as [| call k']; cbn in H.
  - now apply (O ws).
  - destruct H as [H | H]; [|now apply (O ws)].
    injection H as <- <-. inversion I; subst. intro v. now split.
Qed.

Lemma step_keeps_inert (s s' : System) :
  step s s' -> parked_inert s -> parked_inert s'.
Proof.
  intros H P. destruct H as [s ws frame _ _ | s ws k before after E | | |].
  - destruct (handle_frame ws frame (world s)) as [w c] eqn:F.
    apply park_inert; [|exact P].
    change c with (snd (w, c)). rewrite <- F. apply handle_frame_rest_inert.
  - assert (K : inert k)
      by (apply (P ws); rewrite E; apply in_or_app; right; now left).
    destruct (K (world s)) as [_ C].
    destruct (k (world s)) as [w c]. apply park_inert; [exact C|].
    intros ws' k' H. apply (P ws'). rewrite E.
    apply in_app_or in H. apply in_or_app.
    destruct H; [now left | right; now right].
  - exact P.
  - exact P.
  - exact P.
Qed.

Lemma steps_keep_inert (s0 s : System) :
  steps s0 s -> suspended s0 = [] -> parked_inert s.
Proof.
  induction 1 as [s | s s' s'' _ IH H]; intro E.
  - intros ws k I. rewrite E in I. destruct I.
  - apply (step_keeps_inert _ _ H). now apply IH.
Qed.

(** A block of the loop leaves the database alone or changes it as the
    whole run of one frame does. *)
Lemma step_db (s s' : System) :
  step s s' -> parked_inert s ->
  db (world s') = db (world s) \/
  exists websocket frame,
    In websocket (active_connections (world s)) /\
    db (world s') = db (run (handle_frame websocket frame) (world s)).
Proof.
  intros H P. destruct H as [s ws frame I _ | s ws k before after E | | |].
  - right. exists ws, frame. split; [exact I|].
    assert (R := handle_frame_rest_inert ws frame (world s)).
    unfold run.
    destruct (handle_frame ws frame (world s)) as [w c]. cbn in R.
    now rewrite park_db, resume_inert.
  - left.
    assert (K : inert k)
      by (apply (P ws); rewrite E; apply in_or_app; right; now left).
    destruct (K (world s)) as [D _].
    destruct (k (world s)) as [w c]. now rewrite park_db.
  - left. apply connect_db.
  - left. apply disconnect_db.
  - left. assumption.
Qed.

(** C8.  In the three mutating handlers every access to the database,
    from the query of the row to the commit, lies in the first block of
    the coroutine, before its first [await]: what is left to run after it
    never writes the database.  The event loop runs one block at a time,
    so in every interleaving of the handlers of any number of
    connections a block either leaves the database as it was or takes it
    to the state the whole handler, run alone from the state at hand,
    would leave; the state reached is one reached by running the frames
    one after the other. *)
Theorem mutations_serialized (s0 s s' : System) :
  suspended s0 = [] ->
  steps s0 s ->
  (forall websocket message w,
      inert_coro (snd (borrow_tool websocket message w)) /\
      inert_coro (snd (return_tool websocket message w)) /\
      inert_coro (snd (sensor_update websocket message w))) /\
  (step s s' ->
   db (world s') = db (world s) \/
   exists websocket frame,
     In websocket (active_connections (world s)) /\
     db (world s') = db (run (handle_frame websocket frame) (world s))) /\
  reachable_from (world s0) (world s).
Proof.
  intros E H. split; [|split].
  - intros websocket message w.
    split; [apply borrow_tool_rest_inert|].
    split; [apply return_tool_rest_inert | apply sensor_update_rest_inert].
  - intro S. apply step_db; [exact S|]. now apply (steps_keep_inert s0).
  - clear s'. induction H as [s | s s' s'' H1 IH H2].
    + constructor.
    + specialize (IH E).
      destruct (step_db _ _ H2 (steps_keep_inert _ _ H1 E))
        as [D | (ws & frame & _ & D)].
      * now apply reach_environment with (w := world s').
      * apply reach_environment
          with (w := run (handle_frame ws frame) (world s'));
          [now apply reach_frame | exact D].
Qed.

Lemma mutations_serialized_witness :
  let s0 := at_rest busy_world in
  let frame := Json (request (Borrow 1)) in
  let s1 := park 0%nat (handle_frame 0%nat frame busy_world) [] in
  let s2 := park 1%nat (handle_frame 1%nat frame (world s1)) (suspended s1) in
  suspended s0 = [] /\
  steps s0 s1 /\
  step s1 s2 /\
  (db (world s2) = db (world s1) \/
   exists websocket frame',
     In websocket (active_connections (world s1)) /\
     db (world s2) = db (run (handle_frame websocket frame') (world s1))) /\
  reachable_from (world s0) (world s1) /\
  stock (world s2) = Some 8.
Proof.
  intros s0 frame s1 s2.
  assert (I0 : idle 0%nat s0) by (intros k []).
  assert (S1 : step s0 s1)
    by (apply (step_receive s0 0%nat frame); [now left | exact I0]).
  assert (H1 : steps s0 s1)
    by (apply steps_step with (s' := s0); [constructor | exact S1]).
  assert (I1 : idle 1%nat s1).
  { intros k [H | []]. discriminate H. }
  assert (S2 : step s1 s2)
    by (apply (step_receive s1 1%nat frame); [right; now left | exact I1]).
  destruct (mutations_serialized s0 s1 s2 eq_refl H1) as (_ & D & R).
  split; [reflexivity|]. split; [exact H1|]. split; [exact S2|].
  split; [exact (D S2)|]. split; [exact R|].
  vm_compute. reflexivity.
Defined.

(* ------------------------------------------------------------------ *)
(** * The registry of connections *)
(* ------------------------------------------------------------------ *)

Lemma existsb_eqb_In (x : WebSocket) (l : list WebSocket) :
  existsb (Nat.eqb x) l = true <-> In x l.
Proof.
  rewrite existsb_exists. split.
  - intros (y & I & E). apply Nat.eqb_eq in E. now subst.
  - intro I. exists x. split; [exact I | apply Nat.eqb_refl].
Qed.

Lemma registrations_remove (x c : WebSocket) (l : list WebSocket) :
  registrations c (list_remove x l) =
  (registrations c l -
   (if Nat.eqb c x && existsb (Nat.eqb x) l then 1 else 0))%nat.
Proof.
  unfold registrations.
  induction l as [|y l IH]; cbn [list_remove count_occ existsb].
  - now rewrite andb_false_r.
  - destruct (Nat.eqb_spec x y) as [<- | N]; cbn [orb].
    + rewrite andb_true_r.
      destruct (Nat.eq_dec x c) as [<- | N'].
      * rewrite Nat.eqb_refl. lia.
      * destruct (Nat.eqb_spec c x); [congruence | lia].
    + cbn [count_occ]. rewrite IH.
      destruct (Nat.eq_dec y c) as [<- | N']; [|reflexivity].
      destruct (Nat.eqb_spec y x); [congruence|]. cbn. lia.
Qed.

Lemma list_remove_last (x : WebSocket) (l : list WebSocket) :
  ~ In x l -> list_remove x (l ++ [x]) = l.
Proof.
  induction l as [|y l IH]; intro N; cbn.
  - now rewrite Nat.eqb_refl.
  - destruct (Nat.eqb_spec x y) as [-> | _].
    + exfalso. apply N. now left.
    + f_equal. apply IH. intro I. apply N. now right.
Qed.

Lemma length_list_remove (x : WebSocket) (l : list WebSocket) :
  existsb (Nat.eqb x) l = true ->
  List.length (list_remove x l) = pred (List.length l).
Proof.
  induction l as [|y l IH]; cbn; [discriminate|].
  destruct (Nat.eqb_spec x y); cbn; [reflexivity|].
  intro E. rewrite IH by exact E.
  destruct l; [discriminate E | reflexivity].
Qed.

Lemma disconnect_run (websocket : WebSocket) (w : World) :
  disconnect websocket w =
  (Ok tt,
   if existsb (Nat.eqb websocket) (active_connections w)
   then
     set_trace
       (set_active_connections w
          (list_remove websocket (active_connections w)))
       (trace w ++
        [Log WS_LOGGER INFO
           [Lit "WebSocket连接断开，剩余连接数: ";
            IntHole
              (Z.of_nat
                 (List.length
                    (list_remove websocket (active_connections w))))]])
   else w).
Proof. unfold disconnect. now destruct (existsb _ _). Qed.

(** [list.remove] takes out the first occurrence and keeps the rest in
    its order. *)
Lemma list_remove_first (x : WebSocket) (l : list WebSocket) :
  In x l ->
  exists before after,
    l = before ++ x :: after /\
    ~ In x before /\
    list_remove x l = before ++ after.
Proof.
  induction l as [|y l IH]; intro I; [contradiction|].
  cbn [list_remove]. destruct (Nat.eqb_spec x y) as [<- | N].
  - exists [], l. split; [reflexivity|]. split; [intros []|reflexivity].
  - destruct I as [E | I]; [congruence|].
    destruct (IH I) as (before & after & -> & B & R).
    exists (y :: before), after. split; [reflexivity|].
    split; [|cbn; now rewrite R].
    intros [E | H]; [congruence | contradiction].
Qed.

(** X1.  [disconnect] takes one registration of the connection out of
    the list, the first, and leaves the others as they are and in their
    order; for a connection that is not registered it does nothing at
    all, not even a log record.  It never raises and never touches the
    database. *)
Theorem disconnect_removes_one (websocket : WebSocket) (w : World) :
  let w' := snd (disconnect websocket w) in
  fst (disconnect websocket w) = Ok tt /\
  db w' = db w /\
  (forall c,
      registrations c (active_connections w') =
      (registrations c (active_connections w) -
       (if Nat.eqb c websocket &&
           existsb (Nat.eqb websocket) (active_connections w)
        then 1 else 0))%nat) /\
  (~ In websocket (active_connections w) -> w' = w) /\
  (In websocket (active_connections w) ->
   (exists before after,
       active_connections w = before ++ websocket :: after /\
       ~ In websocket before /\
       active_connections w' = before ++ after) /\
   List.length (active_connections w') =
     pred (List.length (active_connections w)) /\
   events_between w w' =
     [Log WS_LOGGER INFO
        [Lit "WebSocket连接断开，剩余连接数: ";
         IntHole (Z.of_nat (List.length (active_connections w')))]]).
Proof.
  rewrite disconnect_run. cbn [fst snd].
  destruct (existsb (Nat.eqb websocket) (active_connections w)) eqn:E.
  - cbn [db active_connections set_trace set_active_connections trace].
    split; [reflexivity|]. split; [reflexivity|]. split.
    { intro c. now rewrite registrations_remove, E. }
    split.
    { intro N. apply existsb_eqb_In in E. contradiction. }
    intros I. split; [now apply list_remove_first|].
    split; [now apply length_list_remove|].
    unfold events_between.
    cbn [db active_connections set_trace set_active_connections trace].
    now rewrite skipn_app, skipn_all, Nat.sub_diag.
  - split; [reflexivity|]. split; [reflexivity|]. split.
    { intro c. rewrite andb_false_r. lia. }
    split; [reflexivity|].
    intro I. apply existsb_eqb_In in I. congruence.
Qed.

(** X2.  A connection that was not registered and connects, then
    disconnects, leaves the list of the manager exactly as it found it;
    while connected it is the last of the list. *)
Theorem connect_then_disconnect (websocket : WebSocket) (w : World) :
  ~ In websocket (active_connections w) ->
  let w1 := snd (connect websocket w) in
  let w2 := snd (disconnect websocket w1) in
  active_connections w1 = active_connections w ++ [websocket] /\
  active_connections w2 = active_connections w /\
  db w2 = db w /\
  events_between w w2 =
    [Log WS_LOGGER INFO
       [Lit "新的WebSocket连接，当前连接数: ";
        IntHole (Z.of_nat (S (List.length (active_connections w))))];
     Log WS_LOGGER INFO
       [Lit "WebSocket连接断开，剩余连接数: ";
        IntHole (Z.of_nat (List.length (active_connections w)))]].
Proof.
  intros N w1 w2. subst w2 w1. unfold connect, disconnect, bind, log, emit.
  cbn.
  assert (E : existsb (Nat.eqb websocket)
                (active_connections w ++ [websocket]) = true).
  { apply existsb_eqb_In, in_or_app. right. now left. }
  rewrite E. cbn. rewrite list_remove_last by exact N.
  unfold events_between. cbn.
  rewrite <- app_assoc, skipn_app, skipn_all, Nat.sub_diag.
  rewrite length_app, Nat.add_comm. cbn. now repeat split.
Qed.

Lemma connect_then_disconnect_witness :
  let w1 := snd (connect 7%nat busy_world) in
  let w2 := snd (disconnect 7%nat w1) in
  ~ In 7%nat (active_connections busy_world) /\
  active_connections w1 = [0; 1; 2; 7]%nat /\
  active_connections w2 = [0; 1; 2]%nat.
Proof.
  intros w1 w2.
  assert (N : ~ In 7%nat (active_connections busy_world))
    by (cbn; intros [H | [H | [H | []]]]; discriminate H).
  split; [exact N|].
  destruct (connect_then_disconnect 7%nat busy_world N) as (A & B & _).
  split; [exact A | exact B].
Defined.

Lemma error_logs_app (a b : list Event) :
  error_logs (a ++ b) = error_logs a ++ error_logs b.
Proof.
  induction a as [|[logger [] t|] a IH]; cbn; try assumption;
    [reflexivity | now f_equal].
Qed.

Lemma error_logs_broadcast (broken connections : list WebSocket)
    (message : Msg) :
  List.length (error_logs (broadcast_events broken connections message)) =
  List.length (filter (fun c => existsb (Nat.eqb c) broken) connections).
Proof.
  induction connections as [|c rest IH]; [reflexivity|].
  rewrite broadcast_events_cons, error_logs_app, length_app, IH.
  unfold send_events. cbn [filter].
  now destruct (existsb (Nat.eqb c) broken).
Qed.

(** X3.  [broadcast] never raises, whatever sockets are dead: it calls
    [send_text] once for every entry of the list of the manager, in the
    order of the list, logs one error for each call that fails and goes
    on with the next; it changes neither the list nor the database. *)
Theorem broadcast_reaches_everyone (message : Msg) (w : World) :
  let w' := snd (broadcast message w) in
  fst (broadcast message w) = Ok tt /\
  sent (events_between w w') =
    map (fun c => (c, message)) (active_connections w) /\
  List.length (error_logs (events_between w w')) =
    List.length (filter (fun c => existsb (Nat.eqb c) (broken_sockets w))
                   (active_connections w)) /\
  active_connections w' = active_connections w /\
  db w' = db w /\
  clock w' = clock w.
Proof.
  unfold broadcast. rewrite broadcast_loop_run. cbn.
  unfold events_between. cbn.
  rewrite skipn_app, skipn_all, Nat.sub_diag. cbn.
  rewrite sent_broadcast, error_logs_broadcast. now repeat split.
Qed.

(** X4.  [send_personal_message] never raises: it calls [send_text] once
    on the socket and, when that fails, logs the error and returns; the
    connection stays in the list of the manager and the database is not
    touched. *)
Theorem send_personal_message_contained (message : Msg)
    (websocket : WebSocket) (w : World) :
  let w' := snd (send_personal_message message websocket w) in
  fst (send_personal_message message websocket w) = Ok tt /\
  sent (events_between w w') = [(websocket, message)] /\
  error_logs (events_between w w') =
    (if existsb (Nat.eqb websocket) (broken_sockets w)
     then [Log WS_LOGGER ERROR
             [Lit "发送消息失败: "; ExnHole Py.ConnectionClosed]]
     else []) /\
  active_connections w' = active_connections w /\
  db w' = db w.
Proof.
  rewrite send_personal_message_run. cbn [fst snd].
  unfold events_between.
  cbn [trace set_trace active_connections db].
  rewrite skipn_app, skipn_all, Nat.sub_diag. cbn [skipn app].
  rewrite sent_personal. repeat split.
  unfold personal_events, send_events. now destruct (existsb _ _).
Qed.

(* ------------------------------------------------------------------ *)
(** * What every frame does *)
(* ------------------------------------------------------------------ *)

Lemma only_talk_refl (w : World) : only_talk w w.
Proof.
  unfold only_talk. (do 4 (split; [reflexivity|])). split; [lia|].
  exists []. now rewrite app_nil_r.
Qed.

Lemma only_talk_trans (a b c : World) :
  only_talk a b -> only_talk b c -> only_talk a c.
Proof.
  intros (D1 & A1 & B1 & F1 & C1 & e1 & T1) (D2 & A2 & B2 & F2 & C2 & e2 & T2).
  unfold only_talk. (do 4 (split; [congruence|])). split; [lia|].
  exists (e1 ++ e2). now rewrite T2, T1, app_assoc.
Qed.

Lemma perform_only_talk (c : Call) (w : World) : only_talk w (perform c w).
Proof.
  destruct c; [rewrite perform_send | rewrite perform_broadcast];
    unfold only_talk;
    cbn [db active_connections broken_sockets history_fault clock trace
         set_trace];
    (do 4 (split; [reflexivity|])); (split; [lia|]); eexists; reflexivity.
Qed.

Lemma resume_only_talk (c : Coro) :
  talkative c -> forall w, only_talk w (resume c w).
Proof.
  induction 1 as [| call k D _ IH]; intro w; [apply only_talk_refl|].
  cbn. specialize (D (perform call w)). specialize (IH (perform call w)).
  destruct (k (perform call w)) as [w' c']. cbn in D, IH.
  eapply only_talk_trans; [apply perform_only_talk|].
  eapply only_talk_trans; [exact D | apply IH].
Qed.

Lemma done_talkative : forall w, only_talk w (fst (done w)).
Proof. intro w. apply only_talk_refl. Qed.

Lemma reply_talkative (reply : Msg) (websocket : WebSocket) :
  talkative (Await (SendPersonal reply websocket) done).
Proof. constructor; [apply done_talkative | constructor]. Qed.

Lemma announce_talkative (old_quantity : Z) (tool : Tool)
    (reply : Msg) (websocket : WebSocket) :
  talkative (Await (SendPersonal reply websocket)
               (announce old_quantity tool)).
Proof.
  constructor; intro w; cbn.
  - unfold only_talk.
    cbn [db active_connections broken_sockets history_fault clock trace
         set_clock].
    (do 4 (split; [reflexivity|])). split; [lia|].
    exists []. now rewrite app_nil_r.
  - constructor; [apply done_talkative | constructor].
Qed.

Lemma maybe_announce_talkative (changed : bool) (old_quantity : Z)
    (tool : Tool) (reply : Msg) (websocket : WebSocket) :
  talkative
    (Await (SendPersonal reply websocket)
       (fun w => if changed then announce old_quantity tool w else done w)).
Proof.
  destruct changed;
    [exact (announce_talkative old_quantity tool reply websocket)
    | exact (reply_talkative reply websocket)].
Qed.

(** The first block of every frame, and what is left after it: a reply
    to the sender and then nothing, or the announcement. *)
Lemma handle_frame_shape (websocket : WebSocket) (frame : Frame)
    (w : World) :
  keeps_registry w (fst (handle_frame websocket frame w)) /\
  exists reply k,
    snd (handle_frame websocket frame w) =
      Await (SendPersonal reply websocket) k /\
    (k = done \/ exists old_quantity tool, k = announce old_quantity tool).
Proof.
  assert (K0 : forall v, keeps_registry v (set_clock v (clock v + 1))).
  { intro v. repeat split. exists []. cbn. now rewrite app_nil_r. }
  assert (KT : forall a b c,
             keeps_registry a b -> keeps_registry b c -> keeps_registry a c).
  { intros a b c (A1 & B1 & e1 & T1 & S1) (A2 & B2 & e2 & T2 & S2).
    repeat split; try congruence.
    exists (e1 ++ e2). rewrite T2, T1, app_assoc, sent_app, S1, S2.
    now split. }
  assert (R0 : forall v (r : Msg),
             keeps_registry v (set_clock v (clock v + 1)) /\
             exists reply k,
               Await (SendPersonal r websocket) done =
                 Await (SendPersonal reply websocket) k /\
               (k = done \/
                exists old_quantity tool, k = announce old_quantity tool)).
  { intros v r. split; [apply K0|]. exists r, done. split; [reflexivity|].
    now left. }
  destruct frame as [error | message]; [apply R0|].
  cbn [handle_frame].
  set (w0 := snd (log WS_LOGGER INFO
                    [Lit "收到WebSocket消息: "; DictHole (keys_of message)] w)).
  assert (L0 : keeps_registry w w0)
    by (repeat split; eexists; split; reflexivity).
  cut (keeps_registry w0 (fst (process_websocket_message websocket message w0))
       /\ exists reply k,
           snd (process_websocket_message websocket message w0) =
             Await (SendPersonal reply websocket) k /\
           (k = done \/
            exists old_quantity tool, k = announce old_quantity tool)).
  { intros (A & C). split; [exact (KT _ _ _ L0 A) | exact C]. }
  clearbody w0. clear L0 w. rename w0 into w.
  unfold process_websocket_message.
  destruct (String.eqb _ "get_tool_status").
  { destruct (get_tool_status_run websocket w) as (r & ->). apply R0. }
  destruct (String.eqb _ "borrow_tool").
  { set (q := dict_get (quantity message) 1).
    destruct (Z.leb_spec q 0) as [Hq|Hq].
    { rewrite (borrow_tool_invalid websocket message w Hq). apply R0. }
    destruct (tools (db w)) as [tool|] eqn:T.
    2:{ rewrite (borrow_tool_missing websocket message w Hq T). apply R0. }
    destruct (Z.ltb_spec (current_quantity tool) q) as [L|L].
    { rewrite (borrow_tool_insufficient websocket message w tool Hq T L).
      apply R0. }
    destruct (borrow_tool_commits websocket message w tool T (conj Hq L))
      as (w' & reply & k & -> & K & _ & A & B & events & Ht & Hs).
    split.
    - repeat split; try assumption. eexists. split; [exact Ht | exact Hs].
    - do 2 eexists. split; [reflexivity|].
      destruct K as [-> | ->]; [now left | right; now do 2 eexists]. }
  destruct (String.eqb _ "return_tool").
  { set (q := dict_get (quantity message) 1).
    destruct (Z.leb_spec q 0) as [Hq|Hq].
    { rewrite (return_tool_invalid websocket message w Hq). apply R0. }
    destruct (tools (db w)) as [tool|] eqn:T.
    2:{ rewrite (return_tool_missing websocket message w Hq T). apply R0. }
    destruct (Z.ltb_spec (total_quantity tool) (current_quantity tool + q))
      as [L|L].
    { rewrite (return_tool_overflow websocket message w tool Hq T
                 ltac:(lia)).
      apply R0. }
    destruct (return_tool_commits websocket message w tool T Hq L)
      as (w' & reply & k & -> & K & _ & A & B & events & Ht & Hs).
    split.
    - repeat split; try assumption. eexists. split; [exact Ht | exact Hs].
    - do 2 eexists. split; [reflexivity|].
      destruct K as [-> | ->]; [now left | right; now do 2 eexists]. }
  destruct (String.eqb _ "sensor_update").
  { destruct (current_weight message) as [weight|] eqn:H.
    2:{ rewrite (sensor_update_no_weight websocket message w H). apply R0. }
    destruct (tools (db w)) as [tool|] eqn:T.
    2:{ rewrite (sensor_update_missing websocket message w weight H T).
        apply R0. }
    destruct (estimate weight tool) as [n|e] eqn:E.
    2:{ rewrite (sensor_update_raises websocket message w weight tool e
                   H T E).
        split; [repeat split; eexists; split; reflexivity|].
        do 2 eexists. split; [reflexivity|]. now left. }
    rewrite (sensor_update_success websocket message w weight tool n H T E).
    split; [repeat split; eexists; split; reflexivity|].
    do 2 eexists. split; [reflexivity|].
    destruct (negb _); [right; now do 2 eexists | now left]. }
  destruct (String.eqb _ "ping"); apply R0.
Qed.




(** X6.  A message whose action is none of the five known ones, or that
    has no action at all (then taken as "unknown"), is answered with an
    error message that repeats the action; nothing is read from or
    written to the database and nothing is broadcast. *)
Theorem unknown_action_echoed (websocket : WebSocket) (message : Message)
    (w : World) :
  let action := dict_get (action message) "unknown" in
  ~ In action known_actions ->
  let b := process_websocket_message websocket message in
  let reply :=
    [("type", VStr "error"); ("action", VStr action);
     ("message", VText [Lit "未知的操作: "; StrHole action]);
     ("timestamp", VTime (clock w))] in
  awaited b w = [SendPersonal reply websocket] /\
  run b w =
    set_trace (set_clock w (clock w + 1))
      (trace w ++ personal_events (broken_sockets w) websocket reply).
Proof.
  intros act N b reply.
  assert (E : b w =
              (set_clock w (clock w + 1),
               Await (SendPersonal reply websocket) done)).
  { subst b reply. unfold process_websocket_message. fold act.
    unfold known_actions in N. cbn [In] in N.
    repeat match goal with
           | |- context [String.eqb act ?s] =>
               destruct (String.eqb_spec act s) as [e | _];
               [exfalso; apply N; symmetry in e; auto 10|]
           end.
    reflexivity. }
  split; [exact (awaited_reply _ _ _ _ _ E)|].
  now rewrite (run_reply _ _ _ _ _ E).
Qed.

Lemma unknown_action_echoed_witness :
  let message :=
    {| action := None; quantity := Some 2; current_weight := None |} in
  let reply :=
    [("type", VStr "error"); ("action", VStr "unknown");
     ("message", VText [Lit "未知的操作: "; StrHole "unknown"]);
     ("timestamp", VTime 1)] in
  ~ In "unknown" known_actions /\
  awaited (process_websocket_message 1%nat message) busy_world =
    [SendPersonal reply 1%nat].
Proof.
  intros message reply.
  assert (N : ~ In "unknown" known_actions)
    by (cbn; intros [H | [H | [H | [H | [H | []]]]]]; discriminate H).
  split; [exact N|].
  exact (proj1 (unknown_action_echoed 1%nat message busy_world N)).
Defined.

(** X7.  [get_tool_status] only reads: it answers the requester alone,
    leaves the database as it is, and reports the stored row field by
    field; without a row it answers with a failure that says the tool
    does not exist. *)
Theorem get_tool_status_reads (websocket : WebSocket) (w : World) :
  let b := get_tool_status websocket in
  db (run b w) = db w /\
  exists reply,
    awaited b w = [SendPersonal reply websocket] /\
    sent (events_of b w) = [(websocket, reply)] /\
    match tools (db w) with
    | Some tool =>
        field "success" reply = Some (VBool true) /\
        data_field "total_quantity" reply =
          Some (VInt (total_quantity tool)) /\
        data_field "current_quantity" reply =
          Some (VInt (current_quantity tool)) /\
        data_field "threshold" reply = Some (VInt (threshold tool)) /\
        data_field "status" reply = Some (VStr (status tool)) /\
        data_field "last_updated" reply =
          Some (match last_updated tool with
                | Some u => VTime u
                | None => VNull
                end)
    | None => reply = failure "get_status" (VStr "工具不存在") (clock w)
    end.
Proof.
  intro b.
  assert (E : exists reply,
             b w = (set_clock w (clock w + 1),
                    Await (SendPersonal reply websocket) done) /\
             match tools (db w) with
             | Some tool =>
                 field "success" reply = Some (VBool true) /\
                 data_field "total_quantity" reply =
                   Some (VInt (total_quantity tool)) /\
                 data_field "current_quantity" reply =
                   Some (VInt (current_quantity tool)) /\
                 data_field "threshold" reply = Some (VInt (threshold tool)) /\
                 data_field "status" reply = Some (VStr (status tool)) /\
                 data_field "last_updated" reply =
                   Some (match last_updated tool with
                         | Some u => VTime u
                         | None => VNull
                         end)
             | None => reply = failure "get_status" (VStr "工具不存在") (clock w)
             end).
  { subst b. unfold get_tool_status. code.
    destruct (tools (db w)) as [tool|]; cbn; eexists;
      (split; [reflexivity|]); now repeat split. }
  destruct E as (reply & E & P).
  split; [now rewrite (run_reply _ _ _ _ _ E)|].
  exists reply. split; [exact (awaited_reply _ _ _ _ _ E)|].
  split; [|exact P].
  rewrite (events_of_app b w
             (personal_events (broken_sockets w) websocket reply)).
  - apply sent_personal.
  - now rewrite (run_reply _ _ _ _ _ E).
Qed.

(** X8.  A quantity that is not positive is refused by [borrow_tool] and
    by [return_tool] before the row is looked up, so also when there is
    no row: the requester gets the failure, the database stays as it is,
    nothing is broadcast and the history is not called. *)
Theorem invalid_quantity_refused (websocket : WebSocket) (message : Message)
    (w : World) :
  dict_get (quantity message) 1 <= 0 ->
  (let b := borrow_tool websocket message in
   let reply := failure "borrow_tool" (VStr "借出数量必须大于0") (clock w) in
   db (run b w) = db w /\
   awaited b w = [SendPersonal reply websocket] /\
   sent (events_of b w) = [(websocket, reply)] /\
   history_calls (events_of b w) = []) /\
  (let b := return_tool websocket message in
   let reply := failure "return_tool" (VStr "归还数量必须大于0") (clock w) in
   db (run b w) = db w /\
   awaited b w = [SendPersonal reply websocket] /\
   sent (events_of b w) = [(websocket, reply)] /\
   history_calls (events_of b w) = []).
Proof.
  intro H. split; intros b reply.
  - assert (E := borrow_tool_invalid websocket message w H).
    fold b reply in E.
    assert (R := run_reply _ _ _ _ _ E).
    assert (Ev : events_of b w =
                 personal_events (broken_sockets w) websocket reply)
      by (apply events_of_app; now rewrite R).
    rewrite Ev, sent_personal, history_personal, R.
    repeat split. exact (awaited_reply _ _ _ _ _ E).
  - assert (E := return_tool_invalid websocket message w H).
    fold b reply in E.
    assert (R := run_reply _ _ _ _ _ E).
    assert (Ev : events_of b w =
                 personal_events (broken_sockets w) websocket reply)
      by (apply events_of_app; now rewrite R).
    rewrite Ev, sent_personal, history_personal, R.
    repeat split. exact (awaited_reply _ _ _ _ _ E).
Qed.

Lemma invalid_quantity_refused_witness :
  let message :=
    {| action := Some "borrow_tool"; quantity := Some (-2);
       current_weight := None |} in
  let w := set_db busy_world {| tools := None; borrow_records := [] |} in
  dict_get (quantity message) 1 <= 0 /\
  db (run (borrow_tool 1%nat message) w) = db w /\
  db (run (return_tool 1%nat message) w) = db w.
Proof.
  intros message w.
  assert (H : dict_get (quantity message) 1 <= 0) by (cbn; lia).
  split; [exact H|].
  destruct (invalid_quantity_refused 1%nat message w H)
    as ((A & _) & (B & _)).
  split; [exact A | exact B].
Defined.

(** X9.  No frame ever creates the row of the tool: from a database
    without it, every state reached is without it, so no borrow, return
    or sensor update is ever accepted there. *)
Theorem tool_row_never_created (w0 w : World) :
  tools (db w0) = None ->
  reachable_from w0 w ->
  tools (db w) = None.
Proof.
  intros T0 H. induction H as [| w websocket frame _ IH | w w' _ IH E].
  - exact T0.
  - destruct (handle_frame_transition websocket frame w)
      as [E | (tool & tool' & T & _)]; [now rewrite E | congruence].
  - now rewrite E.
Qed.

Lemma tool_row_never_created_witness :
  let w0 := set_db busy_world {| tools := None; borrow_records := [] |} in
  let w := run (handle_frame 0%nat (Json (weighing (Py.Int 350)))) w0 in
  tools (db w0) = None /\ reachable_from w0 w /\ tools (db w) = None.
Proof.
  intros w0 w.
  assert (R : reachable_from w0 w) by (apply reach_frame, reach_start).
  split; [reflexivity|]. split; [exact R|].
  exact (tool_row_never_created w0 w eq_refl R).
Defined.

(* ------------------------------------------------------------------ *)
(** * How the operations compose *)
(* ------------------------------------------------------------------ *)

Lemma update_status_settings (tool : Tool) :
  name (update_status tool) = name tool /\
  unit_weight (update_status tool) = unit_weight tool /\
  last_updated (update_status tool) = last_updated tool.
Proof.
  unfold update_status.
  destruct (_ <=? 0); [now repeat split|]. now destruct (_ <=? _).
Qed.

Lemma limit_quantity_settings (tool : Tool) :
  name (limit_quantity tool) = name tool /\
  unit_weight (limit_quantity tool) = unit_weight tool.
Proof.
  unfold limit_quantity.
  destruct (_ <? 0); [now split|]. now destruct (_ >? _).
Qed.

Lemma commits_settings (tool tool' : Tool) :
  commits tool tool' -> same_settings tool tool'.
Proof.
  intros [q t H | q t H L | n t]; unfold committed, same_settings.
  - destruct (update_status_settings
                (set_current_quantity tool (current_quantity tool - q)))
      as (N & U & _).
    destruct (update_status_fields
                (set_current_quantity tool (current_quantity tool - q)))
      as (A & _ & C).
    cbn. rewrite N, U, A, C. cbn. repeat split. now left.
  - destruct (update_status_settings
                (set_current_quantity tool (current_quantity tool + q)))
      as (N & U & _).
    destruct (update_status_fields
                (set_current_quantity tool (current_quantity tool + q)))
      as (A & _ & C).
    cbn. rewrite N, U, A, C. cbn. repeat split. now left.
  - set (y := set_current_quantity (heal_unit_weight tool) n).
    destruct (update_status_settings (limit_quantity y)) as (N & U & _).
    destruct (update_status_fields (limit_quantity y)) as (A & _ & C).
    destruct (limit_quantity_settings y) as (N' & U').
    destruct (limit_quantity_fields y) as (A' & C' & _).
    cbn. rewrite N, U, A, C, N', U', A', C'. subst y. cbn.
    unfold heal_unit_weight.
    destruct (PrimFloat.leb (unit_weight tool) 0%float) eqn:E; cbn;
      repeat split; auto.
Qed.

Lemma same_settings_refl (tool : Tool) : same_settings tool tool.
Proof. repeat split. now left. Qed.

Lemma same_settings_trans (a b c : Tool) :
  same_settings a b -> same_settings b c -> same_settings a c.
Proof.
  intros (N1 & A1 & C1 & U1) (N2 & A2 & C2 & U2).
  repeat split; try congruence.
  destruct U1 as [U1 | (L1 & U1)], U2 as [U2 | (L2 & U2)].
  - left. congruence.
  - right. split; congruence.
  - right. split; congruence.
  - exfalso. rewrite U1 in L2. discriminate L2.
Qed.

(** X10.  No frame can change the settings of the tool: in every state
    reached from a state with a row, the row has the name, the total and
    the threshold it had; its unit weight is the one it had or, if that
    was not positive, the default 100 put there by a sensor update. *)
Theorem settings_never_change (w0 w : World) (tool0 : Tool) :
  tools (db w0) = Some tool0 ->
  reachable_from w0 w ->
  exists tool, tools (db w) = Some tool /\ same_settings tool0 tool.
Proof.
  intros T0 H. induction H as [| w websocket frame _ IH | w w' _ IH E].
  - exists tool0. split; [exact T0 | apply same_settings_refl].
  - destruct IH as (tool & T & S).
    destruct (handle_frame_transition websocket frame w)
      as [E | (tool1 & tool' & T1 & T' & C)].
    + exists tool. now rewrite E.
    + rewrite T in T1. injection T1 as <-.
      exists tool'. split; [exact T'|].
      exact (same_settings_trans _ _ _ S (commits_settings _ _ C)).
  - destruct IH as (tool & T & S). exists tool. now rewrite E.
Qed.

Lemma settings_never_change_witness :
  let w := run (handle_frame 0%nat (Json (weighing (Py.Int 350)))) busy_world in
  tools (db busy_world) = Some (default_tool 0) /\
  reachable_from busy_world w /\
  exists tool, tools (db w) = Some tool /\ same_settings (default_tool 0) tool.
Proof.
  intro w.
  assert (R : reachable_from busy_world w) by (apply reach_frame, reach_start).
  split; [reflexivity|]. split; [exact R|].
  exact (settings_never_change busy_world w (default_tool 0) eq_refl R).
Defined.

Lemma committed_fields (tool : Tool) (q t : Z) :
  total_quantity (committed tool q t) = total_quantity tool /\
  threshold (committed tool q t) = threshold tool.
Proof.
  unfold committed.
  destruct (stamped_fields (set_current_quantity tool q) t)
    as (A & _ & C & _).
  now split.
Qed.

Lemma status_committed (tool : Tool) (q t : Z) :
  0 <= q ->
  status (committed tool q t) = expected_status q (threshold tool).
Proof.
  intro H. unfold committed. cbn.
  now rewrite status_update_status.
Qed.

(** X11.  Borrowing a quantity and returning the same quantity brings
    the stock back: from a row in range with the status of its quantity,
    a borrow that the stock allows followed by the return of as many
    pieces, by any connection, leaves the quantity, the status, the
    total and the threshold as they were before the borrow, whether or
    not the history table takes the writes; the reply to the return
    reports success exactly when the table does. *)
Theorem borrow_then_return (borrower returner : WebSocket)
    (borrow giveback : Message) (w : World) (tool : Tool) :
  let q := dict_get (quantity borrow) 1 in
  tools (db w) = Some tool ->
  in_range tool ->
  consistent tool ->
  0 < q <= current_quantity tool ->
  dict_get (quantity giveback) 1 = q ->
  let w1 := run (borrow_tool borrower borrow) w in
  let w2 := run (return_tool returner giveback) w1 in
  stock w1 = Some (current_quantity tool - q) /\
  succeeded (borrow_tool borrower borrow) w = negb (history_fault w) /\
  succeeded (return_tool returner giveback) w1 = negb (history_fault w1) /\
  exists tool2,
    tools (db w2) = Some tool2 /\
    current_quantity tool2 = current_quantity tool /\
    status tool2 = status tool /\
    total_quantity tool2 = total_quantity tool /\
    threshold tool2 = threshold tool.
Proof.
  intros q T R K H G w1 w2.
  destruct (row_after_borrow borrower borrow w tool T H) as (T1 & S1).
  fold q w1 in T1.
  set (tool1 := committed tool (current_quantity tool - q) (clock w)) in *.
  assert (Q1 : current_quantity tool1 = current_quantity tool - q)
    by apply committed_quantity.
  destruct (committed_fields tool (current_quantity tool - q) (clock w))
    as (A1 & C1).
  fold tool1 in A1, C1.
  destruct (row_after_return returner giveback w1 tool1 T1) as (T2 & S2).
  { rewrite G. lia. }
  { rewrite G, Q1, A1. destruct R. lia. }
  fold w2 in T2. rewrite G, Q1 in T2.
  replace (current_quantity tool - q + q) with (current_quantity tool)
    in T2 by lia.
  split; [unfold stock; rewrite T1; cbn [option_map]; now rewrite Q1|].
  split; [exact S1|]. split; [exact S2|].
  eexists. split; [exact T2|].
  destruct (committed_fields tool1 (current_quantity tool) (clock w1))
    as (A2 & C2).
  rewrite committed_quantity, A2, C2, A1, C1.
  repeat split.
  rewrite status_committed by (destruct R; lia).
  now rewrite C1, K.
Qed.

Lemma borrow_then_return_witness :
  let m := request (Borrow 9) in
  let m' := request (GiveBack 9) in
  let w := refusing busy_world in
  let w1 := run (borrow_tool 0%nat m) w in
  let w2 := run (return_tool 1%nat m') w1 in
  stock w1 = Some (10 - 9) /\
  succeeded (borrow_tool 0%nat m) w = false /\
  succeeded (return_tool 1%nat m') w1 = negb (history_fault w1) /\
  exists tool2,
    tools (db w2) = Some tool2 /\
    current_quantity tool2 = 10 /\
    status tool2 = NORMAL /\
    total_quantity tool2 = 10 /\
    threshold tool2 = 2.
Proof.
  intros m m' w w1 w2.
  apply (borrow_then_return 0%nat 1%nat m m' w (default_tool 0));
    [reflexivity | unfold in_range; cbn; lia | reflexivity | cbn; lia
    | reflexivity].
Defined.

Lemma handle_borrow_frame (websocket : WebSocket) (q : Z) (w : World) :
  handle_frame websocket (Json (request (Borrow q))) w =
  borrow_tool websocket (request (Borrow q))
    (snd (log WS_LOGGER INFO
            [Lit "收到WebSocket消息: ";
             DictHole (keys_of (request (Borrow q)))] w)).
Proof. reflexivity. Qed.

(** The first block of a borrow leaves the state of the history table
    as it is. *)
Lemma borrow_tool_fault (websocket : WebSocket) (message : Message)
    (w : World) :
  history_fault (run (borrow_tool websocket message) w) = history_fault w.
Proof.
  assert (K : forall reply k w1,
             k = done \/ (exists old tool, k = announce old tool) ->
             history_fault
               (resume (Await (SendPersonal reply websocket) k) w1) =
             history_fault w1).
  { intros reply k w1 K.
    assert (T : talkative (Await (SendPersonal reply websocket) k))
      by (destruct K as [-> | (old & tool & ->)];
          [apply reply_talkative | apply announce_talkative]).
    now destruct (resume_only_talk _ T w1) as (_ & _ & _ & F & _). }
  unfold run.
  set (q := dict_get (quantity message) 1).
  destruct (Z.leb_spec q 0) as [Hq|Hq].
  { rewrite (borrow_tool_invalid websocket message w Hq).
    cbv beta iota. rewrite K by now left. reflexivity. }
  destruct (tools (db w)) as [tool|] eqn:T.
  2:{ rewrite (borrow_tool_missing websocket message w Hq T).
      cbv beta iota. rewrite K by now left. reflexivity. }
  destruct (Z.ltb_spec (current_quantity tool) q) as [L|L].
  { rewrite (borrow_tool_insufficient websocket message w tool Hq T L).
    cbv beta iota. rewrite K by now left. reflexivity. }
  unfold borrow_tool. fold q.
  destruct (Z.leb_spec q 0); [lia|]. code. rewrite T.
  destruct (Z.ltb_spec (current_quantity tool) q); [lia|]. cbn.
  unfold record_borrow_time, create_borrow_record, add_record, try_, bind,
    ret, raise, now, log, emit, refreshed.
  assert (P : forall c v, history_fault (perform c v) = history_fault v)
    by (intros c v; now destruct (perform_only_talk c v) as (_ & _ & _ & E & _)).
  cbn. destruct (history_fault w) eqn:F; cbn;
    repeat (rewrite P; cbn); exact F.
Qed.

(** One frame asking for one piece. *)
Lemma borrow_one_frame (websocket : WebSocket) (w : World) (tool : Tool) :
  tools (db w) = Some tool ->
  0 <= current_quantity tool ->
  let b := handle_frame websocket (Json (request (Borrow 1))) in
  history_fault (run b w) = history_fault w /\
  if 1 <=? current_quantity tool
  then succeeded b w = negb (history_fault w) /\
       exists tool',
         tools (db (run b w)) = Some tool' /\
         current_quantity tool' = current_quantity tool - 1
  else succeeded b w = false /\ tools (db (run b w)) = Some tool.
Proof.
  intros T P b.
  set (w0 := snd (log WS_LOGGER INFO
                    [Lit "收到WebSocket消息: ";
                     DictHole (keys_of (request (Borrow 1)))] w)).
  assert (T0 : tools (db w0) = Some tool) by exact T.
  assert (Rn : run b w = run (borrow_tool websocket (request (Borrow 1))) w0)
    by (unfold run, b; now rewrite handle_borrow_frame).
  assert (Sc : succeeded b w =
               succeeded (borrow_tool websocket (request (Borrow 1))) w0)
    by (unfold succeeded, awaited, b; now rewrite handle_borrow_frame).
  rewrite Rn, Sc. split; [now rewrite borrow_tool_fault|].
  destruct (Z.leb_spec 1 (current_quantity tool)) as [L | L].
  - destruct (row_after_borrow websocket (request (Borrow 1)) w0 tool T0
                ltac:(cbn; lia)) as (R & S).
    split; [exact S|].
    eexists. split; [exact R|].
    rewrite committed_quantity. reflexivity.
  - assert (E := borrow_tool_insufficient websocket (request (Borrow 1)) w0
                   tool ltac:(cbn; lia) T0 ltac:(cbn; lia)).
    assert (R := run_reply _ _ _ _ _ E).
    assert (A := awaited_reply _ _ _ _ _ E).
    split; [unfold succeeded; rewrite A; reflexivity|].
    rewrite R. exact T0.
Qed.

Lemma outcomes_refused (sockets : list WebSocket) (w : World) (tool : Tool) :
  tools (db w) = Some tool ->
  0 <= current_quantity tool ->
  history_fault w = true ->
  outcomes (one_each sockets) w = repeat false (List.length sockets).
Proof.
  revert w tool.
  induction sockets as [|websocket rest IH]; intros w tool T P F;
    [reflexivity|].
  cbn [one_each map outcomes List.length repeat]. fold (one_each rest).
  destruct (borrow_one_frame websocket w tool T P) as (Fr & B).
  rewrite F in *.
  destruct (Z.leb_spec 1 (current_quantity tool)) as [L | L].
  - destruct B as (-> & tool' & T' & Q). cbn [negb]. f_equal.
    apply (IH _ tool'); [exact T' | lia | exact Fr].
  - destruct B as (-> & T'). f_equal.
    apply (IH _ tool); [exact T' | exact P | exact Fr].
Qed.

(** X12.  When each of [n] connections asks for one piece, one after the
    other, from a stock of [c] pieces, [min n c] pieces are handed out and
    [c - min n c] are left, never fewer than none.  As long as the
    history table takes the writes, the first [min n c] requests are
    answered with success and the others are refused; with a table that
    refuses them every request is answered with a failure, the pieces
    handed out included. *)
Theorem one_piece_each (sockets : list WebSocket) (w : World) (tool : Tool) :
  tools (db w) = Some tool ->
  0 <= current_quantity tool ->
  let n := Z.of_nat (List.length sockets) in
  let c := current_quantity tool in
  stock (after_all (one_each sockets) w) = Some (c - Z.min n c) /\
  outcomes (one_each sockets) w =
    if history_fault w then repeat false (List.length sockets)
    else repeat true (Z.to_nat (Z.min n c)) ++
         repeat false (Z.to_nat (n - Z.min n c)).
Proof.
  intros T P n c. split.
  - subst n c. revert w tool T P.
    induction sockets as [|websocket rest IH]; intros w tool T P.
    + cbn [List.length Z.of_nat one_each map after_all].
      rewrite Z.min_l by lia. unfold stock. rewrite T. cbn. f_equal. lia.
    + cbn [one_each map after_all]. fold (one_each rest).
      destruct (borrow_one_frame websocket w tool T P) as (_ & B).
      set (b := handle_frame websocket (Json (request (Borrow 1)))) in *.
      assert (N : Z.of_nat (List.length (websocket :: rest)) =
                  1 + Z.of_nat (List.length rest))
        by (cbn [List.length]; lia).
      rewrite N.
      destruct (Z.leb_spec 1 (current_quantity tool)) as [L | L].
      * destruct B as (_ & tool' & T' & Q).
        rewrite (IH (run b w) tool' T') by lia. rewrite Q. f_equal. lia.
      * destruct B as (_ & T').
        rewrite (IH (run b w) tool T' P). f_equal. lia.
  - destruct (history_fault w) eqn:F;
      [exact (outcomes_refused sockets w tool T P F)|].
    subst n c. revert w tool T P F.
    induction sockets as [|websocket rest IH]; intros w tool T P F.
    + cbn [List.length Z.of_nat one_each map outcomes].
      rewrite Z.min_l by lia. reflexivity.
    + cbn [one_each map outcomes]. fold (one_each rest).
      destruct (borrow_one_frame websocket w tool T P) as (Fr & B).
      set (b := handle_frame websocket (Json (request (Borrow 1)))) in *.
      set (c := current_quantity tool) in *.
      set (n := Z.of_nat (List.length (websocket :: rest))).
      assert (N : n = 1 + Z.of_nat (List.length rest))
        by (subst n; cbn [List.length]; lia).
      rewrite F in Fr, B. cbn [negb] in B.
      destruct (Z.leb_spec 1 c) as [L | L].
      * destruct B as (Su & tool' & T' & Q).
        rewrite (IH (run b w) tool' T' ltac:(lia) Fr), Su, Q.
        destruct (Z.le_ge_cases (Z.of_nat (List.length rest)) (c - 1)).
        -- rewrite (Z.min_l _ (c - 1)), (Z.min_l n c) by lia.
           replace (Z.to_nat n)
             with (S (Z.to_nat (Z.of_nat (List.length rest)))) by lia.
           cbn [repeat app]. do 3 f_equal. lia.
        -- rewrite (Z.min_r _ (c - 1)), (Z.min_r n c) by lia.
           replace (Z.to_nat c) with (S (Z.to_nat (c - 1))) by lia.
           cbn [repeat app]. do 3 f_equal. lia.
      * destruct B as (Su & T').
        rewrite (IH (run b w) tool T' P Fr), Su. fold c.
        assert (c = 0) by lia.
        rewrite !Z.min_r by lia.
        replace (Z.to_nat c) with 0%nat by lia. cbn [repeat app].
        replace (Z.to_nat (n - c))
          with (S (Z.to_nat (Z.of_nat (List.length rest) - c))) by lia.
        reflexivity.
Qed.

Lemma one_piece_each_witness :
  let w := stocked 2 in
  (stock (after_all (one_each [0; 1; 2; 0]%nat) w) = Some (2 - Z.min 4 2) /\
   outcomes (one_each [0; 1; 2; 0]%nat) w = [true; true; false; false]) /\
  (stock (after_all (one_each [0; 1; 2; 0]%nat) (refusing w)) =
     Some (2 - Z.min 4 2) /\
   outcomes (one_each [0; 1; 2; 0]%nat) (refusing w) =
     [false; false; false; false]).
Proof.
  intro w. split.
  - exact (one_piece_each [0; 1; 2; 0]%nat w
             (update_status (set_current_quantity (default_tool 0) 2))
             eq_refl ltac:(cbn; lia)).
  - exact (one_piece_each [0; 1; 2; 0]%nat (refusing w)
             (update_status (set_current_quantity (default_tool 0) 2))
             eq_refl ltac:(cbn; lia)).
Defined.

Lemma healed_positive (tool : Tool) :
  PrimFloat.leb (unit_weight (heal_unit_weight tool)) 0%float = false.
Proof.
  unfold heal_unit_weight.
  destruct (PrimFloat.leb (unit_weight tool) 0%float) eqn:E;
    [reflexivity | exact E].
Qed.

Lemma sensor_commit_fields (x : Tool) (n t : Z) :
  let tool' :=
    set_last_updated
      (update_status (limit_quantity (set_current_quantity x n))) t in
  current_quantity tool' =
    (if n <? 0 then 0
     else if n >? total_quantity x then total_quantity x else n) /\
  total_quantity tool' = total_quantity x.
Proof.
  destruct (stamped_fields (limit_quantity (set_current_quantity x n)) t)
    as (A & B & _).
  destruct (limit_quantity_fields (set_current_quantity x n))
    as (C & _ & D).
  cbv zeta. rewrite A, B, C, D. split; reflexivity.
Qed.

(** X13.  A sensor reading that is repeated is silent: once an update
    for a weight has been committed, a second update for the same weight,
    from any connection, succeeds again, leaves the quantity as it is
    and broadcasts nothing. *)
Theorem sensor_update_repeated (first second : WebSocket)
    (message : Message) (w : World) (weight : Py.num) (tool : Tool) (n : Z) :
  current_weight message = Some weight ->
  tools (db w) = Some tool ->
  estimate weight tool = Ok n ->
  let w1 := run (sensor_update first message) w in
  let b := sensor_update second message in
  succeeded b w1 = true /\
  broadcasts (awaited b w1) = [] /\
  stock (run b w1) = stock w1.
Proof.
  intros H T E w1 b.
  destruct (run_sensor_success first message w weight tool n H T E)
    as (T1 & _).
  fold w1 in T1.
  set (y := set_current_quantity (heal_unit_weight tool) n) in *.
  set (tool1 := set_last_updated (update_status (limit_quantity y))
                  (clock w)) in *.
  assert (U1 : unit_weight tool1 = unit_weight (heal_unit_weight tool)).
  { subst tool1. cbn.
    destruct (update_status_settings (limit_quantity y)) as (_ & -> & _).
    now destruct (limit_quantity_settings y) as (_ & ->). }
  assert (H1 : heal_unit_weight tool1 = tool1).
  { unfold heal_unit_weight at 1. now rewrite U1, healed_positive. }
  assert (E1 : estimate weight tool1 = Ok n)
    by (unfold estimate in *; now rewrite H1, U1).
  destruct (run_sensor_success second message w1 weight tool1 n H T1 E1)
    as (T2 & _ & A & _).
  fold b in T2, A. rewrite H1 in T2, A.
  set (tool2 := set_last_updated
                  (update_status
                     (limit_quantity (set_current_quantity tool1 n)))
                  (clock w1)) in *.
  assert (Q : current_quantity tool2 = current_quantity tool1).
  { subst tool2.
    destruct (sensor_commit_fields tool1 n (clock w1)) as (-> & _).
    subst tool1 y.
    destruct (sensor_commit_fields (heal_unit_weight tool) n (clock w))
      as (-> & ->).
    reflexivity. }
  rewrite Q, Z.eqb_refl in A. cbn [negb] in A.
  split; [unfold succeeded; now rewrite A|].
  split; [now rewrite A|].
  unfold stock. rewrite T2, T1. cbn [option_map]. now rewrite Q.
Qed.

Lemma sensor_update_repeated_witness :
  let message := weighing (Py.Int 350) in
  let w1 := run (sensor_update 0%nat message) busy_world in
  let b := sensor_update 2%nat message in
  estimate (Py.Int 350) (default_tool 0) = Ok 3 /\
  succeeded b w1 = true /\
  broadcasts (awaited b w1) = [] /\
  stock (run b w1) = stock w1.
Proof.
  intros message w1 b.
  assert (E : estimate (Py.Int 350) (default_tool 0) = Ok 3) by reflexivity.
  split; [exact E|].
  exact (sensor_update_repeated 0%nat 2%nat message busy_world (Py.Int 350)
           (default_tool 0) 3 eq_refl eq_refl E).
Defined.

(* ------------------------------------------------------------------ *)
(** * The history table *)
(* ------------------------------------------------------------------ *)

Lemma latest_open_borrow_first (rs : list BorrowRecord) :
  latest_open_borrow rs = hd_error (newest_first (open_borrows rs)).
Proof.
  induction rs as [|r rs IH]; [reflexivity|].
  cbn [latest_open_borrow open_borrows filter]. fold (is_open r).
  fold (open_borrows rs). rewrite IH.
  destruct (is_open r); cbn [andb].
  - cbn [newest_first fold_right]. fold (newest_first (open_borrows rs)).
    destruct (newest_first (open_borrows rs)) as [|x l]; [reflexivity|].
    cbn. now destruct (borrow_time x <=? borrow_time r).
  - now destruct (hd_error (newest_first (open_borrows rs))).
Qed.

Lemma latest_open_borrow_some (rs : list BorrowRecord) (r : BorrowRecord) :
  latest_open_borrow rs = Some r ->
  In r rs /\ is_open r = true /\
  forall x, In x rs -> is_open x = true -> borrow_time x <= borrow_time r.
Proof.
  revert r. induction rs as [|a rs IH]; intros r H; [discriminate|].
  cbn [latest_open_borrow] in H. fold (is_open a) in H.
  destruct (latest_open_borrow rs) as [r'|] eqn:L.
  - destruct (IH r' eq_refl) as (I & O & M).
    destruct (is_open a) eqn:Oa; cbn [andb] in H.
    + destruct (Z.leb_spec (borrow_time r') (borrow_time a));
        injection H as <-.
      * split; [now left|]. split; [exact Oa|].
        intros x [<- | Hx] Ox; [lia|]. specialize (M x Hx Ox). lia.
      * split; [now right|]. split; [exact O|].
        intros x [<- | Hx] Ox; [lia | now apply M].
    + injection H as <-. split; [now right|]. split; [exact O|].
      intros x [<- | Hx] Ox; [congruence | now apply M].
  - destruct (is_open a) eqn:Oa; [|discriminate]. injection H as <-.
    split; [now left|]. split; [exact Oa|].
    intros x [<- | Hx] Ox; [lia|].
    exfalso. clear IH. induction rs as [|b rs IH']; [contradiction|].
    cbn [latest_open_borrow] in L. fold (is_open b) in L.
    destruct (latest_open_borrow rs) eqn:L'.
    + now destruct (is_open b && _).
    + destruct Hx as [<- | Hx]; [rewrite Ox in L; discriminate|].
      now apply IH'.
Qed.

Lemma latest_open_borrow_none (rs : list BorrowRecord) :
  latest_open_borrow rs = None <-> open_borrows rs = [].
Proof.
  rewrite latest_open_borrow_first. unfold open_borrows.
  induction (filter is_open rs) as [|a l _]; [tauto|].
  cbn [newest_first fold_right]. fold (newest_first l).
  split; [|discriminate]. intro H. exfalso.
  destruct (newest_first l) as [|x l']; [discriminate|].
  cbn in H. now destruct (borrow_time x <=? borrow_time a).
Qed.

(** X14.  [get_current_borrow], and the query of [create_return_record],
    return the first of the open borrows taken newest first: a row of
    the table that is an open borrow and is not older than any other
    open borrow; nothing exactly when the table has no open borrow.  The
    query writes nothing. *)
Theorem get_current_borrow_latest (w : World) :
  get_current_borrow w =
    (Ok (hd_error (newest_first (open_borrows (history w)))), w) /\
  match latest_open_borrow (history w) with
  | Some r =>
      In r (history w) /\ is_open r = true /\
      forall x, In x (history w) -> is_open x = true ->
                borrow_time x <= borrow_time r
  | None => forall x, In x (history w) -> is_open x = false
  end.
Proof.
  split.
  - unfold get_current_borrow. fold (history w).
    now rewrite latest_open_borrow_first.
  - destruct (latest_open_borrow (history w)) as [r|] eqn:L.
    + now apply latest_open_borrow_some.
    + apply latest_open_borrow_none in L. intros x Hx.
      destruct (is_open x) eqn:O; [|reflexivity].
      assert (I : In x (open_borrows (history w)))
        by (apply filter_In; now split).
      rewrite L in I. contradiction.
Qed.

Lemma next_record_id_fresh (rs : list BorrowRecord) (r : BorrowRecord) :
  In r rs -> record_id r < next_record_id rs.
Proof.
  unfold next_record_id.
  induction rs as [|a rs IH]; [contradiction|].
  cbn [fold_right]. intros [<- | H]; [lia|]. specialize (IH H). lia.
Qed.

Lemma open_borrows_app (rs rs' : list BorrowRecord) :
  open_borrows (rs ++ rs') = open_borrows rs ++ open_borrows rs'.
Proof. apply filter_app. Qed.

(** X15.  When the table accepts the write, [create_borrow_record] adds
    one row at the end of the table and returns it: an open borrow of
    the quantity, of employee 1 and tool 1, taken at the time of the
    call, under a key larger than every key of the table; the rows that
    were there and the tool row are as before, and a query for the
    current borrow now finds a borrow that is not older than the call. *)
Theorem create_borrow_record_opens (quantity : Z) (w : World) :
  history_fault w = false ->
  exists record w',
    create_borrow_record quantity w = (Ok record, w') /\
    history w' = history w ++ [record] /\
    tools (db w') = tools (db w) /\
    is_open record = true /\
    record_quantity record = quantity /\
    employee_id record = 1 /\ tool_id record = 1 /\
    borrow_time record = clock w /\
    (forall r, In r (history w) -> record_id r < record_id record) /\
    exists r, fst (get_current_borrow w') = Ok (Some r) /\
              clock w <= borrow_time r.
Proof.
  intro F.
  unfold create_borrow_record, add_record, try_, bind, ret, now, log, emit.
  cbn. rewrite F. cbn. do 2 eexists. split; [reflexivity|].
  unfold history. cbn.
  do 7 (split; [reflexivity|]).
  split; [intros r H; now apply next_record_id_fresh|].
  match goal with
  | |- context [borrow_records (db w) ++ [?record]] => set (new := record)
  end.
  destruct (latest_open_borrow (borrow_records (db w) ++ [new])) as [r|] eqn:L.
  - exists r. split; [reflexivity|].
    destruct (latest_open_borrow_some _ _ L) as (_ & _ & M).
    apply (M new); [apply in_or_app; right; now left | reflexivity].
  - apply latest_open_borrow_none in L.
    rewrite open_borrows_app in L. apply app_eq_nil in L.
    destruct L as (_ & L). discriminate L.
Qed.

Lemma create_borrow_record_opens_witness :
  history_fault (recorded sample_history) = false /\
  exists record w',
    create_borrow_record 2 (recorded sample_history) = (Ok record, w') /\
    history w' = sample_history ++ [record] /\
    record_id record = 4.
Proof.
  split; [reflexivity|].
  destruct (create_borrow_record_opens 2 (recorded sample_history) eq_refl)
    as (record & w' & E & H & _).
  exists record, w'. split; [exact E|]. split; [exact H|].
  injection E as <- _. reflexivity.
Defined.

(** X16.  When the table refuses the write, both collaborator functions
    log one error on their own logger and raise the error again; the
    database is as before the call. *)
Theorem history_write_refused (quantity : Z) (w : World) :
  history_fault w = true ->
  let e := Py.OperationalError "borrow_records" in
  (exists w',
     create_borrow_record quantity w = (Raise e, w') /\
     db w' = db w /\
     trace w' =
       trace w ++
       [Log RH_LOGGER ERROR [Lit "创建借出记录失败: "; ExnHole e]]) /\
  (exists w',
     create_return_record quantity w = (Raise e, w') /\
     db w' = db w /\
     trace w' =
       trace w ++
       [Log RH_LOGGER ERROR [Lit "创建归还记录失败: "; ExnHole e]]).
Proof.
  intros F e. split.
  - unfold create_borrow_record, add_record, try_, bind, ret, raise, now,
      log, emit.
    cbn. rewrite F. cbn. eexists. split; [reflexivity|]. now split.
  - unfold create_return_record, add_record, update_record, try_, bind, ret,
      raise, now, log, emit.
    cbn. destruct (latest_open_borrow (borrow_records (db w))); cbn;
      rewrite F; cbn; (eexists; split; [reflexivity|]); now split.
Qed.

Lemma history_write_refused_witness :
  let w := refusing (recorded sample_history) in
  let e := Py.OperationalError "borrow_records" in
  history_fault w = true /\
  (exists w', create_borrow_record 2 w = (Raise e, w') /\ db w' = db w) /\
  (exists w', create_return_record 2 w = (Raise e, w') /\ db w' = db w).
Proof.
  intros w e. split; [reflexivity|].
  destruct (history_write_refused 2 w eq_refl)
    as ((w1 & E1 & D1 & _) & (w2 & E2 & D2 & _)).
  split; [now exists w1 | now exists w2].
Defined.

Lemma replaced_absent (record : BorrowRecord) (rs : list BorrowRecord) :
  (forall x, In x rs -> record_id x <> record_id record) ->
  replaced record rs = rs.
Proof.
  unfold replaced. induction rs as [|a rs IH]; intro H; [reflexivity|].
  cbn [map]. rewrite IH by (intros x Hx; apply H; now right).
  destruct (Z.eqb_spec (record_id a) (record_id record)) as [e|_];
    [|reflexivity].
  exfalso. apply (H a); [now left | exact e].
Qed.

Lemma replaced_ids (record : BorrowRecord) (rs : list BorrowRecord) :
  map record_id (replaced record rs) = map record_id rs.
Proof.
  unfold replaced. induction rs as [|a rs IH]; [reflexivity|].
  cbn [map]. rewrite IH. f_equal.
  now destruct (Z.eqb_spec (record_id a) (record_id record)).
Qed.

Lemma replaced_length (record : BorrowRecord) (rs : list BorrowRecord) :
  List.length (replaced record rs) = List.length rs.
Proof. apply length_map. Qed.

(** Closing a row of a table with distinct keys. *)
Lemma replaced_closes (r : BorrowRecord) (t : Z) (rs : list BorrowRecord) :
  NoDup (map record_id rs) -> In r rs -> is_open r = true ->
  exists before after,
    rs = before ++ r :: after /\
    replaced (close_record r t) rs = before ++ close_record r t :: after.
Proof.
  intros N I O.
  destruct (in_split _ _ I) as (before & after & ->).
  exists before, after. split; [reflexivity|].
  rewrite map_app in N. cbn [map] in N.
  assert (Nr : ~ In (record_id r) (map record_id before ++ map record_id after))
    by exact (NoDup_remove_2 _ _ _ N).
  unfold replaced. rewrite map_app. cbn [map].
  fold (replaced (close_record r t) before).
  fold (replaced (close_record r t) after).
  cbn [close_record record_id]. rewrite Z.eqb_refl.
  rewrite !replaced_absent; [reflexivity|..];
    intros x Hx E; change (record_id (close_record r t)) with (record_id r) in E;
    apply Nr, in_or_app; rewrite <- E;
    first [left; now apply in_map | right; now apply in_map].
Qed.

Lemma close_record_not_open (r : BorrowRecord) (t : Z) :
  is_open (close_record r t) = false.
Proof. reflexivity. Qed.

(** The branch of [create_return_record] that finds an open borrow. *)
Lemma close_latest_run (quantity : Z) (w : World) (r : BorrowRecord) :
  history_fault w = false ->
  latest_open_borrow (history w) = Some r ->
  exists w',
    create_return_record quantity w =
      (Ok (Some (close_record r (clock w))), w') /\
    history w' = replaced (close_record r (clock w)) (history w) /\
    tools (db w') = tools (db w).
Proof.
  intros F L.
  unfold create_return_record, update_record, try_, bind, ret, now, log, emit.
  cbn. unfold history in L. rewrite L. cbn. rewrite F. cbn.
  eexists. split; [reflexivity|]. split; reflexivity.
Qed.

(** X17.  With an open borrow in a table of distinct keys,
    [create_return_record] closes the latest one in place: that row
    gets the action of a return and the time of the call and keeps its
    key, its borrow time and its own quantity, whatever quantity is
    given back; every other row is as before, no row is added, and one
    open borrow fewer is left. *)
Theorem create_return_record_closes (quantity : Z) (w : World)
    (r : BorrowRecord) :
  history_fault w = false ->
  NoDup (map record_id (history w)) ->
  latest_open_borrow (history w) = Some r ->
  let closed := close_record r (clock w) in
  exists w' before after,
    create_return_record quantity w = (Ok (Some closed), w') /\
    history w = before ++ r :: after /\
    history w' = before ++ closed :: after /\
    tools (db w') = tools (db w) /\
    record_quantity closed = record_quantity r /\
    return_time closed = Some (clock w) /\
    S (List.length (open_borrows (history w'))) =
      List.length (open_borrows (history w)).
Proof.
  intros F N L closed.
  destruct (latest_open_borrow_some _ _ L) as (I & O & _).
  destruct (replaced_closes r (clock w) (history w) N I O)
    as (before & after & E & R).
  destruct (close_latest_run quantity w r F L) as (w' & Run & H & T).
  exists w', before, after. fold closed in Run, H, R.
  split; [exact Run|]. split; [exact E|].
  rewrite R in H. split; [exact H|]. split; [exact T|].
  do 2 (split; [reflexivity|]).
  rewrite H, E, !open_borrows_app. cbn [open_borrows filter].
  rewrite O. unfold closed. rewrite close_record_not_open.
  rewrite !length_app. cbn [List.length]. lia.
Qed.

Lemma create_return_record_closes_witness :
  let w := recorded sample_history in
  exists r w',
    latest_open_borrow (history w) = Some r /\
    record_id r = 3 /\ record_quantity r = 1 /\
    create_return_record 5 w = (Ok (Some (close_record r (clock w))), w') /\
    List.length (open_borrows (history w')) = 1%nat.
Proof.
  intro w.
  assert (N : NoDup (map record_id (history w)))
    by (repeat constructor; cbn; intuition discriminate).
  destruct (create_return_record_closes 5 w _ eq_refl N eq_refl)
    as (w' & before & after & E & _ & _ & _ & _ & _ & C).
  eexists. exists w'. do 3 (split; [reflexivity|]).
  split; [exact E|].
  apply eq_add_S. rewrite C. reflexivity.
Defined.

(** X18.  Without an open borrow, [create_return_record] adds one row at
    the end of the table and returns it: a return of the quantity, with
    the time of the call as borrow time and the next instant as return
    time, under a fresh key; it logs a warning, and the table still has
    no open borrow. *)
Theorem create_return_record_unmatched (quantity : Z) (w : World) :
  history_fault w = false ->
  latest_open_borrow (history w) = None ->
  exists record w',
    create_return_record quantity w = (Ok (Some record), w') /\
    history w' = history w ++ [record] /\
    tools (db w') = tools (db w) /\
    record_action record = RETURNED /\
    record_quantity record = quantity /\
    borrow_time record = clock w /\
    return_time record = Some (clock w + 1) /\
    (forall r, In r (history w) -> record_id r < record_id record) /\
    open_borrows (history w') = [] /\
    trace w' =
      trace w ++
      [Log RH_LOGGER WARNING
         [Lit "创建新归还记录: 数量"; IntHole quantity; Lit "个"]].
Proof.
  intros F L.
  unfold create_return_record, add_record, try_, bind, ret, now, log, emit.
  cbn. unfold history in *. rewrite L. cbn. rewrite F. cbn.
  do 2 eexists. split; [reflexivity|]. cbn.
  do 6 (split; [reflexivity|]).
  split; [intros r H; now apply next_record_id_fresh|].
  split; [|reflexivity].
  rewrite open_borrows_app. apply latest_open_borrow_none in L.
  now rewrite L.
Qed.

Lemma create_return_record_unmatched_witness :
  exists record w',
    create_return_record 2 busy_world = (Ok (Some record), w') /\
    history w' = [record] /\
    record_id record = 1 /\
    return_time record = Some 2.
Proof.
  destruct (create_return_record_unmatched 2 busy_world eq_refl eq_refl)
    as (record & w' & E & H & _).
  exists record, w'. split; [exact E|]. split; [exact H|].
  injection E as <- _. split; reflexivity.
Defined.

(* ------------------------------------------------------------------ *)
(** * The history table under the handlers *)
(* ------------------------------------------------------------------ *)

Lemma record_borrow_time_history (quantity : Z) (w : World) :
  history_moves (history w) (history (snd (record_borrow_time quantity w))).
Proof.
  unfold record_borrow_time, create_borrow_record, add_record, try_, bind,
    ret, raise, now, log, emit, history.
  cbn. destruct (history_fault w); cbn; [apply history_same|].
  now apply history_opened.
Qed.

Lemma record_return_time_history (quantity : Z) (w : World) :
  history_moves (history w) (history (snd (record_return_time quantity w))).
Proof.
  unfold record_return_time, create_return_record, add_record, update_record,
    try_, bind, ret, raise, now, log, emit, history.
  cbn.
  destruct (latest_open_borrow (borrow_records (db w))) as [r|] eqn:L; cbn;
    destruct (history_fault w); cbn.
  - apply history_same.
  - now apply (history_closed _ r (clock w)).
  - apply history_same.
  - now apply (history_unmatched _ _ (clock w + 1)).
Qed.

Lemma borrow_tool_history (websocket : WebSocket) (message : Message)
    (w : World) :
  history_moves (history w) (history (fst (borrow_tool websocket message w))).
Proof.
  set (q := dict_get (quantity message) 1).
  destruct (Z.leb_spec q 0) as [Hq|Hq].
  { rewrite (borrow_tool_invalid websocket message w Hq). apply history_same. }
  destruct (tools (db w)) as [tool|] eqn:T.
  2:{ rewrite (borrow_tool_missing websocket message w Hq T). apply history_same. }
  destruct (Z.ltb_spec (current_quantity tool) q) as [L|L].
  { rewrite (borrow_tool_insufficient websocket message w tool Hq T L).
    apply history_same. }
  unfold borrow_tool. fold q.
  destruct (Z.leb_spec q 0); [lia|]. code. rewrite T.
  destruct (Z.ltb_spec (current_quantity tool) q); [lia|]. cbn.
  match goal with
  | |- context [record_borrow_time q ?w1] =>
      pose proof (record_borrow_time_history q w1) as Hh;
      destruct (record_borrow_time_run q w1) as (w2 & E & _);
      rewrite E in Hh |- *
  end.
  cbn [history_fault set_trace set_db set_clock negb].
  destruct (history_fault w); exact Hh.
Qed.

Lemma return_tool_history (websocket : WebSocket) (message : Message)
    (w : World) :
  history_moves (history w) (history (fst (return_tool websocket message w))).
Proof.
  set (q := dict_get (quantity message) 1).
  destruct (Z.leb_spec q 0) as [Hq|Hq].
  { rewrite (return_tool_invalid websocket message w Hq). apply history_same. }
  destruct (tools (db w)) as [tool|] eqn:T.
  2:{ rewrite (return_tool_missing websocket message w Hq T). apply history_same. }
  destruct (Z.ltb_spec (total_quantity tool) (current_quantity tool + q))
    as [L|L].
  { rewrite (return_tool_overflow websocket message w tool Hq T ltac:(lia)).
    apply history_same. }
  unfold return_tool. fold q.
  destruct (Z.leb_spec q 0); [lia|]. code. rewrite T, Z.gtb_ltb.
  destruct (Z.ltb_spec (total_quantity tool) (current_quantity tool + q));
    [lia|].
  cbn.
  match goal with
  | |- context [record_return_time q ?w1] =>
      pose proof (record_return_time_history q w1) as Hh;
      destruct (record_return_time_run q w1) as (w2 & E & _);
      rewrite E in Hh |- *
  end.
  cbn [history_fault set_trace set_db set_clock negb].
  destruct (history_fault w); exact Hh.
Qed.

Lemma sensor_update_history (websocket : WebSocket) (message : Message)
    (w : World) :
  history (fst (sensor_update websocket message w)) = history w.
Proof.
  destruct (current_weight message) as [weight|] eqn:H.
  2:{ now rewrite (sensor_update_no_weight websocket message w H). }
  destruct (tools (db w)) as [tool|] eqn:T.
  2:{ now rewrite (sensor_update_missing websocket message w weight H T). }
  destruct (estimate weight tool) as [n|e] eqn:E.
  2:{ now rewrite
        (sensor_update_raises websocket message w weight tool e H T E). }
  now rewrite (sensor_update_success websocket message w weight tool n H T E).
Qed.

Lemma run_history (b : Block) (w : World) :
  inert_coro (snd (b w)) -> history (run b w) = history (fst (b w)).
Proof.
  intro H. unfold run, history.
  destruct (b w) as [w' c]. cbn in *. now rewrite resume_inert.
Qed.

Lemma handle_frame_history (websocket : WebSocket) (frame : Frame)
    (w : World) :
  history_moves (history w) (history (run (handle_frame websocket frame) w)).
Proof.
  rewrite run_history by apply handle_frame_rest_inert.
  destruct frame as [error | message]; [apply history_same|].
  cbn [handle_frame]. unfold process_websocket_message.
  set (w0 := snd (log WS_LOGGER INFO _ w)).
  change (history w) with (history w0).
  destruct (String.eqb _ "get_tool_status").
  { destruct (get_tool_status_run websocket w0) as (r & ->). apply history_same. }
  destruct (String.eqb _ "borrow_tool"); [apply borrow_tool_history|].
  destruct (String.eqb _ "return_tool"); [apply return_tool_history|].
  destruct (String.eqb _ "sensor_update").
  { rewrite sensor_update_history. apply history_same. }
  destruct (String.eqb _ "ping"); apply history_same.
Qed.

Lemma settled_closed (r : BorrowRecord) (t : Z) : settled (close_record r t).
Proof. right. split; [reflexivity | discriminate]. Qed.

Lemma tidy_app (rs : list BorrowRecord) (record : BorrowRecord) :
  tidy rs -> record_id record = next_record_id rs -> settled record ->
  tidy (rs ++ [record]).
Proof.
  intros (N & S) I R. split.
  - rewrite map_app. cbn [map].
    apply NoDup_rev in N. rewrite <- (rev_involutive (_ ++ _)).
    apply NoDup_rev. rewrite rev_app_distr. cbn [rev app].
    constructor; [|exact N].
    rewrite <- in_rev. intro H. apply in_map_iff in H.
    destruct H as (x & E & Hx).
    pose proof (next_record_id_fresh rs x Hx). lia.
  - apply Forall_app. split; [exact S | now constructor].
Qed.

Lemma tidy_replaced (rs : list BorrowRecord) (r : BorrowRecord) (t : Z) :
  tidy rs -> tidy (replaced (close_record r t) rs).
Proof.
  intros (N & S). split; [now rewrite replaced_ids|].
  unfold replaced. apply Forall_map.
  eapply Forall_impl; [|exact S]. intros x Hx.
  destruct (_ =? _); [apply settled_closed | exact Hx].
Qed.

Lemma history_moves_tidy (rs rs' : list BorrowRecord) :
  history_moves rs rs' -> tidy rs -> tidy rs'.
Proof.
  intros [| record I A R | r t L | record t L I A R] H.
  - exact H.
  - apply tidy_app; [exact H | exact I | now left].
  - now apply tidy_replaced.
  - apply tidy_app; [exact H | exact I |].
    right. split; [exact A | now rewrite R].
Qed.

(** X19.  The history table stays tidy: if its keys are distinct and
    each of its rows is either a borrow without a return time or a
    return with one, the same holds in every state the server reaches,
    whatever frames arrive and whether or not the table accepts the
    writes. *)
Theorem history_stays_tidy (w0 w : World) :
  reachable_from w0 w -> tidy (history w0) -> tidy (history w).
Proof.
  intros H T. induction H as [| w websocket frame _ IH | w w' _ IH E].
  - exact T.
  - exact (history_moves_tidy _ _ (handle_frame_history websocket frame w) IH).
  - unfold history. now rewrite E.
Qed.

Lemma history_stays_tidy_witness :
  let w1 := run (handle_frame 0%nat (Json (request (Borrow 2)))) busy_world in
  let w2 := run (handle_frame 1%nat (Json (request (GiveBack 1)))) w1 in
  List.length (history w2) = 1%nat /\ tidy (history w2).
Proof.
  intros w1 w2. split; [reflexivity|].
  apply (history_stays_tidy busy_world w2).
  - apply reach_frame, reach_frame, reach_start.
  - split; constructor.
Defined.

Lemma record_return_time_closes (quantity : Z) (w : World)
    (r : BorrowRecord) :
  history_fault w = false ->
  NoDup (map record_id (history w)) ->
  latest_open_borrow (history w) = Some r ->
  exists w' before after,
    record_return_time quantity w = (Ok true, w') /\
    history w = before ++ r :: after /\
    history w' = before ++ close_record r (clock w) :: after.
Proof.
  intros F N L.
  destruct (latest_open_borrow_some _ _ L) as (I & O & _).
  destruct (replaced_closes r (clock w) (history w) N I O)
    as (before & after & Hb & R).
  destruct (close_latest_run quantity w r F L) as (w' & E & Ha & _).
  exists w', before, after. rewrite R in Ha. split; [|now split].
  unfold record_return_time, try_, bind, ret. now rewrite E.
Qed.

Lemma return_tool_closes (websocket : WebSocket) (message : Message)
    (w : World) (tool : Tool) (r : BorrowRecord) :
  let q := dict_get (quantity message) 1 in
  tools (db w) = Some tool -> 0 < q ->
  current_quantity tool + q <= total_quantity tool ->
  history_fault w = false ->
  NoDup (map record_id (history w)) ->
  latest_open_borrow (history w) = Some r ->
  exists before after,
    history w = before ++ r :: after /\
    history (fst (return_tool websocket message w)) =
      before ++ close_record r (clock w + 1) :: after.
Proof.
  intros q T H C F N L.
  unfold return_tool. fold q.
  destruct (Z.leb_spec q 0); [lia|]. code. rewrite T, Z.gtb_ltb.
  destruct (Z.ltb_spec (total_quantity tool) (current_quantity tool + q));
    [lia|].
  cbn.
  match goal with
  | |- context [record_return_time q ?w1] =>
      destruct (record_return_time_closes q w1 r F N L)
        as (w2 & before & after & E & Hb & Ha);
      rewrite E
  end.
  exists before, after. split; [exact Hb | exact Ha].
Qed.

(** X20.  The history does not look at quantities when a return comes
    in: a return that the stock accepts, of whatever quantity, closes
    the latest open borrow as a whole, in place and at the time the
    handler calls the collaborator, while the stock grows by the quantity
    given back. *)
Theorem return_closes_latest_borrow (websocket : WebSocket)
    (message : Message) (w : World) (tool : Tool) (r : BorrowRecord) :
  let q := dict_get (quantity message) 1 in
  tools (db w) = Some tool -> 0 < q ->
  current_quantity tool + q <= total_quantity tool ->
  history_fault w = false ->
  NoDup (map record_id (history w)) ->
  latest_open_borrow (history w) = Some r ->
  let w' := run (return_tool websocket message) w in
  stock w' = Some (current_quantity tool + q) /\
  exists before after,
    history w = before ++ r :: after /\
    history w' = before ++ close_record r (clock w + 1) :: after.
Proof.
  intros q T H C F N L w'. split.
  - exact (stock_after_return websocket message w tool T H C).
  - unfold w'. rewrite run_history by apply return_tool_rest_inert.
    exact (return_tool_closes websocket message w tool r T H C F N L).
Qed.

Lemma return_closes_latest_borrow_witness :
  let w :=
    set_db (stocked 4)
      {| tools := tools (db (stocked 4)); borrow_records := sample_history |} in
  let w' := run (return_tool 1%nat (request (GiveBack 2))) w in
  exists r before after,
    latest_open_borrow (history w) = Some r /\
    record_quantity r = 1 /\
    stock w' = Some 6 /\
    history w' = before ++ close_record r (clock w + 1) :: after.
Proof.
  intros w w'.
  assert (N : NoDup (map record_id (history w)))
    by (repeat constructor; cbn; intuition discriminate).
  destruct (return_closes_latest_borrow 1%nat (request (GiveBack 2)) w _ _
              eq_refl ltac:(cbn; lia) ltac:(cbn; lia) eq_refl N eq_refl)
    as (S & before & after & _ & E).
  eexists. exists before, after.
  split; [reflexivity|]. split; [reflexivity|]. split; [exact S | exact E].
Defined.

(* ------------------------------------------------------------------ *)
(** * The queries of the history *)
(* ------------------------------------------------------------------ *)

Lemma insert_desc_length (r : BorrowRecord) (rs : list BorrowRecord) :
  List.length (insert_desc r rs) = S (List.length rs).
Proof.
  induction rs as [|x rs IH]; [reflexivity|].
  cbn [insert_desc]. destruct (_ <=? _); [reflexivity|].
  cbn [List.length]. now rewrite IH.
Qed.

Lemma insert_desc_In (r x : BorrowRecord) (rs : list BorrowRecord) :
  In x (insert_desc r rs) <-> x = r \/ In x rs.
Proof.
  induction rs as [|a rs IH].
  - cbn. intuition.
  - cbn [insert_desc]. destruct (_ <=? _).
    + cbn. intuition.
    + cbn [In]. rewrite IH. intuition.
Qed.

Lemma insert_desc_descending (r : BorrowRecord) (rs : list BorrowRecord) :
  descending rs -> descending (insert_desc r rs).
Proof.
  induction rs as [|a rs IH]; intro D.
  - cbn. split; [contradiction | exact I].
  - cbn [insert_desc]. destruct D as (Da & Drs).
    destruct (Z.leb_spec (borrow_time a) (borrow_time r)) as [L|L].
    + split; [|split; assumption].
      intros x [<- | Hx]; [exact L|]. specialize (Da x Hx). lia.
    + split; [|now apply IH].
      intros x Hx. apply insert_desc_In in Hx.
      destruct Hx as [-> | Hx]; [lia | now apply Da].
Qed.

Lemma newest_first_length (rs : list BorrowRecord) :
  List.length (newest_first rs) = List.length rs.
Proof.
  induction rs as [|r rs IH]; [reflexivity|].
  cbn [newest_first fold_right]. fold (newest_first rs).
  now rewrite insert_desc_length, IH.
Qed.

Lemma newest_first_In (x : BorrowRecord) (rs : list BorrowRecord) :
  In x (newest_first rs) <-> In x rs.
Proof.
  induction rs as [|r rs IH]; [reflexivity|].
  cbn [newest_first fold_right]. fold (newest_first rs).
  rewrite insert_desc_In, IH. cbn. intuition.
Qed.

Lemma newest_first_descending (rs : list BorrowRecord) :
  descending (newest_first rs).
Proof.
  induction rs as [|r rs IH]; [exact I|].
  cbn [newest_first fold_right]. now apply insert_desc_descending.
Qed.

Lemma In_firstn (n : nat) (x : BorrowRecord) (rs : list BorrowRecord) :
  In x (firstn n rs) -> In x rs.
Proof.
  rewrite <- (firstn_skipn n rs) at 2. intro H. apply in_or_app. now left.
Qed.

Lemma In_skipn (n : nat) (x : BorrowRecord) (rs : list BorrowRecord) :
  In x (skipn n rs) -> In x rs.
Proof.
  rewrite <- (firstn_skipn n rs) at 2. intro H. apply in_or_app. now right.
Qed.

Lemma descending_skipn (n : nat) (rs : list BorrowRecord) :
  descending rs -> descending (skipn n rs).
Proof.
  revert rs. induction n as [|n IH]; intros rs D; [exact D|].
  destruct rs as [|r rs]; [exact I|]. apply IH, D.
Qed.

Lemma descending_firstn (n : nat) (rs : list BorrowRecord) :
  descending rs -> descending (firstn n rs).
Proof.
  revert rs. induction n as [|n IH]; intros rs D; [exact I|].
  destruct rs as [|r rs]; [exact I|]. destruct D as (Dr & Drs).
  cbn [firstn]. split; [|now apply IH].
  intros x Hx. apply Dr. revert Hx. apply In_firstn.
Qed.

Lemma insert_desc_perm (r : BorrowRecord) (rs : list BorrowRecord) :
  Permutation (insert_desc r rs) (r :: rs).
Proof.
  induction rs as [|x rs IH]; [apply Permutation_refl|].
  cbn [insert_desc]. destruct (_ <=? _); [apply Permutation_refl|].
  eapply perm_trans; [apply perm_skip, IH | apply perm_swap].
Qed.

Lemma newest_first_perm (rs : list BorrowRecord) :
  Permutation (newest_first rs) rs.
Proof.
  induction rs as [|r rs IH]; [apply perm_nil|].
  cbn [newest_first fold_right]. fold (newest_first rs).
  eapply perm_trans; [apply insert_desc_perm | now apply perm_skip].
Qed.

(** X21.  [get_all_records] reads a page of the table: the rows of the
    table, each once, put in the order of their borrow times, newest
    first, fall into the [skip] rows before the page (all of them if
    there are no more), the page, and the rows after it; the page holds
    [limit] rows, or what is left after [skip] if that is less, and with
    a negative limit everything that is left.  The database is not
    written. *)
Theorem get_all_records_page (skip limit : Z) (w : World) :
  0 <= skip ->
  exists page before after,
    get_all_records skip limit w = (Ok page, w) /\
    Permutation (before ++ page ++ after) (history w) /\
    descending (before ++ page ++ after) /\
    let n := Z.of_nat (List.length (history w)) in
    Z.of_nat (List.length before) = Z.min skip n /\
    Z.of_nat (List.length page) =
      (if limit <? 0 then n - Z.min skip n
       else Z.min limit (n - Z.min skip n)) /\
    (limit < 0 -> after = []).
Proof.
  intro H.
  set (sorted := newest_first (history w)).
  set (rest := skipn (Z.to_nat skip) sorted).
  assert (S : firstn (Z.to_nat skip) sorted ++ rest = sorted)
    by apply firstn_skipn.
  assert (Lb : Z.of_nat (List.length (firstn (Z.to_nat skip) sorted)) =
               Z.min skip (Z.of_nat (List.length (history w))))
    by (rewrite length_firstn; unfold sorted;
        rewrite newest_first_length; lia).
  assert (Lr : Z.of_nat (List.length rest) =
               Z.of_nat (List.length (history w)) -
               Z.min skip (Z.of_nat (List.length (history w))))
    by (unfold rest; rewrite length_skipn; unfold sorted;
        rewrite newest_first_length; lia).
  unfold get_all_records, at_most, offset. fold (history w).
  fold sorted. fold rest.
  destruct (Z.ltb_spec limit 0) as [L|L].
  - exists rest, (firstn (Z.to_nat skip) sorted), [].
    split; [reflexivity|]. rewrite app_nil_r, S.
    split; [apply newest_first_perm|].
    split; [apply newest_first_descending|].
    cbv zeta. split; [exact Lb|]. split; [exact Lr | reflexivity].
  - exists (firstn (Z.to_nat limit) rest), (firstn (Z.to_nat skip) sorted),
      (skipn (Z.to_nat limit) rest).
    split; [reflexivity|]. rewrite firstn_skipn, S.
    split; [apply newest_first_perm|].
    split; [apply newest_first_descending|].
    cbv zeta. split; [exact Lb|]. split; [|lia].
    rewrite length_firstn. lia.
Qed.

Lemma get_all_records_page_witness :
  exists page before after,
    get_all_records 1 1 (recorded sample_history) =
      (Ok page, recorded sample_history) /\
    Permutation (before ++ page ++ after) sample_history /\
    descending (before ++ page ++ after) /\
    Z.of_nat (List.length before) = 1 /\
    Z.of_nat (List.length page) = 1 /\
    map record_id page = [2].
Proof.
  destruct (get_all_records_page 1 1 (recorded sample_history) ltac:(lia))
    as (page & before & after & E & P & D & Lb & Lp & _).
  exists page, before, after. split; [exact E|]. split; [exact P|].
  split; [exact D|]. split; [exact Lb|]. split; [exact Lp|].
  injection E as <-. reflexivity.
Defined.

Lemma count_both (p q : BorrowRecord -> bool) (rs : list BorrowRecord) :
  0 <= count (fun r => p r && q r) rs <= count p rs.
Proof.
  unfold count. split; [lia|]. apply inj_le.
  induction rs as [|r rs IH]; [apply le_n|].
  cbn [filter]. destruct (p r), (q r); cbn [andb List.length]; lia.
Qed.

Lemma settled_actions (r : BorrowRecord) :
  settled r ->
  String.eqb (record_action r) BORROWED = is_open r /\
  String.eqb (record_action r) RETURNED = negb (is_open r).
Proof.
  unfold is_open. intros [(A & R) | (A & R)]; rewrite A.
  - now rewrite R.
  - destruct (return_time r); [now split | contradiction].
Qed.

Lemma count_settled (rs : list BorrowRecord) :
  Forall settled rs ->
  count (fun r => String.eqb (record_action r) BORROWED) rs =
    Z.of_nat (List.length (open_borrows rs)) /\
  count (fun r => String.eqb (record_action r) BORROWED) rs +
  count (fun r => String.eqb (record_action r) RETURNED) rs =
    Z.of_nat (List.length rs).
Proof.
  unfold count, open_borrows.
  induction 1 as [|r rs S _ IH]; [now split|].
  destruct (settled_actions r S) as (B & R).
  cbn [filter]. rewrite B, R.
  destruct (is_open r); cbn [negb List.length]; lia.
Qed.

(** X22.  The statistics of a tidy table add up: [get_statistics]
    reads the clock once and writes nothing; the borrows and the
    returns it counts make up the whole table, the borrows it counts
    are the open borrows, and the counts of today are part of the
    totals, wherever the day starts. *)
Theorem statistics_add_up (day_start : Z -> Z) (w : World) :
  tidy (history w) ->
  exists today_borrows today_returns total_borrows total_returns,
    get_statistics day_start w =
      (Ok [("today_borrows", VInt today_borrows);
           ("today_returns", VInt today_returns);
           ("total_borrows", VInt total_borrows);
           ("total_returns", VInt total_returns)],
       set_clock w (clock w + 1)) /\
    total_borrows + total_returns = Z.of_nat (List.length (history w)) /\
    total_borrows = Z.of_nat (List.length (open_borrows (history w))) /\
    0 <= today_borrows <= total_borrows /\
    0 <= today_returns <= total_returns.
Proof.
  intros (_ & S).
  destruct (count_settled _ S) as (O & A).
  exists
    (count (fun r => String.eqb (record_action r) BORROWED &&
                     (day_start (clock w) <=? borrow_time r)) (history w)),
    (count (fun r => String.eqb (record_action r) RETURNED &&
                     (day_start (clock w) <=? borrow_time r)) (history w)),
    (count (fun r => String.eqb (record_action r) BORROWED) (history w)),
    (count (fun r => String.eqb (record_action r) RETURNED) (history w)).
  split; [reflexivity|].
  split; [exact A|]. split; [exact O|].
  split; apply count_both.
Qed.

Lemma statistics_add_up_witness :
  let w := recorded sample_history in
  tidy (history w) /\
  exists today_borrows today_returns total_borrows total_returns,
    get_statistics (fun t => t - t mod 24) w =
      (Ok [("today_borrows", VInt today_borrows);
           ("today_returns", VInt today_returns);
           ("total_borrows", VInt total_borrows);
           ("total_returns", VInt total_returns)],
       set_clock w (clock w + 1)) /\
    total_borrows + total_returns = 3 /\
    total_borrows = 2.
Proof.
  intro w.
  assert (T : tidy (history w)).
  { split.
    - repeat constructor; cbn; intuition discriminate.
    - apply Forall_cons; [left; split; reflexivity|].
      apply Forall_cons; [right; split; [reflexivity | discriminate]|].
      apply Forall_cons; [left; split; reflexivity | apply Forall_nil]. }
  split; [exact T|].
  destruct (statistics_add_up (fun t => t - t mod 24) w T)
    as (a & b & c & d & E & A & O & _).
  exists a, b, c, d. split; [exact E|]. split; [exact A | exact O].
Defined.

(* ------------------------------------------------------------------ *)
(** * A whole connection *)
(* ------------------------------------------------------------------ *)

Lemma handle_frame_registry (websocket : WebSocket) (frame : Frame)
    (w : World) :
  active_connections (run (handle_frame websocket frame) w) =
  active_connections w.
Proof.
  destruct (handle_frame_shape websocket frame w)
    as ((A & _) & reply & k & E & K).
  unfold run. destruct (handle_frame websocket frame w) as [w1 c].
  cbn [fst snd] in *. subst c.
  assert (T : talkative (Await (SendPersonal reply websocket) k)).
  { destruct K as [-> | (old_quantity & tool & ->)];
      [apply reply_talkative | apply announce_talkative]. }
  destruct (resume_only_talk _ T w1) as (_ & C & _). now rewrite C.
Qed.

Lemma serve_frames_registry (websocket : WebSocket) (frames : list Frame)
    (w : World) :
  active_connections (serve_frames websocket frames w) =
  active_connections w.
Proof.
  revert w. induction frames as [|frame rest IH]; intro w; [reflexivity|].
  cbn [serve_frames]. now rewrite IH, handle_frame_registry.
Qed.

Lemma serve_frames_reachable (websocket : WebSocket) (frames : list Frame)
    (w0 w : World) :
  reachable_from w0 w ->
  reachable_from w0 (serve_frames websocket frames w).
Proof.
  revert w. induction frames as [|frame rest IH]; intros w R; [exact R|].
  cbn [serve_frames]. now apply IH, reach_frame.
Qed.

Lemma leave_registered (websocket : WebSocket) (l : list WebSocket)
    (event : Event) (w : World) :
  ~ In websocket l ->
  active_connections w = l ++ [websocket] ->
  let w' := snd (disconnect websocket (snd (emit event w))) in
  active_connections w' = l /\ db w' = db w.
Proof.
  intros N A w'. subst w'. rewrite disconnect_run.
  cbn [snd emit active_connections set_trace].
  assert (E : existsb (Nat.eqb websocket) (active_connections w) = true)
    by (rewrite A; apply existsb_eqb_In, in_or_app; right; now left).
  rewrite E. cbn [active_connections set_trace set_active_connections db].
  rewrite A. split; [now apply list_remove_last | reflexivity].
Qed.

(** X23.  A connection costs the registry nothing: a client that was
    not registered is the last entry of the list for as long as its
    frames are served and is taken out again when the loop ends, by
    the client going away or by an error; the list is then as it was
    before the client came, the database is as the last frame left it,
    and the state of the server is one that frames alone can reach. *)
Theorem connection_leaves_registry (websocket : WebSocket)
    (frames : list Frame) (w : World) :
  ~ In websocket (active_connections w) ->
  let served := serve_frames websocket frames (snd (connect websocket w)) in
  let w' := handle_websocket_connection websocket frames w in
  active_connections served = active_connections w ++ [websocket] /\
  active_connections w' = active_connections w /\
  db w' = db served /\
  reachable_from w w' /\
  forall e,
    active_connections (snd (on_error websocket e served)) =
      active_connections w /\
    db (snd (on_error websocket e served)) = db served.
Proof.
  intros N served w'.
  assert (A : active_connections served = active_connections w ++ [websocket])
    by (unfold served; now rewrite serve_frames_registry).
  assert (R : reachable_from w served).
  { apply serve_frames_reachable.
    apply (reach_environment w w); [apply reach_start | reflexivity]. }
  split; [exact A|].
  destruct (leave_registered websocket (active_connections w)
              (Log WS_LOGGER INFO [Lit "WebSocket连接断开"]) served N A)
    as (A' & D').
  split; [exact A'|]. split; [exact D'|].
  split; [apply (reach_environment w served); [exact R | exact D']|].
  intro e.
  exact (leave_registered websocket (active_connections w)
           (Log WS_LOGGER ERROR [Lit "WebSocket处理错误: "; ExnHole e])
           served N A).
Qed.

Lemma connection_leaves_registry_witness :
  let frames :=
    [Json (request (Borrow 2)); Malformed "Expecting value";
     Json (weighing (Py.Int 350))] in
  let w' := handle_websocket_connection 7%nat frames busy_world in
  ~ In 7%nat (active_connections busy_world) /\
  active_connections w' = [0; 1; 2]%nat /\
  reachable_from busy_world w'.
Proof.
  intros frames w'.
  assert (N : ~ In 7%nat (active_connections busy_world))
    by (cbn; intuition discriminate).
  destruct (connection_leaves_registry 7%nat frames busy_world N)
    as (_ & A & _ & R & _).
  split; [exact N|]. split; [exact A | exact R].
Defined.
